(** * MCP inspector: agent orchestrator, resource graph, resource indexer,
    profile store and proxy interceptor

  A shallow embedding of the TypeScript sources of the inspector's hard
  core, and the properties of the specification settled against it.

  Conventions of the embedding.
  - A JavaScript string is a [string] (one [ascii] per code unit; the
    embedding covers 8-bit code units).
  - A JSON value is a [json]; an object is the list of its entries in
    [Object.entries] order, a [Map] the list of its entries in insertion
    order.  An object that the code fills by assignment enumerates the
    keys that are array indices first, in ascending order, and the other
    keys in the order of their first assignment: [define].  A number is an
    integer ([Z]); [String(n)] is its decimal writing, which is what
    JavaScript prints for the safe integers ([|n| <= 2^53]): a statement
    that reads the text of a number is made for safe integers.
  - An assignment [obj[key] = v] to a plain object stores nothing under
    the key ["__proto__"] while the object has its prototype (the setter
    inherited from [Object.prototype] runs instead): [store] and [merge]
    are the assignments of the code on such objects, [set_field] and
    [assign] the updates of a [Map] and of the fields of a record.
  - [Map<string, V>] used as a dictionary is a [gmap string V].
  - [JSON.parse] and [JSON.stringify] are host functions: the repository
    code is written against the [JsHost] interface and every general
    theorem holds for any host; [js_host] is a concrete host used to run
    the code on examples.
  - [Date.now()] and [randomUUID()] are inputs of the operation that
    reads them. *)

From Stdlib Require Import ZArith QArith Ascii String List Bool Lia DecimalString.
From stdpp Require Import base gmap strings list fin_maps.

Set Warnings "-register-all".

Open Scope string_scope.
Open Scope list_scope.
Open Scope Z_scope.

(* ===================================================================== *)
(** * Host language: strings, JSON values, regular expressions           *)
(* ===================================================================== *)

Module Js.

(** ** Characters *)

Definition code (c : ascii) : nat := nat_of_ascii c.

Definition in_range (lo hi : ascii) (c : ascii) : bool :=
  (code lo <=? code c)%nat && (code c <=? code hi)%nat.

Definition is_char (x : ascii) (c : ascii) : bool := Ascii.eqb x c.

Definition is_upper : ascii -> bool := in_range "A" "Z".
Definition is_lower : ascii -> bool := in_range "a" "z".
Definition is_digit : ascii -> bool := in_range "0" "9".

Definition lower_char (c : ascii) : ascii :=
  if is_upper c then ascii_of_nat (code c + 32) else c.

Definition upper_char (c : ascii) : ascii :=
  if is_lower c then ascii_of_nat (code c - 32) else c.

(** White space removed by [String.prototype.trim] (8-bit part). *)
Definition is_space (c : ascii) : bool :=
  match code c with
  | 9%nat | 10%nat | 11%nat | 12%nat | 13%nat | 32%nat | 160%nat => true
  | _ => false
  end.

(** ** Strings *)

Fixpoint map_string (f : ascii -> ascii) (s : string) : string :=
  match s with
  | EmptyString => EmptyString
  | String c s' => String (f c) (map_string f s')
  end.

Definition toLowerCase : string -> string := map_string lower_char.

Definition startsWith (s p : string) : bool := String.prefix p s.

Definition endsWith (s suffix : string) : bool :=
  (String.length suffix <=? String.length s)%nat &&
  String.eqb
    (substring (String.length s - String.length suffix)
               (String.length suffix) s)
    suffix.

Fixpoint includes (s sub : string) : bool :=
  String.prefix sub s ||
  match s with
  | EmptyString => false
  | String _ s' => includes s' sub
  end.

(** [s.split(sep)] for a one-character separator: never empty. *)
Fixpoint split (sep : ascii) (s : string) : list string :=
  match s with
  | EmptyString => [EmptyString]
  | String c s' =>
      if Ascii.eqb c sep then EmptyString :: split sep s'
      else match split sep s' with
           | h :: t => String c h :: t
           | [] => [String c EmptyString]
           end
  end.

(** [s.slice(n)] for [0 <= n]. *)
Fixpoint drop_string (n : nat) (s : string) : string :=
  match n, s with
  | O, _ => s
  | S n', String _ s' => drop_string n' s'
  | S _, EmptyString => EmptyString
  end.

(** [s.substring(0, n)]. *)
Definition take_string (n : nat) (s : string) : string := substring 0 n s.

Fixpoint trimStart (s : string) : string :=
  match s with
  | String c s' => if is_space c then trimStart s' else s
  | EmptyString => EmptyString
  end.

Fixpoint rev_string (s : string) : string :=
  match s with
  | EmptyString => EmptyString
  | String c s' => rev_string s' +:+ String c EmptyString
  end.

Definition trimEnd (s : string) : string :=
  rev_string (trimStart (rev_string s)).

Definition trim (s : string) : string := trimEnd (trimStart s).

Fixpoint join (sep : string) (l : list string) : string :=
  match l with
  | [] => ""
  | [x] => x
  | x :: l' => x +:+ sep +:+ join sep l'
  end.

(** [String(n)] for an integer [n]: its decimal writing. *)
Definition string_of_Z (n : Z) : string :=
  NilZero.string_of_int (Z.to_int n).

Definition string_of_nat (n : nat) : string := string_of_Z (Z.of_nat n).

(** ** JSON values *)

Inductive json : Type :=
| JNull
| JBool (b : bool)
| JNum (n : Z)
| JStr (s : string)
| JArr (items : list json)
| JObj (entries : list (string * json)).

(** [obj[key]] on an object (or [Map]) given by its entries in insertion
    order ([None]: undefined). *)
Fixpoint get_field {V : Type} (key : string) (entries : list (string * V))
  : option V :=
  match entries with
  | [] => None
  | (k, v) :: rest => if String.eqb k key then Some v else get_field key rest
  end.

(** [map.set(key, v)]: an existing key keeps its place, a new one goes
    last. *)
Fixpoint set_field {V : Type} (key : string) (v : V)
    (entries : list (string * V)) : list (string * V) :=
  match entries with
  | [] => [(key, v)]
  | (k', v') :: rest =>
      if String.eqb k' key then (key, v) :: rest
      else (k', v') :: set_field key v rest
  end.

(** [{ ...target, ...source }]: every key of [source] is defined. *)
Definition assign {V : Type} (target source : list (string * V))
  : list (string * V) :=
  fold_left (fun acc kv => set_field (fst kv) (snd kv) acc) source target.

(** The number a text of digits writes. *)
Fixpoint digits_value (acc : Z) (s : string) : option Z :=
  match s with
  | EmptyString => Some acc
  | String c s' =>
      if is_digit c then digits_value (10 * acc + Z.of_nat (code c - 48)) s'
      else None
  end.

(** The array index that a property key is, if it is one: the canonical
    writing of an integer from 0 to 2^32 - 2. *)
Definition array_index (key : string) : option Z :=
  match key with
  | EmptyString => None
  | String c rest =>
      if is_char "0" c && negb (String.eqb rest "") then None
      else
        match digits_value 0 key with
        | Some n => if n <=? 4294967294 then Some n else None
        | None => None
        end
  end.

(** A new property whose key is the array index [n]: after the smaller
    indices, before the other keys. *)
Fixpoint insert_index {V : Type} (n : Z) (key : string) (v : V)
    (entries : list (string * V)) : list (string * V) :=
  match entries with
  | [] => [(key, v)]
  | (k', v') :: rest =>
      match array_index k' with
      | Some m =>
          if m <? n then (k', v') :: insert_index n key v rest
          else (key, v) :: entries
      | None => (key, v) :: entries
      end
  end.

(** The property [key] of an object is given the value [v]: an existing
    key keeps its place; a new array index goes among the indices, in
    ascending order; another new key goes last. *)
Definition define {V : Type} (key : string) (v : V)
    (entries : list (string * V)) : list (string * V) :=
  match get_field key entries, array_index key with
  | None, Some n => insert_index n key v entries
  | _, _ => set_field key v entries
  end.

(** [obj[key] = v] on a plain object that has its prototype: under the key
    ["__proto__"] the assignment runs the setter inherited from
    [Object.prototype] and no property is created. *)
Definition store {V : Type} (key : string) (v : V)
    (entries : list (string * V)) : list (string * V) :=
  if String.eqb key "__proto__" then entries else define key v entries.

(** [Object.assign(target, source)] on such a target. *)
Definition merge {V : Type} (target source : list (string * V))
  : list (string * V) :=
  fold_left (fun acc kv => store (fst kv) (snd kv) acc) source target.

(** [typeof v === "object" && v !== null] *)
Definition is_object (v : json) : bool :=
  match v with
  | JArr _ | JObj _ => true
  | _ => false
  end.

(** Truthiness of a JSON value. *)
Definition truthy (v : json) : bool :=
  match v with
  | JNull => false
  | JBool b => b
  | JNum n => negb (n =? 0)
  | JStr s => negb (String.eqb s "")
  | JArr _ | JObj _ => true
  end.

(** [String(v)] for a value [JSON.parse] answered ([None]: TypeError).  An
    object with a key [toString] of its own has no callable [toString],
    and its [valueOf] answers the object: the conversion throws.  An array
    joins the texts of its items, [null] counting for the empty text. *)
Fixpoint String_ (v : json) : option string :=
  match v with
  | JNull => Some "null"
  | JBool true => Some "true"
  | JBool false => Some "false"
  | JNum n => Some (string_of_Z n)
  | JStr s => Some s
  | JArr items =>
      option_map (join ",")
        ((fix each (items : list json) : option (list string) :=
            match items with
            | [] => Some []
            | item :: rest =>
                match (match item with
                       | JNull => Some ""
                       | _ => String_ item
                       end), each rest with
                | Some s, Some texts => Some (s :: texts)
                | _, _ => None
                end
            end) items)
  | JObj fields =>
      match get_field "toString" fields with
      | Some _ => None
      | None => Some "[object Object]"
      end
  end.

(** The safe integers, which [String] and [JSON.parse] treat as the
    decimal writing does. *)
Definition MAX_SAFE_INTEGER : Z := 2 ^ 53 - 1.

Definition safe_integer (n : Z) : bool :=
  (- MAX_SAFE_INTEGER <=? n) && (n <=? MAX_SAFE_INTEGER).

(** Every number of a value is a safe integer. *)
Fixpoint safe_numbers (v : json) : bool :=
  match v with
  | JNum n => safe_integer n
  | JArr items => forallb safe_numbers items
  | JObj entries =>
      (fix each (es : list (string * json)) : bool :=
         match es with
         | [] => true
         | (_, x) :: rest => safe_numbers x && each rest
         end) entries
  | _ => true
  end.

(** The host functions the repository calls. *)
Class JsHost : Type := {
  JSON_parse : string -> option json;      (* [None]: SyntaxError *)
  JSON_stringify : json -> string;
}.

End Js.

(* ===================================================================== *)
(** * Regular expressions (the fragment the repository's patterns use)   *)
(* ===================================================================== *)

Module Regex.
Import Js.

Inductive regex : Type :=
| Void
| Eps
| Cls (p : ascii -> bool)
| Cat (r1 r2 : regex)
| Alt (r1 r2 : regex)
| Star (r : regex).

Fixpoint nullable (r : regex) : bool :=
  match r with
  | Void => false
  | Eps => true
  | Cls _ => false
  | Cat r1 r2 => nullable r1 && nullable r2
  | Alt r1 r2 => nullable r1 || nullable r2
  | Star _ => true
  end.

Definition cat (r1 r2 : regex) : regex :=
  match r1, r2 with
  | Void, _ => Void
  | _, Void => Void
  | Eps, _ => r2
  | _, _ => Cat r1 r2
  end.

Definition alt (r1 r2 : regex) : regex :=
  match r1, r2 with
  | Void, _ => r2
  | _, Void => r1
  | _, _ => Alt r1 r2
  end.

(** Brzozowski derivative. *)
Fixpoint deriv (c : ascii) (r : regex) : regex :=
  match r with
  | Void => Void
  | Eps => Void
  | Cls p => if p c then Eps else Void
  | Cat r1 r2 =>
      if nullable r1 then alt (cat (deriv c r1) r2) (deriv c r2)
      else cat (deriv c r1) r2
  | Alt r1 r2 => alt (deriv c r1) (deriv c r2)
  | Star r1 => cat (deriv c r1) (Star r1)
  end.

(** [/^r$/.test(s)] *)
Fixpoint test (r : regex) (s : string) : bool :=
  match s with
  | EmptyString => nullable r
  | String c s' => test (deriv c r) s'
  end.

(** [s.replace(/r$/, "")]: the leftmost suffix matched by [r] is removed. *)
Fixpoint strip_suffix (r : regex) (s : string) : string :=
  if test r s then EmptyString
  else match s with
       | EmptyString => EmptyString
       | String c s' => String c (strip_suffix r s')
       end.

(** Pattern combinators. *)
Definition plus (r : regex) : regex := Cat r (Star r).

(** [r{n}] followed by [rest]. *)
Fixpoint times (n : nat) (r rest : regex) : regex :=
  match n with
  | O => rest
  | S n' => Cat r (times n' r rest)
  end.

Definition chr (c : ascii) : regex := Cls (is_char c).

Fixpoint lit (s : string) : regex :=
  match s with
  | EmptyString => Eps
  | String c s' => Cat (chr c) (lit s')
  end.

(** Character classes. *)
Definition cls_or (p q : ascii -> bool) (c : ascii) : bool := p c || q c.

(** A class under the [i] flag. *)
Definition ci (p : ascii -> bool) (c : ascii) : bool :=
  p (lower_char c) || p (upper_char c).

Definition hex_lower : ascii -> bool := cls_or is_digit (in_range "a" "f").
Definition word_char : ascii -> bool :=
  cls_or (cls_or is_upper is_lower) (cls_or is_digit (is_char "_")).

End Regex.

(* ===================================================================== *)
(** * Profile store (auth/userProfiles.ts)                               *)
(* ===================================================================== *)

Module UserProfiles.
Import Js.

Inductive ColorTag : Type := blue | red | green | purple | orange | yellow.

Definition colorTag_name (c : ColorTag) : string :=
  match c with
  | blue => "blue" | red => "red" | green => "green"
  | purple => "purple" | orange => "orange" | yellow => "yellow"
  end.

Record UserProfile : Type := {
  id : string;
  displayName : string;
  colorTag : ColorTag;
  authToken : option string;
  headers : list (string * string);
  createdAt : Z;
  updatedAt : Z;
}.

(** [CreateProfileInput]; [colorTag] and [headers] may be missing at run
    time and are defaulted by [addProfile]. *)
Record CreateProfileInput : Type := {
  c_displayName : string;
  c_colorTag : option ColorTag;
  c_authToken : option string;
  c_headers : option (list (string * string));
}.

(** The object received by [updateProfile]: every key is optional.  The
    declared type has no [id], [createdAt] or [updatedAt]; an object that
    does not come from typed code (a request body) can carry them, so the
    embedding keeps them. *)
Record UpdateProfileInput : Type := {
  u_displayName : option string;
  u_colorTag : option ColorTag;
  u_authToken : option (option string);
  u_headers : option (list (string * string));
  u_id : option string;
  u_createdAt : option Z;
  u_updatedAt : option Z;
}.

Record ProfilesData : Type := {
  d_profiles : list UserProfile;
  d_activeProfileId : option string;
}.

(** The manager's fields and the content of [auth.json] ([None]: no file). *)
Record UserProfileManager : Type := {
  profiles : list UserProfile;
  activeProfileId : option string;
  file : option ProfilesData;
}.

(** What an operation reads from outside: the clock, the UUID source and
    whether the file system accepts the write. *)
Record Env : Type := {
  now : Z;
  randomUUID : nat -> string;
  fs_ok : bool;
}.

Inductive outcome (A : Type) : Type :=
| Returns (a : A)
| Throws (message : string).
Arguments Returns {A} a.
Arguments Throws {A} message.

(** [saveToFile]: a failed write is logged and swallowed. *)
Definition saveToFile (e : Env) (m : UserProfileManager) : UserProfileManager :=
  if fs_ok e then
    {| profiles := profiles m;
       activeProfileId := activeProfileId m;
       file := Some {| d_profiles := profiles m;
                       d_activeProfileId := activeProfileId m |} |}
  else m.

Definition addProfile (e : Env) (input : CreateProfileInput)
    (m : UserProfileManager) : UserProfile * UserProfileManager :=
  let profile :=
    {| id := randomUUID e 0%nat;
       displayName := c_displayName input;
       colorTag := default blue (c_colorTag input);
       authToken := c_authToken input;
       headers := default [] (c_headers input);
       createdAt := now e;
       updatedAt := now e |} in
  (profile,
   saveToFile e {| profiles := profiles m ++ [profile];
                   activeProfileId := activeProfileId m;
                   file := file m |}).

(** [profiles.findIndex((p) => p.id === id)]; [None] stands for -1. *)
Fixpoint findIndex (target : string) (ps : list UserProfile) : option nat :=
  match ps with
  | [] => None
  | p :: rest =>
      if String.eqb (id p) target then Some O
      else option_map S (findIndex target rest)
  end.

(** [{ ...existing, ...data }] *)
Definition spread (existing : UserProfile) (data : UpdateProfileInput)
  : UserProfile :=
  {| id := default (id existing) (u_id data);
     displayName := default (displayName existing) (u_displayName data);
     colorTag := default (colorTag existing) (u_colorTag data);
     authToken := default (authToken existing) (u_authToken data);
     headers := default (headers existing) (u_headers data);
     createdAt := default (createdAt existing) (u_createdAt data);
     updatedAt := default (updatedAt existing) (u_updatedAt data) |}.

Definition updateProfile (e : Env) (target : string) (data : UpdateProfileInput)
    (m : UserProfileManager) : outcome UserProfile * UserProfileManager :=
  match findIndex target (profiles m) with
  | None => (Throws ("Profile not found: " +:+ target), m)
  | Some index =>
      match profiles m !! index with
      | None => (Throws ("Profile not found: " +:+ target), m) (* no such index *)
      | Some existing =>
          let merged := spread existing data in
          let updated :=
            {| id := id existing;               (* Prevent ID modification *)
               displayName := displayName merged;
               colorTag := colorTag merged;
               authToken := authToken merged;
               headers := headers merged;
               createdAt := createdAt existing; (* Prevent createdAt modification *)
               updatedAt := now e |} in
          (Returns updated,
           saveToFile e {| profiles := <[index := updated]> (profiles m);
                           activeProfileId := activeProfileId m;
                           file := file m |})
      end
  end.

(** [profiles.find((p) => p.id === id)] *)
Definition getProfile (target : string) (m : UserProfileManager)
  : option UserProfile :=
  List.find (fun p => String.eqb (id p) target) (profiles m).

Definition listProfiles (m : UserProfileManager) : list UserProfile :=
  profiles m.

Definition getActiveProfileId (m : UserProfileManager) : option string :=
  activeProfileId m.

(** [deleteProfile]: [profiles.splice(index, 1)] removes one element. *)
Definition deleteProfile (e : Env) (target : string) (m : UserProfileManager)
  : bool * UserProfileManager :=
  match findIndex target (profiles m) with
  | None => (false, m)
  | Some index =>
      (true,
       saveToFile e
         {| profiles := delete index (profiles m);
            (* Clear active profile if it was deleted *)
            activeProfileId :=
              match activeProfileId m with
              | Some a => if String.eqb a target then None else Some a
              | None => None
              end;
            file := file m |})
  end.

Definition setActiveProfile (e : Env) (target : string) (m : UserProfileManager)
  : outcome unit * UserProfileManager :=
  match getProfile target m with
  | None => (Throws ("Profile not found: " +:+ target), m)
  | Some _ =>
      (Returns tt,
       saveToFile e {| profiles := profiles m;
                       activeProfileId := Some target;
                       file := file m |})
  end.

Definition clearActiveProfile (e : Env) (m : UserProfileManager)
  : UserProfileManager :=
  saveToFile e {| profiles := profiles m;
                  activeProfileId := None;
                  file := file m |}.

(** [if (!this.activeProfileId) return undefined]: the empty string is no
    active profile either. *)
Definition getActiveProfile (m : UserProfileManager) : option UserProfile :=
  match activeProfileId m with
  | Some a => if String.eqb a "" then None else getProfile a m
  | None => None
  end.

(** [getActiveHeaders]: the token first, then [Object.assign] of the custom
    headers over it (a custom header named ["__proto__"] is not stored). *)
Definition getActiveHeaders (m : UserProfileManager) : list (string * string) :=
  match getActiveProfile m with
  | None => []
  | Some profile =>
      let withToken :=
        match authToken profile with
        | Some token =>
            if String.eqb token "" then [] else [("Authorization", token)]
        | None => []
        end in
      merge withToken (headers profile)
  end.

(** [new UserProfileManager()]: the fields after [loadFromFile] has read
    [auth.json] ([None]: there is no file, or it cannot be read). *)
Definition loadFromFile (stored : option ProfilesData) : UserProfileManager :=
  match stored with
  | None => {| profiles := []; activeProfileId := None; file := None |}
  | Some parsed =>
      {| profiles := d_profiles parsed;
         activeProfileId :=
           match d_activeProfileId parsed with
           | Some a => if String.eqb a "" then None else Some a
           | None => None
           end;
         file := stored |}
  end.

End UserProfiles.

(* ===================================================================== *)
(** * Resource indexer (analysis/resourceIndexer.ts)                     *)
(* ===================================================================== *)

Module ResourceIndexer.
Import Js Regex.

Inductive ResourceType : Type :=
| uuid | numeric | path | slug | unknown.

Record IndexedResource : Type := {
  entryId : string;
  id : string;
  type : ResourceType;
  fieldName : string;
  fieldPath : string;
  parentContext : list (string * json);
  discoveredByTool : string;
  discoveredFromUser : string;
  discoveredFromUserName : string;
  userColorTag : string;
  timestamp : Z;
}.

(** ** [PATTERNS] *)

Module PATTERNS.

(** [/^[0-9a-f]{8}-[0-9a-f]{4}-[1-5][0-9a-f]{3}-[89ab][0-9a-f]{3}-[0-9a-f]{12}$/i] *)
Definition uuid : regex :=
  let h := Cls (ci hex_lower) in
  let dash := chr "-" in
  let group5 := times 12 h Eps in
  let group4 :=
    Cat (Cls (ci (cls_or (in_range "8" "9") (in_range "a" "b"))))
        (times 3 h (Cat dash group5)) in
  let group3 :=
    Cat (Cls (ci (in_range "1" "5"))) (times 3 h (Cat dash group4)) in
  let group2 := times 4 h (Cat dash group3) in
  times 8 h (Cat dash group2).

(** [/^[0-9]{3,}$/] *)
Definition numeric : regex :=
  times 3 (Cls is_digit) (Star (Cls is_digit)).

(** [/^\/[\w\-\/]+$/] *)
Definition path : regex :=
  Cat (chr "/")
      (plus (Cls (cls_or word_char (cls_or (is_char "-") (is_char "/"))))).

(** [/^[a-z0-9]+[-_][a-z0-9]+[-_a-z0-9]*$/i] *)
Definition slug : regex :=
  let an := cls_or is_lower is_digit in
  let sep := cls_or (is_char "-") (is_char "_") in
  Cat (plus (Cls (ci an)))
  (Cat (Cls (ci sep))
  (Cat (plus (Cls (ci an)))
       (Star (Cls (ci (cls_or sep an)))))).

(** [/^ari:cloud:[a-z]+::[a-z0-9-]+\/[a-z0-9-]+$/] *)
Definition atlassianAri : regex :=
  let seg := plus (Cls (cls_or is_lower (cls_or is_digit (is_char "-")))) in
  Cat (lit "ari:cloud:")
  (Cat (plus (Cls is_lower))
  (Cat (lit "::")
  (Cat seg (Cat (chr "/") seg)))).

(** [/^[A-Z]+-[0-9]+$/] *)
Definition atlassianKey : regex :=
  Cat (plus (Cls is_upper)) (Cat (chr "-") (plus (Cls is_digit))).

End PATTERNS.

Definition ID_FIELD_NAMES : list string :=
  [ "id"; "uuid"; "key"; "resourceId"; "objectId"; "entityId"; "userId";
    "accountId"; "projectId"; "issueId"; "pageId"; "spaceId"; "ari";
    "cloudId"; "siteId"; "workspaceId"; "boardId"; "ticketId";
    "documentId"; "fileId"; "folderId"; "groupId"; "teamId"; "channelId";
    "conversationId"; "messageId"; "attachmentId"; "commentId"; "self" ].

Definition detectIdType (value : string) : option ResourceType :=
  if (String.length value =? 0)%nat then None
  else if (500 <? String.length value)%nat then None
  else if test PATTERNS.uuid value then Some uuid
  else if test PATTERNS.atlassianAri value then Some path
  else if test PATTERNS.atlassianKey value then Some slug
  else if test PATTERNS.numeric value then Some numeric
  else if test PATTERNS.path value then Some path
  else if test PATTERNS.slug value then Some slug
  else None.

Definition isIdFieldName (fieldName : string) : bool :=
  let lowerName := toLowerCase fieldName in
  existsb
    (fun idField =>
       String.eqb lowerName (toLowerCase idField) ||
       endsWith lowerName (toLowerCase idField))
    ID_FIELD_NAMES.

Record ExtractedId : Type := {
  x_id : string;
  x_type : ResourceType;
  x_fieldName : string;
  x_fieldPath : string;
  x_parentContext : list (string * json);
}.

(** Only simple sibling values are kept; long strings are cut.  The keys
    of [obj] are distinct, so that [result[key] = ...] adds an entry, but
    for the key ["__proto__"], under which nothing is stored. *)
Fixpoint sanitizeContext (obj : list (string * json)) : list (string * json) :=
  match obj with
  | [] => []
  | (key, value) :: rest =>
      let kept (v : json) :=
        if String.eqb key "__proto__" then sanitizeContext rest
        else (key, v) :: sanitizeContext rest in
      match value with
      | JStr s =>
          if (200 <? String.length s)%nat
          then kept (JStr (take_string 200 s +:+ "..."))
          else kept value
      | JNum _ | JBool _ => kept value
      | _ => sanitizeContext rest
      end
  end.

(** [path.split(".").pop()?.replace(/\[\d+\]$/, "") || ""] *)
Definition fieldNameOf (path : string) : string :=
  strip_suffix (Cat (chr "[") (Cat (plus (Cls is_digit)) (chr "]")))
               (List.last (split "." path) "").

Definition contextOf (parentObj : option (list (string * json)))
  : list (string * json) :=
  match parentObj with
  | Some p => sanitizeContext p
  | None => []
  end.

(** The string branch of [extractIds]. *)
Definition extractString (obj path : string) (results : list ExtractedId)
    (parentObj : option (list (string * json))) : list ExtractedId :=
  let fieldName := fieldNameOf path in
  let entry idType :=
    {| x_id := obj; x_type := idType; x_fieldName := fieldName;
       x_fieldPath := path; x_parentContext := contextOf parentObj |} in
  match (if isIdFieldName fieldName then detectIdType obj else None) with
  | Some idType => results ++ [entry idType]
  | None =>
      if test PATTERNS.uuid obj || test PATTERNS.atlassianKey obj then
        match detectIdType obj with
        | Some idType => results ++ [entry idType]
        | None => results
        end
      else results
  end.

(** The number branch of [extractIds].  [String(obj)] is the decimal
    writing of [obj] when [obj] is a safe integer; what is stated of the
    text of such an id is stated for safe integers. *)
Definition extractNumber (obj : Z) (path : string) (results : list ExtractedId)
    (parentObj : option (list (string * json))) : list ExtractedId :=
  let fieldName := fieldNameOf path in
  if isIdFieldName fieldName && (100 <? obj) then
    results ++ [ {| x_id := string_of_Z obj; x_type := numeric;
                    x_fieldName := fieldName; x_fieldPath := path;
                    x_parentContext := contextOf parentObj |} ]
  else results.

(** [extractIds(obj, path, results, parentObj)]: the new content of the
    [results] array. *)
Fixpoint extractIds (obj : json) (path : string) (results : list ExtractedId)
    (parentObj : option (list (string * json))) {struct obj}
  : list ExtractedId :=
  match obj with
  | JNull => results
  | JStr s => extractString s path results parentObj
  | JNum n => extractNumber n path results parentObj
  | JBool _ => results
  | JArr items =>
      (fix forEach (items : list json) (index : nat)
           (results : list ExtractedId) {struct items} : list ExtractedId :=
         match items with
         | [] => results
         | item :: rest =>
             let itemParent :=
               match item with
               | JObj objRecord => Some objRecord
               | _ => parentObj
               end in
             forEach rest (S index)
               (extractIds item (path +:+ "[" +:+ string_of_nat index +:+ "]")
                           results itemParent)
         end) items O results
  | JObj objRecord =>
      (fix entries (es : list (string * json))
           (results : list ExtractedId) {struct es} : list ExtractedId :=
         match es with
         | [] => results
         | (key, value) :: rest =>
             let newPath :=
               if String.eqb path "" then key else path +:+ "." +:+ key in
             entries rest (extractIds value newPath results (Some objRecord))
         end) objRecord results
  end.

(** ** The [ResourceIndexer] class *)

(** The fields of the indexer and the content of [resources.json]. *)
Record ResourceIndexer : Type := {
  resources : list IndexedResource;
  seenIds : gset string;
  file : option (list IndexedResource);
}.

Definition empty_index : ResourceIndexer :=
  {| resources := []; seenIds := ∅; file := None |}.

Section WithHost.
Context `{JsHost}.

(** The loop of [extractMcpContent] over [resp.content]. *)
Fixpoint parseContents (content : list json) (parsedContents : list json)
  : list json :=
  match content with
  | [] => parsedContents
  | item :: rest =>
      parseContents rest
        match item with
        | JObj fields =>
            match get_field "type" fields, get_field "text" fields with
            | Some (JStr ty), Some (JStr text) =>
                if String.eqb ty "text" then
                  match JSON_parse text with
                  | Some parsed => parsedContents ++ [parsed]
                  | None => parsedContents       (* Not JSON, skip *)
                  end
                else parsedContents
            | _, _ => parsedContents
            end
        | _ => parsedContents
        end
  end.

Definition extractMcpContent (response : json) : json :=
  match response with
  | JObj resp =>
      match get_field "content" resp with
      | Some (JArr content) =>
          match parseContents content [] with
          | [] => response
          | [parsed] => parsed
          | parsedContents => JArr parsedContents
          end
      | _ => response
      end
  | _ => response
  end.

End WithHost.

(** [userProfileId || "anonymous"] *)
Definition userOrAnonymous (userProfileId : option string) : string :=
  match userProfileId with
  | Some u => if String.eqb u "" then "anonymous" else u
  | None => "anonymous"
  end.

Definition uniqueKey (id : string) (userProfileId : option string) : string :=
  id +:+ "::" +:+ userOrAnonymous userProfileId.

Definition saveToFile (e : UserProfiles.Env) (ix : ResourceIndexer)
  : ResourceIndexer :=
  if UserProfiles.fs_ok e then
    {| resources := resources ix; seenIds := seenIds ix;
       file := Some (resources ix) |}
  else ix.

(** The [for ... of extracted] loop of [indexResponse]: the indexer and the
    [newResources] array after it. *)
Fixpoint indexExtracted (e : UserProfiles.Env) (userProfileId : option string)
    (toolName userName userColor : string) (extracted : list ExtractedId)
    (ix : ResourceIndexer) (newResources : list IndexedResource)
  : ResourceIndexer * list IndexedResource :=
  match extracted with
  | [] => (ix, newResources)
  | x :: rest =>
      let key := uniqueKey (x_id x) userProfileId in
      if decide (key ∈ seenIds ix) then
        indexExtracted e userProfileId toolName userName userColor rest
                       ix newResources
      else
        let resource :=
          {| entryId := UserProfiles.randomUUID e (length newResources);
             id := x_id x;
             type := x_type x;
             fieldName := x_fieldName x;
             fieldPath := x_fieldPath x;
             parentContext := x_parentContext x;
             discoveredByTool := toolName;
             discoveredFromUser := userOrAnonymous userProfileId;
             discoveredFromUserName := userName;
             userColorTag := userColor;
             timestamp := UserProfiles.now e |} in
        indexExtracted e userProfileId toolName userName userColor rest
          {| resources := resources ix ++ [resource];
             seenIds := {[ key ]} ∪ seenIds ix;
             file := file ix |}
          (newResources ++ [resource])
  end.

Definition indexResponse `{JsHost} (e : UserProfiles.Env)
    (profileManager : UserProfiles.UserProfileManager)
    (userProfileId : option string) (toolName : string) (response : json)
    (ix : ResourceIndexer) : list IndexedResource * ResourceIndexer :=
  let profile :=
    match userProfileId with
    | Some u =>
        if String.eqb u "" then None
        else UserProfiles.getProfile u profileManager
    | None => None
    end in
  let userName :=
    match profile with
    | Some p => if String.eqb (UserProfiles.displayName p) "" then "Unknown"
                else UserProfiles.displayName p
    | None => "Unknown"
    end in
  let userColor :=
    match profile with
    | Some p => UserProfiles.colorTag_name (UserProfiles.colorTag p)
    | None => "blue"
    end in
  let responseToIndex := extractMcpContent response in
  let extracted := extractIds responseToIndex "" [] None in
  let '(ix', newResources) :=
    indexExtracted e userProfileId toolName userName userColor extracted
                   ix [] in
  (newResources,
   if (0 <? length newResources)%nat then saveToFile e ix' else ix').

Definition getIndexedResources (ix : ResourceIndexer) : list IndexedResource :=
  resources ix.

Definition getResourcesByUser (userId : string) (ix : ResourceIndexer)
  : list IndexedResource :=
  List.filter (fun r => String.eqb (discoveredFromUser r) userId) (resources ix).

Definition clearIndex (e : UserProfiles.Env) (ix : ResourceIndexer)
  : ResourceIndexer :=
  saveToFile e {| resources := []; seenIds := ∅; file := file ix |}.

(** [loadFromFile] in the constructor: [None] is a missing or unreadable
    file; the dedup set is rebuilt from the stored list. *)
Definition loadFromFile (stored : option (list IndexedResource))
  : ResourceIndexer :=
  match stored with
  | None => {| resources := []; seenIds := ∅; file := None |}
  | Some rs =>
      {| resources := rs;
         seenIds :=
           list_to_set
             (List.map (fun r => id r +:+ "::" +:+ discoveredFromUser r) rs);
         file := stored |}
  end.

End ResourceIndexer.

(* ===================================================================== *)
(** * A concrete host: [JSON.parse] and [JSON.stringify]                 *)
(* ===================================================================== *)

(** ECMA-262 on the fragment of the embedding: integer numbers, 8-bit
    code units.  A text with a fraction, an exponent or an escape above
    [ÿ] is outside the fragment and is reported as not parsed. *)

Module Host.
Import Js.

Definition dquote : ascii := ascii_of_nat 34.
Definition backslash : ascii := ascii_of_nat 92.

Definition is_json_ws (c : ascii) : bool :=
  match code c with
  | 9%nat | 10%nat | 13%nat | 32%nat => true
  | _ => false
  end.

Fixpoint skip_ws (s : string) : string :=
  match s with
  | String c s' => if is_json_ws c then skip_ws s' else s
  | EmptyString => EmptyString
  end.

Definition expect (word s : string) : option string :=
  if String.prefix word s then Some (drop_string (String.length word) s)
  else None.

Fixpoint parse_digits (s : string) (acc : Z) : Z * string :=
  match s with
  | String c s' =>
      if is_digit c
      then parse_digits s' (10 * acc + Z.of_nat (code c - 48))
      else (acc, s)
  | EmptyString => (acc, s)
  end.

Definition no_fraction (r : Z * string) : option (Z * string) :=
  match snd r with
  | String c _ =>
      if is_char "." c || is_char "e" c || is_char "E" c then None else Some r
  | EmptyString => Some r
  end.

Definition parse_unsigned (s : string) : option (Z * string) :=
  match s with
  | String c s' =>
      if is_char "0" c then no_fraction (0, s')
      else if is_digit c then no_fraction (parse_digits s 0)
      else None
  | EmptyString => None
  end.

Definition parse_number (s : string) : option (Z * string) :=
  match s with
  | String c s' =>
      if is_char "-" c
      then option_map (fun r => (- fst r, snd r)) (parse_unsigned s')
      else parse_unsigned s
  | EmptyString => None
  end.

Definition hex_value (c : ascii) : option nat :=
  if is_digit c then Some (code c - 48)%nat
  else if in_range "a" "f" c then Some (code c - 87)%nat
  else if in_range "A" "F" c then Some (code c - 55)%nat
  else None.

Definition unescape (e : ascii) : option ascii :=
  if is_char dquote e then Some dquote
  else if is_char backslash e then Some backslash
  else if is_char "/" e then Some "/"%char
  else if is_char "b" e then Some (ascii_of_nat 8)
  else if is_char "f" e then Some (ascii_of_nat 12)
  else if is_char "n" e then Some (ascii_of_nat 10)
  else if is_char "r" e then Some (ascii_of_nat 13)
  else if is_char "t" e then Some (ascii_of_nat 9)
  else None.

(** The characters of a string literal after its opening quote. *)
Fixpoint parse_chars (s : string) : option (string * string) :=
  match s with
  | EmptyString => None
  | String c s' =>
      if is_char dquote c then Some (EmptyString, s')
      else if is_char backslash c then
        match s' with
        | String "u" (String a (String b (String h (String l s'')))) =>
            match hex_value a, hex_value b, hex_value h, hex_value l with
            | Some 0%nat, Some 0%nat, Some x, Some y =>
                option_map
                  (fun r => (String (ascii_of_nat (16 * x + y)) (fst r), snd r))
                  (parse_chars s'')
            | _, _, _, _ => None
            end
        | String e s'' =>
            match unescape e with
            | Some x =>
                option_map (fun r => (String x (fst r), snd r)) (parse_chars s'')
            | None => None
            end
        | EmptyString => None
        end
      else if (code c <? 32)%nat then None
      else option_map (fun r => (String c (fst r), snd r)) (parse_chars s')
  end.

Fixpoint parse_value (fuel : nat) (s : string) {struct fuel}
  : option (json * string) :=
  match fuel with
  | O => None
  | S fuel' =>
      match skip_ws s with
      | EmptyString => None
      | String c s' as s0 =>
          if is_char "n" c then option_map (pair JNull) (expect "null" s0)
          else if is_char "t" c
          then option_map (pair (JBool true)) (expect "true" s0)
          else if is_char "f" c
          then option_map (pair (JBool false)) (expect "false" s0)
          else if is_char dquote c
          then option_map (fun r => (JStr (fst r), snd r)) (parse_chars s')
          else if is_char "[" c then
            match skip_ws s' with
            | String "]" s'' => Some (JArr [], s'')
            | s1 => parse_elements fuel' s1 []
            end
          else if is_char "{" c then
            match skip_ws s' with
            | String "}" s'' => Some (JObj [], s'')
            | s1 => parse_members fuel' s1 []
            end
          else option_map (fun r => (JNum (fst r), snd r)) (parse_number s0)
      end
  end
with parse_elements (fuel : nat) (s : string) (acc : list json) {struct fuel}
  : option (json * string) :=
  match fuel with
  | O => None
  | S fuel' =>
      match parse_value fuel' s with
      | Some (v, s1) =>
          match skip_ws s1 with
          | String "," s2 => parse_elements fuel' s2 (acc ++ [v])
          | String "]" s2 => Some (JArr (acc ++ [v]), s2)
          | _ => None
          end
      | None => None
      end
  end
with parse_members (fuel : nat) (s : string) (acc : list (string * json))
    {struct fuel} : option (json * string) :=
  match fuel with
  | O => None
  | S fuel' =>
      match skip_ws s with
      | String c s1 =>
          if is_char dquote c then
            match parse_chars s1 with
            | Some (k, s2) =>
                match skip_ws s2 with
                | String ":" s3 =>
                    match parse_value fuel' s3 with
                    | Some (v, s4) =>
                        match skip_ws s4 with
                        | String "," s5 =>
                            parse_members fuel' s5 (set_field k v acc)
                        | String "}" s5 =>
                            Some (JObj (set_field k v acc), s5)
                        | _ => None
                        end
                    | None => None
                    end
                | _ => None
                end
            | None => None
            end
          else None
      | EmptyString => None
      end
  end.

Definition parse (s : string) : option json :=
  match parse_value (2 * String.length s + 2) s with
  | Some (v, rest) =>
      match skip_ws rest with
      | EmptyString => Some v
      | _ => None
      end
  | None => None
  end.

Definition hex_digit (n : nat) : ascii :=
  if (n <? 10)%nat then ascii_of_nat (48 + n) else ascii_of_nat (87 + n).

Definition escape_char (c : ascii) : string :=
  if is_char dquote c then String backslash (String dquote EmptyString)
  else if is_char backslash c then String backslash (String backslash EmptyString)
  else match code c with
       | 8%nat => String backslash "b"
       | 9%nat => String backslash "t"
       | 10%nat => String backslash "n"
       | 12%nat => String backslash "f"
       | 13%nat => String backslash "r"
       | n =>
           if (n <? 32)%nat
           then String backslash
                  ("u00" +:+ String (hex_digit (n / 16))
                                    (String (hex_digit (n mod 16)) EmptyString))
           else String c EmptyString
       end.

Fixpoint escape (s : string) : string :=
  match s with
  | EmptyString => EmptyString
  | String c s' => escape_char c +:+ escape s'
  end.

Definition quote (s : string) : string :=
  String dquote (escape s +:+ String dquote EmptyString).

(** [JSON.stringify(v)] with no indentation. *)
Fixpoint stringify (v : json) : string :=
  match v with
  | JNull => "null"
  | JBool true => "true"
  | JBool false => "false"
  | JNum n => string_of_Z n
  | JStr s => quote s
  | JArr items => "[" +:+ join "," (List.map stringify items) +:+ "]"
  | JObj entries =>
      "{" +:+
      join ","
        ((fix members (es : list (string * json)) : list string :=
            match es with
            | [] => []
            | (k, x) :: rest => (quote k +:+ ":" +:+ stringify x) :: members rest
            end) entries) +:+
      "}"
  end.

#[export] Instance js_host : JsHost :=
  {| JSON_parse := parse; JSON_stringify := stringify |}.

(** Test data is written with ['] for the double quote. *)
Definition dq (s : string) : string :=
  map_string (fun c => if is_char "'" c then dquote else c) s.

End Host.

(* ===================================================================== *)
(** * LLM client interface (agent/llmClient.ts)                          *)
(* ===================================================================== *)

Module LlmClient.
Import Js.

Record PropertySchema : Type := {
  p_type : string;
  p_description : option string;
  p_enum : option (list string);
}.

Record InputSchema : Type := {
  s_type : string;
  properties : option (list (string * PropertySchema));
  required : option (list string);
}.

Record ToolInfo : Type := {
  name : string;
  description : option string;
  inputSchema : InputSchema;
}.

Record ParameterSource : Type := {
  paramName : string;
  sourceTool : string;
  sourceField : string;
  ps_confidence : Q;
}.

Record DependencyAnalysis : Type := {
  tool : string;
  requiredParams : list string;
  canExecuteWithoutContext : bool;
  suggestedOrder : Z;
  dependencies : list ParameterSource;
}.

(** The object an LLM answers for a parameter extraction; any key may be
    missing.  A finite [number] compares with [0.5] as the rational it
    denotes, so [confidence] is a [Q]. *)
Record ExtractedParams : Type := {
  params : option (list (string * json));
  sources : option (list (string * string));
  confidence : option Q;
  missingParams : option (list string);
}.

Inductive LLMProvider : Type := claude | gemini | openai.

(** [tool.inputSchema?.required || []] *)
Definition requiredOf (t : ToolInfo) : list string :=
  default [] (required (inputSchema t)).

(** [parseJSONResponse]: [None] when [JSON.parse] throws. *)
Definition parseJSONResponse `{JsHost} (response : string) : option json :=
  let cleaned := trim response in
  let cleaned :=
    if startsWith cleaned "```json" then drop_string 7 cleaned
    else if startsWith cleaned "```" then drop_string 3 cleaned
    else cleaned in
  let cleaned :=
    if endsWith cleaned "```"
    then take_string (String.length cleaned - 3) cleaned
    else cleaned in
  JSON_parse (trim cleaned).

End LlmClient.

(* ===================================================================== *)
(** * Gemini client (agent/geminiClient.ts)                              *)
(* ===================================================================== *)

Module GeminiClient.
Import Js LlmClient UserProfiles.

(** What [selectNextTool] resolves to: a selection the client makes
    itself (its two guards and its fallback); the LLM's own object passed
    on; or the object the client builds from the first element of an array
    the LLM answered, [{ tool: parsed[0].tool, reason: parsed[0].reason }]
    ([None]: undefined). *)
Inductive Selection : Type :=
| Select (tool : option string) (reason : string)
| Forward (reply : list (string * json))
| FirstOf (tool : json) (reason : option json).

Section WithHost.
Context `{JsHost}.

(** [contextKeys.some(...)] for one required parameter. *)
Definition paramInContext (availableContext : list (string * json))
    (param : string) : bool :=
  existsb
    (fun kv =>
       let data := snd kv in
       if is_object data then
         let str := JSON_stringify data in
         includes str param || includes str "cloudId" || includes str "id"
       else false)
    availableContext.

(** Second loop of [fallbackToolSelection]. *)
Fixpoint firstWithParamsInContext (unexecutedTools : list ToolInfo)
    (availableContext : list (string * json)) : option ToolInfo :=
  match unexecutedTools with
  | [] => None
  | t :: rest =>
      if forallb (paramInContext availableContext) (requiredOf t)
      then Some t
      else firstWithParamsInContext rest availableContext
  end.

Definition fallbackToolSelection (unexecutedTools : list ToolInfo)
    (availableContext : list (string * json)) : Selection :=
  (* 1. First try tools with no required params *)
  match List.find (fun t => (length (requiredOf t) =? 0)%nat) unexecutedTools with
  | Some t => Select (Some (name t)) "Fallback: no parameters required"
  | None =>
      (* 2. Try tools that only need params we have in context *)
      match firstWithParamsInContext unexecutedTools availableContext with
      | Some t =>
          Select (Some (name t)) "Fallback: params likely available in context"
      | None => Select None "No suitable tool found in fallback"
      end
  end.

Definition unexecuted (availableTools : list ToolInfo)
    (executedTools : list string) : list ToolInfo :=
  List.filter
    (fun t => negb (existsb (String.eqb (name t)) executedTools))
    availableTools.

(** What the client does with the text the model answered. *)
Definition interpretReply (unexecutedTools : list ToolInfo)
    (availableContext : list (string * json)) (response : string)
  : Selection :=
  match parseJSONResponse response with
  | Some (JArr (JObj first :: _)) =>
      match get_field "tool" first with
      | Some t =>
          if truthy t then FirstOf t (get_field "reason" first)
          else fallbackToolSelection unexecutedTools availableContext
      | None => fallbackToolSelection unexecutedTools availableContext
      end
  | Some (JObj parsed) =>
      match get_field "tool" parsed with
      | Some t =>
          if truthy t then Forward parsed
          else fallbackToolSelection unexecutedTools availableContext
      | None => fallbackToolSelection unexecutedTools availableContext
      end
  | Some _ =>
      (* an array without a usable first element, a scalar, or [null]
         (whose property access throws into the catch) *)
      fallbackToolSelection unexecutedTools availableContext
  | None =>
      (* catch: the reply is not JSON *)
      fallbackToolSelection unexecutedTools availableContext
  end.

(** [selectNextTool]; [callGemini] is the outcome of the request, read
    only when the request is made. *)
Definition selectNextTool (availableTools : list ToolInfo)
    (executedTools : list string) (availableContext : list (string * json))
    (currentDepth maxDepth : Z) (callGemini : outcome string)
  : outcome Selection :=
  if maxDepth <=? currentDepth
  then Returns (Select None "Maximum depth reached")
  else
    let unexecutedTools := unexecuted availableTools executedTools in
    if (length unexecutedTools =? 0)%nat
    then Returns (Select None "All tools have been executed")
    else
      match callGemini with
      | Throws message => Throws message
      | Returns response =>
          Returns (interpretReply unexecutedTools availableContext response)
      end.

(** What [extractParameters] resolves to: the parsed reply as it is, or the
    object the client builds in its [catch]. *)
Inductive Extraction : Type :=
| Parsed (reply : json)
| Built (extraction : ExtractedParams).

Definition extractionFallback (targetTool : ToolInfo) : ExtractedParams :=
  {| params := Some [];
     sources := Some [];
     confidence := Some (0 : Q);
     missingParams := Some (requiredOf targetTool) |}.

(** The [try] block reads [extracted.params] for its log line: on a reply
    that parses to [null] the read throws, into the same [catch] as a reply
    that does not parse. *)
Definition extractParameters (targetTool : ToolInfo)
    (callGemini : outcome string) : outcome Extraction :=
  match callGemini with
  | Throws message => Throws message
  | Returns response =>
      match parseJSONResponse response with
      | Some JNull => Returns (Built (extractionFallback targetTool))
      | Some extracted => Returns (Parsed extracted)
      | None => Returns (Built (extractionFallback targetTool))
      end
  end.

End WithHost.

End GeminiClient.

(* ===================================================================== *)
(** * Claude client (agent/claudeClient.ts)                              *)
(* ===================================================================== *)

Module ClaudeClient.
Import Js LlmClient UserProfiles.

(** What a method of the client resolves to: the parsed reply as it is, or
    an object built by the client. *)
Inductive Reply (A : Type) : Type :=
| Parsed (reply : json)
| Built (a : A).
Arguments Parsed {A} reply.
Arguments Built {A} a.

Section WithHost.
Context `{JsHost}.

Definition extractParameters (targetTool : ToolInfo)
    (callClaude : outcome string) : outcome (Reply ExtractedParams) :=
  match callClaude with
  | Throws message => Throws message
  | Returns response =>
      match parseJSONResponse response with
      | Some parsed => Returns (Parsed parsed)
      | None =>
          Returns (Built {| params := Some [];
                            sources := Some [];
                            confidence := Some (0 : Q);
                            missingParams := Some (requiredOf targetTool) |})
      end
  end.

(** [selectNextTool]: the built object is [(tool, reason)]. *)
Definition selectNextTool (availableTools : list ToolInfo)
    (executedTools : list string) (currentDepth maxDepth : Z)
    (callClaude : outcome string)
  : outcome (Reply (option string * string)) :=
  if maxDepth <=? currentDepth
  then Returns (Built (None, "Maximum depth reached"))
  else
    let unexecutedTools :=
      List.filter
        (fun t => negb (existsb (String.eqb (name t)) executedTools))
        availableTools in
    if (length unexecutedTools =? 0)%nat
    then Returns (Built (None, "All tools have been executed"))
    else
      match callClaude with
      | Throws message => Throws message
      | Returns response =>
          match parseJSONResponse response with
          | Some parsed => Returns (Parsed parsed)
          | None =>
              (* Fallback: pick first tool that has no required params *)
              match List.find (fun t => (length (requiredOf t) =? 0)%nat)
                              unexecutedTools with
              | Some t => Returns (Built (Some (name t), "No parameters required"))
              | None => Returns (Built (None, "No suitable tool found"))
              end
          end
      end.

End WithHost.

End ClaudeClient.

(* ===================================================================== *)
(** * Resource graph (agent/resourceGraph.ts)                            *)
(* ===================================================================== *)

Module ResourceGraph.
Import Js.

Inductive NodeType : Type := tool | resource.

Inductive Status : Type := pending | running | completed | failed | skipped.

Record ResourceNode : Type := {
  id : string;
  type : NodeType;
  name : string;
  data : list (string * json);
  timestamp : Z;
  status : Status;
}.

Record ResourceEdge : Type := {
  e_id : string;
  source : string;
  target : string;
  relation : string;
  paramName : string;
}.

Record VisualizationData : Type := {
  v_nodes : list ResourceNode;
  v_edges : list ResourceEdge;
}.

(** The three fields of the class; both [Map]s keep insertion order. *)
Record ResourceGraph : Type := {
  nodes : list (string * ResourceNode);
  edges : list ResourceEdge;
  toolResults : list (string * list (string * json));
}.

Definition empty : ResourceGraph :=
  {| nodes := []; edges := []; toolResults := [] |}.

Definition with_nodes (g : ResourceGraph) (ns : list (string * ResourceNode))
  : ResourceGraph :=
  {| nodes := ns; edges := edges g; toolResults := toolResults g |}.

Definition with_edges (g : ResourceGraph) (es : list ResourceEdge)
  : ResourceGraph :=
  {| nodes := nodes g; edges := es; toolResults := toolResults g |}.

(** [node.status = s; node.data = { ...node.data, k1: v1, ... }] on the node
    [nodeId], when there is one. *)
Definition updateNode (nodeId : string) (s : Status)
    (extra : list (string * json)) (g : ResourceGraph) : ResourceGraph :=
  match get_field nodeId (nodes g) with
  | Some node =>
      with_nodes g
        (set_field nodeId
           {| id := id node; type := type node; name := name node;
              data := assign (data node) extra;
              timestamp := timestamp node; status := s |}
           (nodes g))
  | None => g
  end.

Definition toolNodeId (toolName : string) (now : Z) : string :=
  "tool_" +:+ toolName +:+ "_" +:+ string_of_Z now.

Definition addPendingTool (now : Z) (toolName : string) (g : ResourceGraph)
  : string * ResourceGraph :=
  let nodeId := toolNodeId toolName now in
  (nodeId,
   with_nodes g
     (set_field nodeId
        {| id := nodeId; type := tool; name := toolName; data := [];
           timestamp := now; status := pending |}
        (nodes g))).

Definition markToolRunning (nodeId : string) (params : list (string * json))
    (g : ResourceGraph) : ResourceGraph :=
  updateNode nodeId running [("params", JObj params)] g.

Definition markToolFailed (nodeId : string) (error : string)
    (g : ResourceGraph) : ResourceGraph :=
  updateNode nodeId failed [("error", JStr error)] g.

Definition markToolSkipped (nodeId : string) (reason : string)
    (missingParams : list string) (g : ResourceGraph) : ResourceGraph :=
  updateNode nodeId skipped
    [("skipReason", JStr reason);
     ("missingParams", JArr (List.map JStr missingParams))] g.

(** [value.trim().split(/\s+/).length] *)
Fixpoint countWords (inWord : bool) (s : string) : nat :=
  match s with
  | EmptyString => O
  | String c s' =>
      if is_space c then countWords false s'
      else if inWord then countWords true s'
      else S (countWords true s')
  end.

Definition wordCount (value : string) : nat :=
  Nat.max 1 (countWords false value).

Fixpoint sanitizeForLLM (value : json) : json :=
  match value with
  | JStr s =>
      if (100 <? wordCount s)%nat then JStr "[REDACTED - long content]"
      else value
  | JArr items =>
      JArr ((fix each (items : list json) (n : nat) : list json :=
               match n, items with
               | S n', item :: rest => sanitizeForLLM item :: each rest n'
               | _, _ => []
               end) items 10%nat)
  | JObj entries =>
      JObj ((fix each (es : list (string * json))
                 (sanitized : list (string * json)) : list (string * json) :=
               match es with
               | [] => sanitized
               | (key, val) :: rest =>
                   each rest (store key (sanitizeForLLM val) sanitized)
               end) entries [])
  | _ => value
  end.

(** [getAvailableContext]: [context[toolName] = ...] for each entry of the
    [Map] [toolResults], in its order. *)
Definition getAvailableContext (g : ResourceGraph) : list (string * json) :=
  fold_left
    (fun context tr => store (fst tr) (sanitizeForLLM (JObj (snd tr))) context)
    (toolResults g) [].

(** The loop of [getToolNodeId]: the first node with the greatest timestamp. *)
Fixpoint latestToolNode (toolName : string) (ns : list (string * ResourceNode))
    (latestNode : option ResourceNode) : option ResourceNode :=
  match ns with
  | [] => latestNode
  | (_, node) :: rest =>
      latestToolNode toolName rest
        match type node with
        | tool =>
            if String.eqb (name node) toolName then
              match latestNode with
              | None => Some node
              | Some l =>
                  if timestamp l <? timestamp node then Some node
                  else latestNode
              end
            else latestNode
        | resource => latestNode
        end
  end.

Definition getToolNodeId (toolName : string) (g : ResourceGraph)
  : option string :=
  option_map id (latestToolNode toolName (nodes g) None).

Definition toVisualizationFormat (g : ResourceGraph) : VisualizationData :=
  {| v_nodes := List.map snd (nodes g); v_edges := edges g |}.

Definition clear (g : ResourceGraph) : ResourceGraph := empty.

(** ** Flattening a tool result *)

(** Size of a value.  [JSON.parse] answers a value no larger than its
    text, so texts nested in texts go no deeper than the weight of the
    value they sit in. *)
Fixpoint weight (v : json) : nat :=
  match v with
  | JStr s => S (String.length s)
  | JArr items => S (list_sum (List.map weight items))
  | JObj entries =>
      S ((fix sum (es : list (string * json)) : nat :=
            match es with
            | [] => O
            | (k, x) :: rest => (String.length k + weight x + sum rest)%nat
            end) entries)
  | _ => 1%nat
  end.

Section WithHost.
Context `{JsHost}.

(** [prefix ? `${prefix}.${key}` : key] *)
Definition dotted (prefix key : string) : string :=
  if String.eqb prefix "" then key else prefix +:+ "." +:+ key.

(** The object [flat] while [flattenResult] fills it: whether it has lost
    its prototype, and its own entries.  [flat] starts with the prototype
    [Object.prototype]. *)
Definition Flat : Type := bool * list (string * json).

(** [flat[key] = value].  Under the key ["__proto__"], while [flat] has its
    prototype, the assignment runs the inherited setter: [null] removes the
    prototype, a value that is not an object is ignored (an object would
    become the prototype; [flattenResult] assigns none under this key).
    Once the prototype is removed ["__proto__"] is a key as any other. *)
Definition put (key : string) (value : json) (flat : Flat) : Flat :=
  let '(bare, entries) := flat in
  if String.eqb key "__proto__" && negb bare then
    match value with
    | JNull => (true, entries)
    | _ => flat
    end
  else (bare, define key value entries).

(** [Object.assign(flat, source)] for the own entries of [source]. *)
Definition putAll (flat : Flat) (source : list (string * json)) : Flat :=
  fold_left (fun flat kv => put (fst kv) (snd kv) flat) source flat.

(** [flattenResult(result, prefix)]: the own entries of the object it
    answers, with [fuel] bounding the recursion through parsed texts.  In
    [JSON.parse(item.text)] a text that [String] cannot convert throws into
    the [catch], as one that does not parse. *)
Fixpoint flattenFuel (fuel : nat) : json -> string -> list (string * json) :=
  fix flatten (result : json) (prefix : string) {struct result}
    : list (string * json) :=
    match result with
    | JObj fields =>
        match get_field "content" fields with
        | Some (JArr content) =>
            (* Handle MCP content array format *)
            match fuel with
            | O => []
            | S fuel' =>
                snd (fold_left
                  (fun flat item =>
                     match item with
                     | JObj itemFields =>
                         match get_field "text" itemFields with
                         | Some text =>
                             match String_ text ≫= JSON_parse with
                             | Some parsed =>
                                 putAll flat (flattenFuel fuel' parsed prefix)
                             | None => flat        (* Not JSON, skip *)
                             end
                         | None => flat
                         end
                     | _ => flat
                     end)
                  content (false, []))
            end
        | _ =>
            snd (fold_left
              (fun flat entry =>
                 let newPrefix := dotted prefix (fst entry) in
                 if is_object (snd entry)
                 then putAll flat (flatten (snd entry) newPrefix)
                 else
                   (* Use just the key for easy matching; also store full path *)
                   put newPrefix (snd entry)
                       (put (fst entry) (snd entry) flat))
              fields (false, []))
        end
    | JArr items =>
        match items with
        | [] => []
        | first :: _ =>
            snd (put (prefix +:+ "_array") result
                     (putAll (false, []) (flatten first prefix)))
        end
    | _ => []
    end.

Definition flattenResult (result : json) : list (string * json) :=
  flattenFuel (S (weight result)) result "".

(** ** Resource extraction *)

Definition isIdFieldName (key : string) : bool :=
  let lowerKey := toLowerCase key in
  if endsWith lowerKey "id" then true
  else if endsWith lowerKey "key" && negb (includes lowerKey "api")
          && negb (includes lowerKey "secret") then true
  else existsb (String.eqb lowerKey)
         ["uuid"; "slug"; "name"; "code"; "handle"; "identifier"].

Definition isIdLikeValue (value : json) : option string :=
  match value with
  | JStr s =>
      if (String.length s =? 0)%nat || (100 <? String.length s)%nat then None
      else if includes s "  " || (3 <? length (split " " s))%nat then None
      else if startsWith s "http://" || startsWith s "https://" then None
      else Some s
  | _ => None
  end.

Definition discover (now : Z) (parentNodeId key value path : string)
    (g : ResourceGraph) : ResourceGraph :=
  let resourceId := "resource_" +:+ key +:+ "_" +:+ value in
  let g1 :=
    match get_field resourceId (nodes g) with
    | Some _ => g
    | None =>
        with_nodes g
          (set_field resourceId
             {| id := resourceId; type := resource;
                name := key +:+ ": " +:+ value;
                data := [("fieldName", JStr key); ("value", JStr value);
                         ("path", JStr (path +:+ "." +:+ key))];
                timestamp := now; status := completed |}
             (nodes g))
    end in
  (* Link resource to parent tool *)
  with_edges g1
    (edges g1 ++
     [ {| e_id := "edge_" +:+ parentNodeId +:+ "_" +:+ resourceId;
          source := parentNodeId; target := resourceId;
          relation := "discovered"; paramName := key |} ]).

Fixpoint extractFromObject (now : Z) (parentNodeId : string) (obj : json)
    (path : string) (g : ResourceGraph) {struct obj} : ResourceGraph :=
  match obj with
  | JArr items =>
      (* Limit array traversal to first 10 items to avoid explosion *)
      (fix forEach (items : list json) (i : nat) (g : ResourceGraph)
           {struct items} : ResourceGraph :=
         match items with
         | [] => g
         | item :: rest =>
             if (i <? 10)%nat then
               forEach rest (S i)
                 (extractFromObject now parentNodeId item
                    (path +:+ "[" +:+ string_of_nat i +:+ "]") g)
             else g
         end) items O g
  | JObj fields =>
      (fix entries (es : list (string * json)) (g : ResourceGraph)
           {struct es} : ResourceGraph :=
         match es with
         | [] => g
         | (key, value) :: rest =>
             entries rest
               match (if isIdFieldName key then isIdLikeValue value
                      else None) with
               | Some v => discover now parentNodeId key v path g
               | None =>
                   if is_object value
                   then extractFromObject now parentNodeId value
                          (path +:+ "." +:+ key) g
                   else g
               end
         end) fields g
  | _ => g
  end.

Definition extractResources (now : Z) (parentNodeId : string) (result : json)
    (g : ResourceGraph) : ResourceGraph :=
  match result with
  | JObj fields =>
      match get_field "content" fields with
      | Some (JArr content) =>
          fold_left
            (fun g item =>
               match item with
               | JObj itemFields =>
                   match get_field "text" itemFields with
                   | Some text =>
                       match String_ text ≫= JSON_parse with
                       | Some parsed =>
                           extractFromObject now parentNodeId parsed "result" g
                       | None => g
                       end
                   | None => g
                   end
               | _ => g
               end)
            content g
      | _ => extractFromObject now parentNodeId result "result" g
      end
  | _ => extractFromObject now parentNodeId result "result" g
  end.

Definition recordToolExecution (now : Z) (nodeId : string) (result : json)
    (paramSources : list (string * string)) (g : ResourceGraph)
  : ResourceGraph :=
  match get_field nodeId (nodes g) with
  | None => g
  | Some node =>
      let g1 := updateNode nodeId completed [("result", result)] g in
      (* Store result for context building *)
      let g2 :=
        {| nodes := nodes g1; edges := edges g1;
           toolResults :=
             set_field (name node) (flattenResult result) (toolResults g1) |} in
      (* Create edges from source tools to this tool *)
      let g3 :=
        fold_left
          (fun g ps =>
             let '(paramName, sourceNodeId) := ps in
             if negb (String.eqb sourceNodeId "")
                && bool_decide (is_Some (get_field sourceNodeId (nodes g)))
             then
               with_edges g
                 (edges g ++
                  [ {| e_id := "edge_" +:+ sourceNodeId +:+ "_" +:+ nodeId
                                +:+ "_" +:+ paramName;
                       source := sourceNodeId; target := nodeId;
                       relation := "provided_" +:+ paramName;
                       paramName := paramName |} ])
             else g)
          paramSources g2 in
      extractResources now nodeId result g3
  end.

End WithHost.

End ResourceGraph.

(* ===================================================================== *)
(** * Agent orchestrator (agent/agentOrchestrator.ts)                    *)
(* ===================================================================== *)

(** [runExecutionLoop] is an [async] function: it runs until its next
    [await], and other calls ([stop], [pause], [configure], ...) run while
    it is suspended.  A suspended loop is an [Await]; the code between two
    [await]s is a function from the awaited answer to the next [Await].
    The LLM client is the interface [ILLMClient]: its answers, and those of
    [listToolsFn] and [toolCallFn], are inputs. *)

Module AgentOrchestrator.
Import Js LlmClient.
Import UserProfiles (outcome, Returns, Throws).

Inductive AgentStatus : Type := idle | running | paused | completed | error.

Record FlaggedTool : Type := {
  f_toolName : string;
  f_missingParams : list string;
  f_reason : string;
  f_nodeId : string;
}.

Record ExecutionStep : Type := {
  toolName : string;
  nodeId : string;
  parameters : list (string * json);
  parameterSources : list (string * string);
  stepStatus : ResourceGraph.Status;
  result : option json;
  stepError : option string;
  timestamp : Z;
  depth : Z;
}.

Record AgentState : Type := {
  status : AgentStatus;
  toolsDiscovered : list ToolInfo;
  dependencyAnalysis : list DependencyAnalysis;
  executionHistory : list ExecutionStep;
  currentStep : Z;
  currentDepth : Z;
  maxDepth : Z;
  flaggedTools : list FlaggedTool;
  resourceGraph : ResourceGraph.VisualizationData;
  startTime : option Z;
  endTime : option Z;
  stateError : option string;      (* [state.error] *)
}.

(** [AgentEvent.data], one constructor per [emitEvent] call of the file. *)
Inductive EventData : Type :=
| status_change (s : AgentStatus)
| analysis_complete (tools : nat) (analysis : list DependencyAnalysis)
| tool_skipped_missing (tool : string) (missingParams : list string)
| tool_skipped_reason (tool : string) (reason : string)
| tool_start (tool : string) (params : list (string * json)) (depth : Z)
| tool_complete (tool : string) (result : json) (depth : Z)
| tool_failed (tool : string) (error : string)
| agent_complete (totalTools flagged : nat) (duration : Z)
| error_event (error : string).

Record AgentEvent : Type := {
  ev_data : EventData;
  ev_timestamp : Z;
}.

Definition ev_type (e : AgentEvent) : string :=
  match ev_data e with
  | status_change _ => "status_change"
  | analysis_complete _ _ => "analysis_complete"
  | tool_skipped_missing _ _ | tool_skipped_reason _ _ => "tool_skipped"
  | tool_start _ _ _ => "tool_start"
  | tool_complete _ _ _ => "tool_complete"
  | tool_failed _ _ => "tool_failed"
  | agent_complete _ _ _ => "agent_complete"
  | error_event _ => "error"
  end.

(** The calls the orchestrator makes on its collaborators. *)
Inductive Call : Type :=
| call_listTools
| call_analyzeToolDependencies (tools : list ToolInfo)
| call_selectNextTool (tools : list ToolInfo) (executedTools : list string)
    (context : list (string * json)) (currentDepth maxDepth : Z)
| call_extractParameters (toolInfo : ToolInfo) (context : list (string * json))
| call_toolCallFn (name : string) (params : list (string * json)).

(** The fields of the class.  [stateId] names the object [this.state]
    points to ([start] allocates a new one); [errorListener] tells whether
    the emitter has a listener for ["error"] (the class inherits [on] and
    [off] from [EventEmitter]); [emitted] and [calls] record, in order,
    the events emitted and the calls made. *)
Record AgentOrchestrator : Type := {
  configured : bool;
  provider : LLMProvider;
  graph : ResourceGraph.ResourceGraph;
  state : AgentState;
  stateId : nat;
  abortController : option bool;          (* [Some aborted] *)
  errorListener : bool;                   (* [listenerCount("error") > 0] *)
  emitted : list AgentEvent;
  calls : list Call;
}.

Definition createInitialState : AgentState :=
  {| status := idle;
     toolsDiscovered := [];
     dependencyAnalysis := [];
     executionHistory := [];
     currentStep := 0;
     currentDepth := 0;
     maxDepth := 10;
     flaggedTools := [];
     resourceGraph := {| ResourceGraph.v_nodes := []; ResourceGraph.v_edges := [] |};
     startTime := None;
     endTime := None;
     stateError := None |}.

Definition constructor : AgentOrchestrator :=
  {| configured := false;
     provider := gemini;
     graph := ResourceGraph.empty;
     state := createInitialState;
     stateId := O;
     abortController := None;
     errorListener := false;
     emitted := [];
     calls := [] |}.

(** Field updates. *)
Definition with_state (o : AgentOrchestrator) (s : AgentState)
  : AgentOrchestrator :=
  {| configured := configured o; provider := provider o; graph := graph o;
     state := s; stateId := stateId o; abortController := abortController o;
     errorListener := errorListener o;
     emitted := emitted o; calls := calls o |}.

Definition with_graph (o : AgentOrchestrator) (g : ResourceGraph.ResourceGraph)
  : AgentOrchestrator :=
  {| configured := configured o; provider := provider o; graph := g;
     state := state o; stateId := stateId o;
     abortController := abortController o;
     errorListener := errorListener o;
     emitted := emitted o; calls := calls o |}.

(** [emitEvent]: the event is handed to the listeners of ["event"], then
    to those of its type; a listener is taken to return, and to leave the
    orchestrator alone.  For the type ["error"] with no listener the second
    [emit] throws: [emitThrows]. *)
Definition emitEvent (now : Z) (d : EventData) (o : AgentOrchestrator)
  : AgentOrchestrator :=
  {| configured := configured o; provider := provider o; graph := graph o;
     state := state o; stateId := stateId o;
     abortController := abortController o;
     errorListener := errorListener o;
     emitted := emitted o ++ [ {| ev_data := d; ev_timestamp := now |} ];
     calls := calls o |}.

(** [orchestrator.on("error", listener)], which the class inherits from
    [EventEmitter]. *)
Definition on_error (o : AgentOrchestrator) : AgentOrchestrator :=
  {| configured := configured o; provider := provider o; graph := graph o;
     state := state o; stateId := stateId o;
     abortController := abortController o;
     errorListener := true;
     emitted := emitted o; calls := calls o |}.

(** Whether [this.emit(type, event)] throws: an ["error"] event that no
    listener handles ([EventEmitter] then throws its "Unhandled error"). *)
Definition emitThrows (d : EventData) (o : AgentOrchestrator) : bool :=
  match d with
  | error_event _ => negb (errorListener o)
  | _ => false
  end.

Definition call (c : Call) (o : AgentOrchestrator) : AgentOrchestrator :=
  {| configured := configured o; provider := provider o; graph := graph o;
     state := state o; stateId := stateId o;
     abortController := abortController o;
     errorListener := errorListener o;
     emitted := emitted o; calls := calls o ++ [c] |}.

Definition set_status (s : AgentStatus) (st : AgentState) : AgentState :=
  {| status := s; toolsDiscovered := toolsDiscovered st;
     dependencyAnalysis := dependencyAnalysis st;
     executionHistory := executionHistory st; currentStep := currentStep st;
     currentDepth := currentDepth st; maxDepth := maxDepth st;
     flaggedTools := flaggedTools st; resourceGraph := resourceGraph st;
     startTime := startTime st; endTime := endTime st; stateError := stateError st |}.

Definition set_endTime (t : Z) (st : AgentState) : AgentState :=
  {| status := status st; toolsDiscovered := toolsDiscovered st;
     dependencyAnalysis := dependencyAnalysis st;
     executionHistory := executionHistory st; currentStep := currentStep st;
     currentDepth := currentDepth st; maxDepth := maxDepth st;
     flaggedTools := flaggedTools st; resourceGraph := resourceGraph st;
     startTime := startTime st; endTime := Some t; stateError := stateError st |}.

Definition set_maxDepth (d : Z) (st : AgentState) : AgentState :=
  {| status := status st; toolsDiscovered := toolsDiscovered st;
     dependencyAnalysis := dependencyAnalysis st;
     executionHistory := executionHistory st; currentStep := currentStep st;
     currentDepth := currentDepth st; maxDepth := d;
     flaggedTools := flaggedTools st; resourceGraph := resourceGraph st;
     startTime := startTime st; endTime := endTime st; stateError := stateError st |}.

Definition set_resourceGraph (v : ResourceGraph.VisualizationData)
    (st : AgentState) : AgentState :=
  {| status := status st; toolsDiscovered := toolsDiscovered st;
     dependencyAnalysis := dependencyAnalysis st;
     executionHistory := executionHistory st; currentStep := currentStep st;
     currentDepth := currentDepth st; maxDepth := maxDepth st;
     flaggedTools := flaggedTools st; resourceGraph := v;
     startTime := startTime st; endTime := endTime st; stateError := stateError st |}.

Definition push_flagged (f : FlaggedTool) (st : AgentState) : AgentState :=
  {| status := status st; toolsDiscovered := toolsDiscovered st;
     dependencyAnalysis := dependencyAnalysis st;
     executionHistory := executionHistory st; currentStep := currentStep st;
     currentDepth := currentDepth st; maxDepth := maxDepth st;
     flaggedTools := flaggedTools st ++ [f]; resourceGraph := resourceGraph st;
     startTime := startTime st; endTime := endTime st; stateError := stateError st |}.

Definition with_history (h : list ExecutionStep) (st : AgentState)
  : AgentState :=
  {| status := status st; toolsDiscovered := toolsDiscovered st;
     dependencyAnalysis := dependencyAnalysis st;
     executionHistory := h; currentStep := currentStep st;
     currentDepth := currentDepth st; maxDepth := maxDepth st;
     flaggedTools := flaggedTools st; resourceGraph := resourceGraph st;
     startTime := startTime st; endTime := endTime st;
     stateError := stateError st |}.

(** ** Control methods *)

Definition configure (newProvider : option LLMProvider)
    (newMaxDepth : option Z) (o : AgentOrchestrator) : AgentOrchestrator :=
  {| configured := true;
     provider := default gemini newProvider;
     graph := graph o;
     state :=
       match newMaxDepth with
       | Some d => if d =? 0 then state o else set_maxDepth d (state o)
       | None => state o
       end;
     stateId := stateId o;
     abortController := abortController o;
     errorListener := errorListener o;
     emitted := emitted o;
     calls := calls o |}.

Definition getState (o : AgentOrchestrator) : AgentState :=
  set_resourceGraph (ResourceGraph.toVisualizationFormat (graph o)) (state o).

Definition pause (now : Z) (o : AgentOrchestrator) : AgentOrchestrator :=
  match status (state o) with
  | running =>
      emitEvent now (status_change paused)
        (with_state o (set_status paused (state o)))
  | _ => o
  end.

Definition stop (now : Z) (o : AgentOrchestrator) : AgentOrchestrator :=
  let o1 :=
    {| configured := configured o; provider := provider o; graph := graph o;
       state := set_endTime now (set_status idle (state o));
       stateId := stateId o;
       abortController := option_map (fun _ => true) (abortController o);
       errorListener := errorListener o;
       emitted := emitted o; calls := calls o |} in
  emitEvent now (status_change idle) o1.

(** ** The execution loop *)

(** The local variables of [runExecutionLoop]. *)
Record Locals : Type := {
  tools : list ToolInfo;
  executedTools : list string;
  toolDepths : gmap string Z;
}.

(** Who awaits the loop: [start] (inside its [try]) or [resume]. *)
Inductive Origin : Type := from_start | from_resume.

(** The [await] a loop is suspended at, with the variables in scope. *)
Inductive Await : Type :=
| await_listTools
| await_analyzeToolDependencies (tools : list ToolInfo)
| await_selectNextTool (l : Locals) (context : list (string * json))
| await_extractParameters (l : Locals) (context : list (string * json))
    (toolInfo : ToolInfo) (nodeId : string)
| await_toolCallFn (l : Locals) (toolInfo : ToolInfo) (nodeId : string)
    (paramSources : list (string * string)) (toolDepth : Z)
    (stepState stepIndex : nat).

(** How the code run so far has left the loop: suspended at an [await];
    finished, the caller's promise resolved; or thrown out, the caller's
    promise rejected, with the message of an awaited call that rejected or
    with the "Unhandled error" of [EventEmitter] for an event. *)
Inductive Next : Type :=
| Suspended (a : Await)
| Finished
| Thrown (message : string)
| Unhandled (event : AgentEvent).

Definition runExecutionLoop (o : AgentOrchestrator)
  : AgentOrchestrator * Next :=
  (call call_listTools o, Suspended await_listTools).

(** The code after the [while]: "Execution complete". *)
Definition finish (now : Z) (l : Locals) (o : AgentOrchestrator)
  : AgentOrchestrator * Next :=
  let st := set_resourceGraph (ResourceGraph.toVisualizationFormat (graph o))
              (set_endTime now (set_status completed (state o))) in
  (emitEvent now
     (agent_complete (length (executedTools l)) (length (flaggedTools st))
                     (now - default 0 (startTime st)))
     (with_state o st),
   Finished).

(** The head of the [while] up to the [await] of [selectNextTool]. *)
Definition loopHead (now : Z) (l : Locals) (o : AgentOrchestrator)
  : AgentOrchestrator * Next :=
  match status (state o) with
  | running =>
      match abortController o with
      | Some true => finish now l o
      | _ =>
          let context := ResourceGraph.getAvailableContext (graph o) in
          (call (call_selectNextTool (tools l) (executedTools l) context
                   (currentDepth (state o)) (maxDepth (state o))) o,
           Suspended (await_selectNextTool l context))
      end
  | _ => finish now l o
  end.

(** An awaited promise rejects outside the loop's own [try]: the [catch]
    of [start], whose [emitEvent] throws when no listener handles
    ["error"]; [resume] has no [catch]. *)
Definition throwOut (origin : Origin) (now : Z) (message : string)
    (o : AgentOrchestrator) : AgentOrchestrator * Next :=
  match origin with
  | from_start =>
      let st := state o in
      (emitEvent now (error_event message)
         (with_state o
            {| status := error; toolsDiscovered := toolsDiscovered st;
               dependencyAnalysis := dependencyAnalysis st;
               executionHistory := executionHistory st;
               currentStep := currentStep st; currentDepth := currentDepth st;
               maxDepth := maxDepth st; flaggedTools := flaggedTools st;
               resourceGraph := resourceGraph st; startTime := startTime st;
               endTime := endTime st; stateError := Some message |}),
       if emitThrows (error_event message) o
       then Unhandled {| ev_data := error_event message; ev_timestamp := now |}
       else Finished)
  | from_resume => (o, Thrown message)
  end.

Definition start (now : Z) (o : AgentOrchestrator)
  : outcome (AgentOrchestrator * Next) :=
  if negb (configured o)
  then Throws "Agent not configured. Call configure() first."
  else
    match status (state o) with
    | running => Throws "Agent is already running"
    | _ =>
        let st := createInitialState in
        let o1 :=
          {| configured := configured o; provider := provider o;
             graph := ResourceGraph.clear (graph o);
             state :=
               {| status := running; toolsDiscovered := toolsDiscovered st;
                  dependencyAnalysis := dependencyAnalysis st;
                  executionHistory := executionHistory st;
                  currentStep := currentStep st;
                  currentDepth := currentDepth st; maxDepth := maxDepth st;
                  flaggedTools := flaggedTools st;
                  resourceGraph := resourceGraph st; startTime := Some now;
                  endTime := endTime st; stateError := stateError st |};
             stateId := S (stateId o);
             abortController := Some false;
             errorListener := errorListener o;
             emitted := emitted o; calls := calls o |} in
        Returns (runExecutionLoop (emitEvent now (status_change running) o1))
    end.

Definition resume (now : Z) (o : AgentOrchestrator)
  : AgentOrchestrator * option Next :=
  match status (state o) with
  | paused =>
      let '(o', n) :=
        runExecutionLoop
          (emitEvent now (status_change running)
             (with_state o (set_status running (state o)))) in
      (o', Some n)
  | _ => (o, None)
  end.

Definition afterListTools (origin : Origin) (now : Z)
    (answer : outcome (list ToolInfo)) (o : AgentOrchestrator)
  : AgentOrchestrator * Next :=
  match answer with
  | Throws message => throwOut origin now message o
  | Returns tools =>
      let st := state o in
      (call (call_analyzeToolDependencies tools)
         (with_state o
            {| status := status st; toolsDiscovered := tools;
               dependencyAnalysis := dependencyAnalysis st;
               executionHistory := executionHistory st;
               currentStep := currentStep st; currentDepth := currentDepth st;
               maxDepth := maxDepth st; flaggedTools := flaggedTools st;
               resourceGraph := resourceGraph st; startTime := startTime st;
               endTime := endTime st; stateError := stateError st |}),
       Suspended (await_analyzeToolDependencies tools))
  end.

Definition afterAnalyze (origin : Origin) (now : Z) (tools : list ToolInfo)
    (answer : outcome (list DependencyAnalysis)) (o : AgentOrchestrator)
  : AgentOrchestrator * Next :=
  match answer with
  | Throws message => throwOut origin now message o
  | Returns analysis =>
      let st := state o in
      let o1 :=
        with_state o
          {| status := status st; toolsDiscovered := toolsDiscovered st;
             dependencyAnalysis := analysis;
             executionHistory := executionHistory st;
             currentStep := currentStep st; currentDepth := currentDepth st;
             maxDepth := maxDepth st; flaggedTools := flaggedTools st;
             resourceGraph := resourceGraph st; startTime := startTime st;
             endTime := endTime st; stateError := stateError st |} in
      loopHead now
        {| tools := tools; executedTools := []; toolDepths := ∅ |}
        (emitEvent now (analysis_complete (length tools) analysis) o1)
  end.

(** From the answer of [selectNextTool] to the [await] of
    [extractParameters]. *)
Definition afterSelect (origin : Origin) (now : Z) (l : Locals)
    (context : list (string * json))
    (answer : outcome (option string * string)) (o : AgentOrchestrator)
  : AgentOrchestrator * Next :=
  match answer with
  | Throws message => throwOut origin now message o
  | Returns (None, _) => finish now l o       (* No more tools to execute *)
  | Returns (Some nextTool, _) =>
      if String.eqb nextTool "" then finish now l o
      else if existsb (String.eqb nextTool) (executedTools l)
      then loopHead now l o                   (* already executed, skipping *)
      else
        let l' := {| tools := tools l;
                     executedTools := executedTools l ++ [nextTool];
                     toolDepths := toolDepths l |} in
        match List.find (fun t => String.eqb (name t) nextTool) (tools l) with
        | None => loopHead now l' o
        | Some toolInfo =>
            let '(nodeId, g) :=
              ResourceGraph.addPendingTool now (name toolInfo) (graph o) in
            (call (call_extractParameters toolInfo context) (with_graph o g),
             Suspended (await_extractParameters l' context toolInfo nodeId))
        end
  end.

(** [confidence < 0.5] *)
Definition Qlt_bool (x y : Q) : bool := negb (Qle_bool y x).

(** [String(source).split(".")[0]] *)
Definition sourceToolOf (source : string) : string :=
  List.hd EmptyString (split "." source).

(** The loop over [Object.entries(extractedSources)]: the final
    [maxSourceDepth] and [paramSources] ([paramSources[param] = ...] is an
    assignment to a plain object). *)
Definition resolveSources (g : ResourceGraph.ResourceGraph)
    (toolDepths : gmap string Z) (extractedSources : list (string * string))
  : Z * list (string * string) :=
  fold_left
    (fun acc ps =>
       let '(maxSourceDepth, paramSources) := acc in
       let '(param, source) := ps in
       let sourceTool := sourceToolOf source in
       let paramSources :=
         match ResourceGraph.getToolNodeId sourceTool g with
         | Some sourceNodeId => store param sourceNodeId paramSources
         | None => paramSources
         end in
       (* Track the max depth of source tools *)
       let sourceDepth := default 0 (toolDepths !! sourceTool) in
       (Z.max maxSourceDepth sourceDepth, paramSources))
    extractedSources (0, []).

(** How an iteration leaves the code between the answer of
    [extractParameters] and the call of the tool. *)
Inductive Decision : Type :=
| skip                                          (* [continue] *)
| invoke (extractedParams : list (string * json))
         (paramSources : list (string * string)) (toolDepth : Z)
         (stepIndex : nat).

Definition processExtraction (now : Z) (l : Locals) (toolInfo : ToolInfo)
    (nodeId : string) (extraction : option ExtractedParams)
    (o : AgentOrchestrator) : AgentOrchestrator * Locals * Decision :=
  (* Ensure extraction has valid properties *)
  let missing := default [] (extraction ≫= missingParams) in
  let extractedParams := default [] (extraction ≫= params) in
  let extractedSources := default [] (extraction ≫= sources) in
  let conf := default (0 : Q) (extraction ≫= confidence) in
  if (0 <? length missing)%nat && Qlt_bool conf (1 # 2) then
    (* Flag this tool - can't resolve params *)
    let o1 :=
      with_state o
        (push_flagged
           {| f_toolName := name toolInfo; f_missingParams := missing;
              f_reason :=
                "Could not resolve required parameters from available context";
              f_nodeId := nodeId |}
           (state o)) in
    let o2 :=
      with_graph o1
        (ResourceGraph.markToolSkipped nodeId "Missing parameters" missing
           (graph o1)) in
    (emitEvent now (tool_skipped_missing (name toolInfo) missing) o2, l, skip)
  else
    (* Depth = 1 + max depth of tools that provided parameters *)
    let '(maxSourceDepth, paramSources) :=
      resolveSources (graph o) (toolDepths l) extractedSources in
    let toolDepth := maxSourceDepth + 1 in
    let l' := {| tools := tools l; executedTools := executedTools l;
                 toolDepths := <[name toolInfo := toolDepth]> (toolDepths l) |} in
    if maxDepth (state o) <? toolDepth then
      (* Skip - too deep in dependency chain *)
      let o1 :=
        with_state o
          (push_flagged
             {| f_toolName := name toolInfo; f_missingParams := [];
                f_reason :=
                  "Exceeds max depth (" +:+ string_of_Z toolDepth +:+ " > "
                  +:+ string_of_Z (maxDepth (state o)) +:+ ")";
                f_nodeId := nodeId |}
             (state o)) in
      let o2 :=
        with_graph o1
          (ResourceGraph.markToolSkipped nodeId "Exceeds max depth" []
             (graph o1)) in
      (emitEvent now (tool_skipped_reason (name toolInfo) "Exceeds max depth")
         o2,
       l', skip)
    else
      let st := state o in
      let step :=
        {| toolName := name toolInfo; nodeId := nodeId;
           parameters := extractedParams; parameterSources := paramSources;
           stepStatus := ResourceGraph.running; result := None;
           stepError := None; timestamp := now; depth := toolDepth |} in
      let o1 :=
        with_state o
          {| status := status st; toolsDiscovered := toolsDiscovered st;
             dependencyAnalysis := dependencyAnalysis st;
             executionHistory := executionHistory st ++ [step];
             currentStep := Z.of_nat (length (executionHistory st ++ [step])) - 1;
             (* Update current depth to track maximum achieved *)
             currentDepth := Z.max (currentDepth st) toolDepth;
             maxDepth := maxDepth st; flaggedTools := flaggedTools st;
             resourceGraph := resourceGraph st; startTime := startTime st;
             endTime := endTime st; stateError := stateError st |} in
      let o2 :=
        with_graph o1
          (ResourceGraph.markToolRunning nodeId extractedParams (graph o1)) in
      (emitEvent now (tool_start (name toolInfo) extractedParams toolDepth) o2,
       l',
       invoke extractedParams paramSources toolDepth
              (length (executionHistory st))).

(** From the answer of [extractParameters] to the next [await]. *)
Definition afterExtract (origin : Origin) (now : Z) (l : Locals)
    (toolInfo : ToolInfo) (nodeId : string)
    (answer : outcome (option ExtractedParams)) (o : AgentOrchestrator)
  : AgentOrchestrator * Next :=
  match answer with
  | Throws message => throwOut origin now message o
  | Returns extraction =>
      match processExtraction now l toolInfo nodeId extraction o with
      | (o', l', skip) => loopHead now l' o'
      | (o', l', invoke extractedParams paramSources toolDepth stepIndex) =>
          (call (call_toolCallFn (name toolInfo) extractedParams) o',
           Suspended (await_toolCallFn l' toolInfo nodeId paramSources
                        toolDepth (stateId o') stepIndex))
      end
  end.

(** [step.status = ...; step.result = ...]: [step] is the object pushed on
    the history of the state that was current before the call. *)
Definition updateStep (stepState stepIndex : nat)
    (f : ExecutionStep -> ExecutionStep) (o : AgentOrchestrator)
  : AgentOrchestrator :=
  if (stateId o =? stepState)%nat
  then with_state o
         (with_history (alter f stepIndex (executionHistory (state o)))
                       (state o))
  else o.

Definition stepCompleted (r : json) (s : ExecutionStep) : ExecutionStep :=
  {| toolName := toolName s; nodeId := nodeId s; parameters := parameters s;
     parameterSources := parameterSources s;
     stepStatus := ResourceGraph.completed; result := Some r;
     stepError := stepError s; timestamp := timestamp s; depth := depth s |}.

Definition stepFailed (message : string) (s : ExecutionStep) : ExecutionStep :=
  {| toolName := toolName s; nodeId := nodeId s; parameters := parameters s;
     parameterSources := parameterSources s;
     stepStatus := ResourceGraph.failed; result := result s;
     stepError := Some message; timestamp := timestamp s; depth := depth s |}.

Section WithHost.
Context `{JsHost}.

(** From the answer of the tool to the next [await]. *)
Definition afterToolCall (now : Z) (l : Locals) (toolInfo : ToolInfo)
    (nodeId : string) (paramSources : list (string * string)) (toolDepth : Z)
    (stepState stepIndex : nat) (answer : outcome json)
    (o : AgentOrchestrator) : AgentOrchestrator * Next :=
  let o1 :=
    match answer with
    | Returns r =>
        let o1 := updateStep stepState stepIndex (stepCompleted r) o in
        let o2 :=
          with_graph o1
            (ResourceGraph.recordToolExecution now nodeId r paramSources
               (graph o1)) in
        emitEvent now (tool_complete (name toolInfo) r toolDepth) o2
    | Throws message =>
        let o1 := updateStep stepState stepIndex (stepFailed message) o in
        let o2 :=
          with_graph o1 (ResourceGraph.markToolFailed nodeId message (graph o1)) in
        emitEvent now (tool_failed (name toolInfo) message) o2
    end in
  (* Update state *)
  loopHead now l
    (with_state o1
       (set_resourceGraph (ResourceGraph.toVisualizationFormat (graph o1))
          (state o1))).

(** The answers a suspended loop can receive. *)
Inductive Answer : Type :=
| tools_listed (r : outcome (list ToolInfo))
| analyzed (r : outcome (list DependencyAnalysis))
| selected (r : outcome (option string * string))
| extracted (r : outcome (option ExtractedParams))
| tool_returned (r : outcome json).

(** Resuming a suspended loop with the answer it awaits ([None]: the
    answer is not of the awaited kind). *)
Definition resumeLoop (origin : Origin) (now : Z) (a : Await) (r : Answer)
    (o : AgentOrchestrator) : option (AgentOrchestrator * Next) :=
  match a, r with
  | await_listTools, tools_listed r => Some (afterListTools origin now r o)
  | await_analyzeToolDependencies tools, analyzed r =>
      Some (afterAnalyze origin now tools r o)
  | await_selectNextTool l context, selected r =>
      Some (afterSelect origin now l context r o)
  | await_extractParameters l context toolInfo nodeId, extracted r =>
      Some (afterExtract origin now l toolInfo nodeId r o)
  | await_toolCallFn l toolInfo nodeId paramSources toolDepth stepState
                     stepIndex, tool_returned r =>
      Some (afterToolCall now l toolInfo nodeId paramSources toolDepth
              stepState stepIndex r o)
  | _, _ => None
  end.

End WithHost.

End AgentOrchestrator.

(* ===================================================================== *)
(** * Proxy interceptor (mcpProxy.ts)                                    *)
(* ===================================================================== *)

(** The two transports call back [onmessage] and [onclose]; a rejected
    [send] runs its [catch] callback later.  Each callback is a function on
    the proxy's variables, the indexer and the profile store; what is
    handed to a transport is recorded in order.  The guards
    [isJSONRPCRequest] and [isJSONRPCResponse] are functions of the MCP
    SDK: the proxy is written against the [McpSdk] interface. *)

Module McpProxy.
Import Js.
Import UserProfiles (outcome, Returns, Throws).

(** A JSON-RPC id: a number or a string. *)
Definition RequestId : Type := Z + string.

Record JsError : Type := {
  message : string;
  cause : option json;
}.

Inductive ErrorData : Type :=
| data_value (v : json)
| data_error (e : JsError).

(** The messages by their members: an [id] and a [method]; an [id] and a
    [result]; an [id] and an [error]; a [method] and no [id]. *)
Inductive Message : Type :=
| request (id : RequestId) (method : string) (params : option json)
| response (id : RequestId) (result : json)
| error_response (id : RequestId) (code : Z) (message : string)
    (data : option ErrorData)
| notification (method : string) (params : option json).

(** The guards of the SDK, which check a message against its schemas: on
    a message with an [id] and a [method], and on one with an [id] and a
    [result].  A message of another form passes neither together with the
    test ["result" in message] that the proxy adds to the second. *)
Class McpSdk : Type := {
  isJSONRPCRequest : RequestId -> string -> option json -> bool;
  isJSONRPCResponse : RequestId -> json -> bool;
}.

Record RequestInfo : Type := {
  r_method : string;
  r_toolName : option string;
}.

(** What the proxy asks of a transport. *)
Inductive Action : Type :=
| send (m : Message)
| close.

Record Proxy : Type := {
  transportToClientClosed : bool;
  transportToServerClosed : bool;
  reportedServerSession : bool;
  pendingRequests : gmap (Z + string) RequestInfo;
  toServer : list Action;
  toClient : list Action;
}.

Record World : Type := {
  proxy : Proxy;
  resourceIndexer : ResourceIndexer.ResourceIndexer;
  profileManager : UserProfiles.UserProfileManager;
}.

Definition mcpProxy : Proxy :=
  {| transportToClientClosed := false;
     transportToServerClosed := false;
     reportedServerSession := false;
     pendingRequests := ∅;
     toServer := [];
     toClient := [] |}.

Definition with_proxy (w : World) (p : Proxy) : World :=
  {| proxy := p; resourceIndexer := resourceIndexer w;
     profileManager := profileManager w |}.

(** The tool name read off a [tools/call] request:
    [String(request.params.name)], which throws a TypeError on a name that
    [String] cannot convert. *)
Definition toolNameOf (method : string) (params : option json)
  : outcome (option string) :=
  if String.eqb method "tools/call" then
    match params with
    | Some (JObj fields) =>
        match get_field "name" fields with
        | Some name =>
            match String_ name with
            | Some toolName => Returns (Some toolName)
            | None => Throws "Cannot convert object to primitive value"
            end
        | None => Returns None
        end
    | _ => Returns None
    end
  else Returns None.

Section WithSdk.
Context `{McpSdk}.

(** [transportToClient.onmessage], up to the call of
    [transportToServer.send].  A TypeError of [String] leaves the handler
    before the request is recorded or passed on. *)
Definition transportToClient_onmessage (m : Message) (w : World) : World :=
  let p := proxy w in
  let forward (pending : gmap (Z + string) RequestInfo) :=
    with_proxy w
      {| transportToClientClosed := transportToClientClosed p;
         transportToServerClosed := transportToServerClosed p;
         reportedServerSession := reportedServerSession p;
         pendingRequests := pending;
         toServer := toServer p ++ [send m];
         toClient := toClient p |} in
  match m with
  | request id method params =>
      if isJSONRPCRequest id method params then
        match toolNameOf method params with
        | Returns toolName =>
            forward (<[id := {| r_method := method; r_toolName := toolName |}]>
                       (pendingRequests p))
        | Throws _ => w
        end
      else forward (pendingRequests p)
  | _ => forward (pendingRequests p)
  end.

(** The [catch] callback of that [send], for the message [m] it sent. *)
Definition transportToServer_send_catch (m : Message) (error : JsError)
    (w : World) : World :=
  let p := proxy w in
  match m with
  | request id method params =>
      if isJSONRPCRequest id method params
         && negb (transportToClientClosed p) then
        with_proxy w
          {| transportToClientClosed := transportToClientClosed p;
             transportToServerClosed := transportToServerClosed p;
             reportedServerSession := reportedServerSession p;
             pendingRequests := pendingRequests p;
             toServer := toServer p;
             toClient :=
               toClient p ++
               [send (error_response id (-32001) (message error)
                        (Some (data_error error)))] |}
      else w
  | _ => w
  end.

(** [transportToServer.onmessage] *)
Definition transportToServer_onmessage `{JsHost} (e : UserProfiles.Env)
    (m : Message) (w : World) : World :=
  let p := proxy w in
  let '(pending, indexer) :=
    match m with
    | response id r =>
        if isJSONRPCResponse id r then
          match pendingRequests p !! id with
          | Some requestInfo =>
              (delete id (pendingRequests p),
               (* Only index responses from tools/call *)
               match r_toolName requestInfo with
               | Some toolName =>
                   if String.eqb (r_method requestInfo) "tools/call"
                      && negb (String.eqb toolName "")
                   then snd (ResourceIndexer.indexResponse e (profileManager w)
                               (UserProfiles.getActiveProfileId (profileManager w))
                               toolName r (resourceIndexer w))
                   else resourceIndexer w
               | None => resourceIndexer w
               end)
          | None => (pendingRequests p, resourceIndexer w)
          end
        else (pendingRequests p, resourceIndexer w)
    | _ => (pendingRequests p, resourceIndexer w)
    end in
  {| proxy :=
       {| transportToClientClosed := transportToClientClosed p;
          transportToServerClosed := transportToServerClosed p;
          reportedServerSession := true;
          pendingRequests := pending;
          toServer := toServer p;
          toClient := toClient p ++ [send m] |};
     resourceIndexer := indexer;
     profileManager := profileManager w |}.

End WithSdk.

Definition transportToClient_onclose (w : World) : World :=
  let p := proxy w in
  if transportToServerClosed p then w
  else
    with_proxy w
      {| transportToClientClosed := true;
         transportToServerClosed := transportToServerClosed p;
         reportedServerSession := reportedServerSession p;
         pendingRequests := ∅;
         toServer := toServer p ++ [close];
         toClient := toClient p |}.

Definition transportToServer_onclose (w : World) : World :=
  let p := proxy w in
  if transportToClientClosed p then w
  else
    with_proxy w
      {| transportToClientClosed := transportToClientClosed p;
         transportToServerClosed := true;
         reportedServerSession := reportedServerSession p;
         pendingRequests := ∅;
         toServer := toServer p;
         toClient := toClient p ++ [close] |}.

End McpProxy.

(* ===================================================================== *)
(** * Client hooks (useHttpTransactions.ts, useAgentStream.ts)           *)
(* ===================================================================== *)

(** The state updaters the two event-stream hooks pass to React: pure
    functions from the previous list to the next one. *)

Module HttpTransactions.

Record CapturedTransaction : Type := {
  id : string;
  timestamp : Z;
  sessionId : option string;
  url : string;
  method : string;
  requestHeaders : list (string * string);
  responseHeaders : list (string * string);
  statusCode : Z;
  statusText : string;
  duration : Z;
}.

(** The updater of [setTransactions] for a streamed transaction [data]. *)
Definition addTransaction (data : CapturedTransaction)
    (prev : list CapturedTransaction) : list CapturedTransaction :=
  (* Check for duplicates *)
  if existsb (fun t => String.eqb (id t) (id data)) prev then prev
  else
    (* Keep only the last 100 transactions *)
    let updated := prev ++ [data] in
    if (100 <? length updated)%nat then List.tl updated else updated.

End HttpTransactions.

Module AgentStream.

(** [prev.slice(-n)] for [0 < n] *)
Definition slice_last {A : Type} (n : nat) (prev : list A) : list A :=
  drop (length prev - n) prev.

(** The updater of [setEvents] for a streamed event. *)
Definition addEvent {A : Type} (agentEvent : A) (prev : list A) : list A :=
  slice_last 99 prev ++ [agentEvent].

End AgentStream.

(* ===================================================================== *)
(** * Properties                                                         *)
(* ===================================================================== *)

(** ** Profile store *)

Module UserProfilesProofs.
Import Js UserProfiles.

Lemma findIndex_first (ps : list UserProfile) (i : nat) (p : UserProfile) :
  ps !! i = Some p ->
  (forall j q, (j < i)%nat -> ps !! j = Some q -> id q <> id p) ->
  findIndex (id p) ps = Some i.
Proof.
  revert i. induction ps as [|q ps IH]; intros i Hi Hfirst; [done|].
  destruct i as [|i]; simpl in *.
  - injection Hi as ->. by rewrite String.eqb_refl.
  - destruct (String.eqb_spec (id q) (id p)) as [Heq|_].
    + exfalso. apply (Hfirst O q); [lia|done|done].
    + rewrite (IH i Hi); [done|].
      intros j r Hj Hr. apply (Hfirst (S j) r); [lia|done].
Qed.

Lemma findIndex_absent (ps : list UserProfile) (target : string) :
  (forall q, q ∈ ps -> id q <> target) -> findIndex target ps = None.
Proof.
  induction ps as [|q ps IH]; intros Habs; [done|]. simpl.
  destruct (String.eqb_spec (id q) target) as [Heq|_].
  - exfalso. by apply (Habs q); [left|].
  - rewrite IH; [done|]. intros r Hr. apply Habs. by right.
Qed.

Lemma saveToFile_profiles (e : Env) (m : UserProfileManager) :
  profiles (saveToFile e m) = profiles m /\
  activeProfileId (saveToFile e m) = activeProfileId m.
Proof. unfold saveToFile. by destruct (fs_ok e). Qed.

(** C10.  [updateProfile(p.id, d)] on a stored profile [p] (the one found
    under its id: ids are unique, or [p] is the first with its id) returns
    and stores, in [p]'s place, a profile with [p]'s [id] and [createdAt]
    whatever [d] carries, with [updatedAt] set to the clock; every other
    profile and the active profile id are unchanged.  For an id no stored
    profile has, it throws and the store is unchanged. *)
Theorem updateProfile_frame (e : Env) (m : UserProfileManager)
    (d : UpdateProfileInput) :
  (forall i p,
      profiles m !! i = Some p ->
      (forall j q, (j < i)%nat -> profiles m !! j = Some q -> id q <> id p) ->
      exists updated m',
        updateProfile e (id p) d m = (Returns updated, m') /\
        id updated = id p /\
        createdAt updated = createdAt p /\
        updatedAt updated = now e /\
        profiles m' !! i = Some updated /\
        length (profiles m') = length (profiles m) /\
        (forall j, j <> i -> profiles m' !! j = profiles m !! j) /\
        activeProfileId m' = activeProfileId m) /\
  (forall target,
      (forall q, q ∈ profiles m -> id q <> target) ->
      updateProfile e target d m
      = (Throws ("Profile not found: " +:+ target), m)).
Proof.
  split.
  - intros i p Hi Hfirst. unfold updateProfile.
    rewrite (findIndex_first _ _ _ Hi Hfirst), Hi.
    eexists _, _. split; [reflexivity|].
    match goal with
    | |- context [saveToFile e ?x] =>
        destruct (saveToFile_profiles e x) as [-> ->]
    end. simpl.
    repeat split; try done.
    + apply list_lookup_insert_eq. by eapply lookup_lt_Some.
    + apply length_insert.
    + intros j Hj. by apply list_lookup_insert_ne.
  - intros target Habs. unfold updateProfile.
    by rewrite (findIndex_absent _ _ Habs).
Qed.

Definition alice : UserProfile :=
  {| id := "p-1"; displayName := "Alice"; colorTag := red;
     authToken := Some "Bearer a"; headers := []; createdAt := 100;
     updatedAt := 100 |}.

Definition bob : UserProfile :=
  {| id := "p-2"; displayName := "Bob"; colorTag := green;
     authToken := None; headers := [("X-Org", "acme")]; createdAt := 200;
     updatedAt := 250 |}.

Definition two_profiles : UserProfileManager :=
  {| profiles := [alice; bob]; activeProfileId := Some "p-1"; file := None |}.

(** An update that tries to overwrite [id] and [createdAt]. *)
Definition hostile_update : UpdateProfileInput :=
  {| u_displayName := Some "Robert"; u_colorTag := None; u_authToken := None;
     u_headers := None; u_id := Some "p-1"; u_createdAt := Some 0;
     u_updatedAt := Some 1 |}.

Definition at_900 : Env :=
  {| now := 900; randomUUID := fun _ => "fresh"; fs_ok := true |}.

Lemma updateProfile_frame_witness :
  (exists updated m',
      updateProfile at_900 "p-2" hostile_update two_profiles
      = (Returns updated, m') /\
      id updated = "p-2" /\ createdAt updated = 200 /\
      updatedAt updated = 900 /\
      profiles m' !! 1%nat = Some updated /\
      profiles m' !! 0%nat = Some alice) /\
  updateProfile at_900 "p-3" hostile_update two_profiles
  = (Throws "Profile not found: p-3", two_profiles).
Proof.
  destruct (updateProfile_frame at_900 two_profiles hostile_update)
    as [Hin Hout].
  split.
  - destruct (Hin 1%nat bob) as (u & m' & Hrun & Hid & Hc & Hu & Hat & _ & Hoth & _).
    + reflexivity.
    + intros j q Hj Hq. destruct j as [|j]; [|lia].
      injection Hq as <-. discriminate.
    + exists u, m'. repeat split; try done.
      rewrite (Hoth 0%nat); [reflexivity | lia].
  - apply (Hout "p-3"). intros q Hq.
    apply list_elem_of_In in Hq. simpl in Hq.
    destruct Hq as [<-|[<-|[]]]; discriminate.
Defined.

End UserProfilesProofs.

(** ** Resource indexer *)

Module ResourceIndexerProofs.
Import Js Regex ResourceIndexer.

(** *** Envelope handling *)

Section Envelope.
Context `{JsHost}.





End Envelope.

(** *** Deduplication *)

Definition pairOf (r : IndexedResource) : string * string :=
  (id r, discoveredFromUser r).

Definition pairKey (r : IndexedResource) : string :=
  id r +:+ "::" +:+ discoveredFromUser r.

(** No pair is stored twice, every stored pair is in the dedup set, and the
    file holds no pair twice. *)
Definition consistent (ix : ResourceIndexer) : Prop :=
  NoDup (List.map pairOf (resources ix)) /\
  (forall r, r ∈ resources ix -> pairKey r ∈ seenIds ix) /\
  (forall rs, file ix = Some rs -> NoDup (List.map pairOf rs)).

Lemma consistent_empty : consistent empty_index.
Proof.
  split; [|split]; simpl; [constructor| |done].
  intros r Hr. by apply elem_of_nil in Hr.
Qed.

Section Loop.
Variables (e : UserProfiles.Env) (userProfileId : option string)
          (toolName userName userColor : string).

Local Abbreviation loop := (indexExtracted e userProfileId toolName userName userColor).

Lemma indexExtracted_consistent (extracted : list ExtractedId)
    (ix : ResourceIndexer) (new : list IndexedResource) :
  consistent ix -> consistent (fst (loop extracted ix new)).
Proof.
  revert ix new.
  induction extracted as [|x extracted IH]; intros ix new Hc; [done|].
  simpl. case_decide as Hseen; [by apply IH|].
  apply IH. destruct Hc as (Hnd & Hin & Hfile). split; [|split]; simpl.
  - rewrite map_app. simpl. rewrite <- Permutation_cons_append.
    constructor; [|done].
    intros Hmem. apply list_elem_of_fmap in Hmem as (r & Hpair & Hr).
    apply Hseen. specialize (Hin r Hr).
    unfold pairOf in Hpair. simpl in Hpair. injection Hpair as Hid Huser.
    unfold pairKey in Hin. unfold uniqueKey. by rewrite Hid, Huser.
  - intros r Hr. apply elem_of_app in Hr as [Hr|Hr].
    + apply elem_of_union_r. by apply Hin.
    + apply list_elem_of_singleton in Hr as ->.
      apply elem_of_union_l, elem_of_singleton. reflexivity.
  - exact Hfile.
Qed.

Lemma indexExtracted_seen_mono (extracted : list ExtractedId)
    (ix : ResourceIndexer) (new : list IndexedResource) (k : string) :
  k ∈ seenIds ix -> k ∈ seenIds (fst (loop extracted ix new)).
Proof.
  revert ix new.
  induction extracted as [|x extracted IH]; intros ix new Hk; [done|].
  simpl. case_decide; apply IH; [done|]. simpl. by apply elem_of_union_r.
Qed.

Lemma indexExtracted_seen (extracted : list ExtractedId)
    (ix : ResourceIndexer) (new : list IndexedResource) (x : ExtractedId) :
  x ∈ extracted ->
  uniqueKey (x_id x) userProfileId ∈ seenIds (fst (loop extracted ix new)).
Proof.
  revert ix new.
  induction extracted as [|y extracted IH]; intros ix new Hx.
  - by apply elem_of_nil in Hx.
  - apply elem_of_cons in Hx as [->|Hx]; simpl.
    + case_decide; apply indexExtracted_seen_mono; [done|].
      simpl. apply elem_of_union_l, elem_of_singleton. reflexivity.
    + case_decide; by apply IH.
Qed.

Lemma indexExtracted_all_seen (extracted : list ExtractedId)
    (ix : ResourceIndexer) (new : list IndexedResource) :
  (forall x, x ∈ extracted -> uniqueKey (x_id x) userProfileId ∈ seenIds ix) ->
  loop extracted ix new = (ix, new).
Proof.
  induction extracted as [|x extracted IH]; intros Hall; [done|].
  simpl. case_decide as Hseen.
  - apply IH. intros y Hy. apply Hall. by right.
  - exfalso. apply Hseen, Hall. by left.
Qed.

End Loop.

Lemma saveToFile_fields (e : UserProfiles.Env) (ix : ResourceIndexer) :
  resources (saveToFile e ix) = resources ix /\
  seenIds (saveToFile e ix) = seenIds ix.
Proof. unfold saveToFile. by destruct (UserProfiles.fs_ok e). Qed.

Lemma saveToFile_consistent (e : UserProfiles.Env) (ix : ResourceIndexer) :
  consistent ix -> consistent (saveToFile e ix).
Proof.
  intros (Hnd & Hin & Hfile). unfold saveToFile.
  destruct (UserProfiles.fs_ok e); [|done].
  split; [done|]. split; [done|]. simpl. by intros rs [= <-].
Qed.

Lemma clearIndex_consistent (e : UserProfiles.Env) (ix : ResourceIndexer) :
  consistent ix -> consistent (clearIndex e ix).
Proof.
  intros (_ & _ & Hfile). apply saveToFile_consistent.
  split; [|split]; simpl; [constructor| |done].
  intros r Hr. by apply elem_of_nil in Hr.
Qed.

(** Restarting from the file the indexer wrote. *)
Lemma loadFromFile_consistent (ix : ResourceIndexer) :
  consistent ix -> consistent (loadFromFile (file ix)).
Proof.
  intros (_ & _ & Hfile). unfold loadFromFile.
  destruct (file ix) as [rs|]; [|exact consistent_empty].
  split; [|split]; simpl.
  - by apply Hfile.
  - intros r Hr. apply elem_of_list_to_set, list_elem_of_fmap.
    by exists r.
  - intros rs' [= <-]. by apply Hfile.
Qed.

(** A call of [indexResponse], and a sequence of calls. *)
Record IndexCall : Type := {
  c_env : UserProfiles.Env;
  c_profiles : UserProfiles.UserProfileManager;
  c_user : option string;
  c_tool : string;
  c_response : json;
}.

Definition runCall `{JsHost} (ix : ResourceIndexer) (c : IndexCall)
  : ResourceIndexer :=
  snd (indexResponse (c_env c) (c_profiles c) (c_user c) (c_tool c)
                     (c_response c) ix).

Definition runCalls `{JsHost} (cs : list IndexCall) (ix : ResourceIndexer)
  : ResourceIndexer :=
  fold_left runCall cs ix.

Section Calls.
Context `{JsHost}.

Lemma indexResponse_consistent (e : UserProfiles.Env)
    (pm : UserProfiles.UserProfileManager) (u : option string)
    (t : string) (resp : json) (ix : ResourceIndexer) :
  consistent ix -> consistent (snd (indexResponse e pm u t resp ix)).
Proof.
  intros Hc. unfold indexResponse.
  match goal with
  | |- context [indexExtracted ?a ?b ?c ?d ?f ?g ?h ?i] =>
      pose proof (indexExtracted_consistent a b c d f g h i Hc) as Hc';
      destruct (indexExtracted a b c d f g h i) as [ix' new]
  end.
  simpl in *. destruct (0 <? length new)%nat; [|done].
  by apply saveToFile_consistent.
Qed.

(** The indexers a process can hold: a fresh one, then calls of
    [indexResponse] and [clearIndex], and restarts from the file written. *)
Inductive served : ResourceIndexer -> Prop :=
| served_fresh : served (loadFromFile None)
| served_call ix c : served ix -> served (runCall ix c)
| served_clear ix e : served ix -> served (clearIndex e ix)
| served_restart ix : served ix -> served (loadFromFile (file ix)).

Lemma served_consistent (ix : ResourceIndexer) : served ix -> consistent ix.
Proof.
  induction 1 as [|ix c _ IH|ix e _ IH|ix _ IH].
  - exact consistent_empty.
  - by apply indexResponse_consistent.
  - by apply clearIndex_consistent.
  - by apply loadFromFile_consistent.
Qed.

Lemma served_runCalls (cs : list IndexCall) (ix : ResourceIndexer) :
  served ix -> served (runCalls cs ix).
Proof.
  revert ix. induction cs as [|c cs IH]; intros ix Hix; [done|].
  simpl. apply IH. by constructor.
Qed.

Lemma indexResponse_seen (e : UserProfiles.Env)
    (pm : UserProfiles.UserProfileManager) (u : option string)
    (t : string) (resp : json) (ix : ResourceIndexer) (x : ExtractedId) :
  x ∈ extractIds (extractMcpContent resp) "" [] None ->
  uniqueKey (x_id x) u ∈ seenIds (snd (indexResponse e pm u t resp ix)).
Proof.
  intros Hx. unfold indexResponse.
  match goal with
  | |- context [indexExtracted ?a ?b ?c ?d ?f ?g ?h ?i] =>
      pose proof (indexExtracted_seen a b c d f g h i x Hx) as Hseen;
      destruct (indexExtracted a b c d f g h i) as [ix' new]
  end.
  simpl in *. destruct (0 <? length new)%nat; [|done].
  by destruct (saveToFile_fields e ix') as [_ ->].
Qed.

Lemma indexResponse_again (e1 e2 : UserProfiles.Env)
    (pm1 pm2 : UserProfiles.UserProfileManager) (u : option string)
    (t : string) (resp : json) (ix : ResourceIndexer) :
  indexResponse e2 pm2 u t resp (snd (indexResponse e1 pm1 u t resp ix))
  = ([], snd (indexResponse e1 pm1 u t resp ix)).
Proof.
  pose proof (indexResponse_seen e1 pm1 u t resp ix) as Hseen.
  remember (snd (indexResponse e1 pm1 u t resp ix)) as ix1 eqn:E. clear E.
  unfold indexResponse.
  by rewrite (indexExtracted_all_seen _ _ _ _ _ _ _ _ Hseen).
Qed.

(** C2.  Whatever calls of [indexResponse] an index has served since it
    was fresh (with clears and restarts from its file in between), no two
    of its entries have the same [id] and the same [discoveredFromUser];
    and on any index, a call repeated at once finds nothing new: it returns
    the empty array and leaves the entries (so their count) as the first
    call left them. *)
Theorem indexResponse_dedup :
  (forall (cs : list IndexCall) (ix : ResourceIndexer) i j r1 r2,
      served ix ->
      resources (runCalls cs ix) !! i = Some r1 ->
      resources (runCalls cs ix) !! j = Some r2 ->
      id r1 = id r2 ->
      discoveredFromUser r1 = discoveredFromUser r2 ->
      i = j) /\
  (forall e1 e2 pm1 pm2 u t resp ix,
      let first := indexResponse e1 pm1 u t resp ix in
      let second := indexResponse e2 pm2 u t resp (snd first) in
      fst second = [] /\
      resources (snd second) = resources (snd first) /\
      length (resources (snd second)) = length (resources (snd first))).
Proof.
  split.
  - intros cs ix i j r1 r2 Hix Hi Hj Hid Huser.
    destruct (served_consistent _ (served_runCalls cs ix Hix)) as [Hnd _].
    eapply NoDup_lookup; [exact Hnd| |].
    + rewrite list_lookup_fmap, Hi. reflexivity.
    + rewrite list_lookup_fmap, Hj. simpl. unfold pairOf.
      by rewrite Hid, Huser.
  - intros e1 e2 pm1 pm2 u t resp ix first second. subst first second.
    by rewrite indexResponse_again.
Qed.

End Calls.

(** *** Strings met by the traversal *)

Lemma test_Void (s : string) : test Void s = false.
Proof. induction s as [|c s IH]; [done|exact IH]. Qed.

Lemma test_Cat_Cls (p : ascii -> bool) (r : regex) (s : string) :
  test (Cat (Cls p) r) s
  = match s with
    | EmptyString => false
    | String c s' => p c && test r s'
    end.
Proof.
  destruct s as [|c s]; [done|]. simpl.
  destruct (p c); simpl.
  - by destruct r.
  - apply test_Void.
Qed.

Lemma test_Eps (s : string) : test Eps s = true -> s = EmptyString.
Proof. destruct s as [|c s]; [done|]. simpl. by rewrite test_Void. Qed.

(** A string matched by the UUID pattern has 36 characters. *)
Lemma uuid_length (s : string) :
  test PATTERNS.uuid s = true -> String.length s = 36%nat.
Proof.
  unfold PATTERNS.uuid, chr. cbn [times]. intros Hs.
  repeat
    (rewrite test_Cat_Cls in Hs;
     destruct s as [|? s]; [discriminate Hs|];
     apply andb_prop in Hs as [_ Hs]).
  by rewrite (test_Eps s Hs).
Qed.

Lemma detectIdType_long (s : string) :
  (500 < String.length s)%nat -> detectIdType s = None.
Proof.
  intros Hlen. unfold detectIdType.
  destruct (String.length s =? 0)%nat; [done|].
  by apply Nat.ltb_lt in Hlen as ->.
Qed.

Lemma detectIdType_strong (s : string) :
  test PATTERNS.uuid s || test PATTERNS.atlassianKey s = true ->
  (String.length s <= 500)%nat ->
  exists t, detectIdType s = Some t /\
            (test PATTERNS.uuid s = true -> t = uuid).
Proof.
  intros Hstrong Hlen. unfold detectIdType.
  destruct s as [|c s]; [discriminate Hstrong|].
  change (String.length (String c s) =? 0)%nat with false. cbv iota.
  apply Nat.ltb_ge in Hlen as ->.
  destruct (test PATTERNS.uuid (String c s)) eqn:Huuid; [by exists uuid|].
  destruct (test PATTERNS.atlassianAri (String c s));
    [by exists path|].
  rewrite orb_false_l in Hstrong. rewrite Hstrong. by exists slug.
Qed.

(** C8 (amended).  A string under a field name that is not ID-like is
    emitted exactly when it matches the UUID pattern or the Atlassian key
    pattern and is at most 500 characters long (a UUID always is: it is
    emitted, with type [uuid]); a string that matches neither, a plain
    slug for one, is not emitted. *)
Theorem extractIds_strong_patterns (s path : string)
    (results : list ExtractedId) (parentObj : option (list (string * json))) :
  isIdFieldName (fieldNameOf path) = false ->
  let strong := test PATTERNS.uuid s || test PATTERNS.atlassianKey s in
  let entry t :=
    {| x_id := s; x_type := t; x_fieldName := fieldNameOf path;
       x_fieldPath := path; x_parentContext := contextOf parentObj |} in
  (strong = true -> (String.length s <= 500)%nat ->
   exists t, extractIds (JStr s) path results parentObj = results ++ [entry t]) /\
  (strong = false \/ (500 < String.length s)%nat ->
   extractIds (JStr s) path results parentObj = results) /\
  (test PATTERNS.uuid s = true ->
   extractIds (JStr s) path results parentObj = results ++ [entry uuid]).
Proof.
  intros Hfield strong entry. subst strong entry. simpl.
  unfold extractString. rewrite Hfield.
  repeat split.
  - intros Hstrong Hlen. rewrite Hstrong.
    destruct (detectIdType_strong s Hstrong Hlen) as (t & -> & _).
    by exists t.
  - intros [Hweak|Hlong].
    + by rewrite Hweak.
    + rewrite (detectIdType_long s Hlong).
      by destruct (_ || _).
  - intros Huuid. rewrite Huuid. simpl.
    destruct (detectIdType_strong s) as (t & -> & Ht).
    + by rewrite Huuid.
    + rewrite (uuid_length s Huuid). lia.
    + by rewrite (Ht Huuid).
Qed.

End ResourceIndexerProofs.

Module ResourceIndexerExamples.
Import Js Regex Host ResourceIndexer ResourceIndexerProofs.

Definition text_item (s : string) : json :=
  JObj [("type", JStr "text"); ("text", JStr s)].

Definition envelope (texts : list string) : json :=
  JObj [("content", JArr (List.map text_item texts))].

(** Scenario S1 of the specification. *)
Definition S1_text : string :=
  dq "{'results':[{'id':'550e8400-e29b-41d4-a716-446655440000','title':'hello'}]}".

Definition S1 : json := envelope [S1_text].



(** The patterns on a few identifiers. *)
Example detectIdType_examples :
  detectIdType "PROJ-123" = Some slug /\
  detectIdType "release-notes" = Some slug /\
  detectIdType "1234" = Some numeric /\
  detectIdType "12" = None /\
  detectIdType "/spaces/DEV" = Some path /\
  detectIdType "ari:cloud:jira::site/abc-1" = Some path /\
  detectIdType "550E8400-E29B-41D4-A716-446655440000" = Some uuid /\
  detectIdType "550e8400-e29b-61d4-a716-446655440000" = Some slug /\
  detectIdType "hello world" = None /\
  detectIdType EmptyString = None.
Proof. vm_compute. repeat split; reflexivity. Qed.

Example isIdFieldName_examples :
  isIdFieldName "id" = true /\ isIdFieldName "accountId" = true /\
  isIdFieldName "ParentUUID" = true /\ isIdFieldName "title" = false /\
  fieldNameOf "results[0].id" = "id" /\ fieldNameOf "tags[12]" = "tags".
Proof. vm_compute. repeat split; reflexivity. Qed.

Definition at_5 : UserProfiles.Env :=
  {| UserProfiles.now := 5;
     UserProfiles.randomUUID := fun n => "entry-" +:+ string_of_nat n;
     UserProfiles.fs_ok := true |}.

Definition at_9 : UserProfiles.Env :=
  {| UserProfiles.now := 9;
     UserProfiles.randomUUID := fun n => "later-" +:+ string_of_nat n;
     UserProfiles.fs_ok := true |}.

Definition no_profiles : UserProfiles.UserProfileManager :=
  {| UserProfiles.profiles := []; UserProfiles.activeProfileId := None;
     UserProfiles.file := None |}.

(** Scenario S1: what the first call returns. *)
Example S1_indexed :
  fst (indexResponse at_5 no_profiles (Some "u1") "listThings" S1 empty_index)
  = [ {| entryId := "entry-0";
         id := "550e8400-e29b-41d4-a716-446655440000";
         type := uuid;
         fieldName := "id";
         fieldPath := "results[0].id";
         parentContext :=
           [("id", JStr "550e8400-e29b-41d4-a716-446655440000");
            ("title", JStr "hello")];
         discoveredByTool := "listThings";
         discoveredFromUser := "u1";
         discoveredFromUserName := "Unknown";
         userColorTag := "blue";
         timestamp := 5 |} ].
Proof. vm_compute. reflexivity. Qed.

(** Scenario S2: S1 twice. *)
Definition S1_call (e : UserProfiles.Env) : IndexCall :=
  {| c_env := e; c_profiles := no_profiles; c_user := Some "u1";
     c_tool := "listThings"; c_response := S1 |}.

Lemma indexResponse_dedup_witness :
  let first :=
    indexResponse at_5 no_profiles (Some "u1") "listThings" S1 empty_index in
  let second :=
    indexResponse at_9 no_profiles (Some "u1") "listThings" S1 (snd first) in
  fst second = [] /\ length (resources (snd second)) = 1%nat /\
  (forall i j r1 r2,
      resources (runCalls [S1_call at_5; S1_call at_9] empty_index) !! i
      = Some r1 ->
      resources (runCalls [S1_call at_5; S1_call at_9] empty_index) !! j
      = Some r2 ->
      id r1 = id r2 -> discoveredFromUser r1 = discoveredFromUser r2 -> i = j).
Proof.
  intros first second.
  destruct indexResponse_dedup as [Hunique Hagain].
  destruct (Hagain at_5 at_9 no_profiles no_profiles
              (Some "u1") "listThings" S1 empty_index) as (Hnone & _ & Hcount).
  split; [exact Hnone|]. split.
  - etransitivity; [exact Hcount|]. vm_compute. reflexivity.
  - intros i j r1 r2.
    exact (Hunique [S1_call at_5; S1_call at_9] empty_index i j r1 r2
             served_fresh).
Defined.

Lemma extractIds_strong_patterns_witness :
  extractIds (JStr "550e8400-e29b-41d4-a716-446655440000") "title" [] None
  = [ {| x_id := "550e8400-e29b-41d4-a716-446655440000"; x_type := uuid;
         x_fieldName := "title"; x_fieldPath := "title";
         x_parentContext := [] |} ] /\
  extractIds (JStr "release-notes") "title" [] None = [].
Proof.
  split.
  - apply (extractIds_strong_patterns
             "550e8400-e29b-41d4-a716-446655440000" "title" [] None eq_refl).
    vm_compute. reflexivity.
  - apply (extractIds_strong_patterns "release-notes" "title" [] None eq_refl).
    left. vm_compute. reflexivity.
Defined.

Fixpoint repeat_char (n : nat) (c : ascii) (rest : string) : string :=
  match n with
  | O => rest
  | S n' => String c (repeat_char n' c rest)
  end.

(** An Atlassian-style key of 502 characters. *)
Definition long_key : string := repeat_char 500 "A" "-1".

(** C8 as stated fails: a string under a field that is not ID-like matches
    the Atlassian key pattern and is not emitted. *)
Lemma strong_pattern_not_emitted :
  isIdFieldName (fieldNameOf "title") = false /\
  test PATTERNS.atlassianKey long_key = true /\
  extractIds (JStr long_key) "title" [] None = [].
Proof. vm_compute. repeat split; reflexivity. Qed.

End ResourceIndexerExamples.

(** ** Gemini client: the fallback of [selectNextTool] *)

Module GeminiClientProofs.
Import Js LlmClient GeminiClient.
Import UserProfiles (outcome, Returns, Throws).

Section Fallback.
Context `{JsHost}.

(** What the code checks for a tool: for each required name, some context
    value that is an object or an array has a serialization containing the
    name, or ["cloudId"], or ["id"]. *)
Definition likelyAvailable (availableContext : list (string * json))
    (t : ToolInfo) : Prop :=
  forall param, param ∈ requiredOf t ->
    exists key data,
      (key, data) ∈ availableContext /\ is_object data = true /\
      (includes (JSON_stringify data) param = true \/
       includes (JSON_stringify data) "cloudId" = true \/
       includes (JSON_stringify data) "id" = true).

(** What C7 states for a tool: each required name is a substring of some
    context value. *)
Definition namesInContext (availableContext : list (string * json))
    (t : ToolInfo) : Prop :=
  forall param, param ∈ requiredOf t ->
    exists key data,
      (key, data) ∈ availableContext /\
      includes (JSON_stringify data) param = true.

(** The fallback as C7 states it, for the tool name [tool] returned. *)
Definition fallback_as_claimed (unexecutedTools : list ToolInfo)
    (availableContext : list (string * json)) (tool : option string) : Prop :=
  ((exists t, t ∈ unexecutedTools /\ requiredOf t = []) ->
   exists t, t ∈ unexecutedTools /\ requiredOf t = [] /\ tool = Some (name t)) /\
  ((forall t, t ∈ unexecutedTools -> requiredOf t <> []) ->
   (exists t, t ∈ unexecutedTools /\ namesInContext availableContext t) ->
   exists t, t ∈ unexecutedTools /\ namesInContext availableContext t /\
             tool = Some (name t)) /\
  ((forall t, t ∈ unexecutedTools ->
      requiredOf t <> [] /\ ~ namesInContext availableContext t) ->
   tool = None).

Lemma paramInContext_true (ctx : list (string * json)) (param : string) :
  paramInContext ctx param = true <->
  exists key data,
    (key, data) ∈ ctx /\ is_object data = true /\
    (includes (JSON_stringify data) param = true \/
     includes (JSON_stringify data) "cloudId" = true \/
     includes (JSON_stringify data) "id" = true).
Proof.
  unfold paramInContext. rewrite existsb_exists. split.
  - intros ([key data] & Hin & Hok). simpl in Hok.
    exists key, data. split; [by apply list_elem_of_In|].
    destruct (is_object data); [|done]. split; [done|].
    apply orb_prop in Hok as [Hok|Hok]; [|by right; right].
    apply orb_prop in Hok as [Hok|Hok]; [by left|by right; left].
  - intros (key & data & Hin & Hobj & Hok). exists (key, data).
    split; [by apply list_elem_of_In|]. simpl. rewrite Hobj.
    destruct Hok as [-> | [-> | ->]]; by rewrite ?orb_true_r.
Qed.

Lemma likelyAvailable_forallb (ctx : list (string * json)) (t : ToolInfo) :
  forallb (paramInContext ctx) (requiredOf t) = true <-> likelyAvailable ctx t.
Proof.
  rewrite forallb_forall. unfold likelyAvailable. split.
  - intros Hall param Hparam. apply paramInContext_true, Hall.
    by apply list_elem_of_In.
  - intros Hall param Hparam. apply paramInContext_true, Hall.
    by apply list_elem_of_In.
Qed.

Lemma firstWithParamsInContext_Some (us : list ToolInfo)
    (ctx : list (string * json)) (t : ToolInfo) :
  firstWithParamsInContext us ctx = Some t -> t ∈ us /\ likelyAvailable ctx t.
Proof.
  induction us as [|u us IH]; [done|]. simpl.
  destruct (forallb _ _) eqn:Hu.
  - intros [= <-]. split; [by left|]. by apply likelyAvailable_forallb.
  - intros Ht. destruct (IH Ht) as [Hin Hl]. split; [by right|done].
Qed.

Lemma firstWithParamsInContext_None (us : list ToolInfo)
    (ctx : list (string * json)) :
  firstWithParamsInContext us ctx = None ->
  forall t, t ∈ us -> ~ likelyAvailable ctx t.
Proof.
  induction us as [|u us IH]; intros Hnone t Ht.
  - by apply elem_of_nil in Ht.
  - simpl in Hnone. destruct (forallb _ _) eqn:Hu; [done|].
    apply elem_of_cons in Ht as [-> | Ht]; [|by apply IH].
    intros Hl. apply likelyAvailable_forallb in Hl. congruence.
Qed.

Lemma length_zero_nil {A : Type} (l : list A) :
  (length l =? 0)%nat = true <-> l = [].
Proof. destruct l; simpl; split; intros; done. Qed.

(** The three steps of [fallbackToolSelection]. *)
Lemma fallbackToolSelection_steps (us : list ToolInfo)
    (ctx : list (string * json)) :
  exists tool reason,
    fallbackToolSelection us ctx = Select tool reason /\
    ((exists t, t ∈ us /\ requiredOf t = []) ->
     exists t, t ∈ us /\ requiredOf t = [] /\ tool = Some (name t)) /\
    ((forall t, t ∈ us -> requiredOf t <> []) ->
     (exists t, t ∈ us /\ likelyAvailable ctx t) ->
     exists t, t ∈ us /\ likelyAvailable ctx t /\ tool = Some (name t)) /\
    ((forall t, t ∈ us -> requiredOf t <> [] /\ ~ likelyAvailable ctx t) ->
     tool = None).
Proof.
  unfold fallbackToolSelection.
  destruct (List.find _ us) as [t|] eqn:Hfind.
  - apply find_some in Hfind as [Hin Hreq].
    apply list_elem_of_In in Hin. apply length_zero_nil in Hreq.
    eexists _, _. split; [reflexivity|]. repeat split.
    + intros _. by exists t.
    + intros Hall _. by destruct (Hall t Hin).
    + intros Hall. by destruct (Hall t Hin) as [Hne _].
  - assert (forall t, t ∈ us -> requiredOf t <> []) as Hnonempty.
    { intros t Hin Hreq. apply list_elem_of_In in Hin.
      pose proof (find_none _ _ Hfind t Hin) as Hf. simpl in Hf.
      apply length_zero_nil in Hreq. congruence. }
    destruct (firstWithParamsInContext us ctx) as [t|] eqn:Hfirst.
    + apply firstWithParamsInContext_Some in Hfirst as [Hin Hl].
      eexists _, _. split; [reflexivity|]. repeat split.
      * intros (u & Hu & Hreq). by destruct (Hnonempty u Hu).
      * intros _ _. by exists t.
      * intros Hall. by destruct (Hall t Hin) as [_ Hnl].
    + pose proof (firstWithParamsInContext_None _ _ Hfirst) as Hnl.
      eexists _, _. split; [reflexivity|]. repeat split.
      * intros (u & Hu & Hreq). by destruct (Hnonempty u Hu).
      * intros _ (u & Hu & Hl). by destruct (Hnl u Hu).
Qed.

(** C7 (amended).  When the request is made and the reply does not parse,
    [selectNextTool] returns a result built by the client, never an error:
    an unexecuted tool with no required parameter when there is one;
    otherwise an unexecuted tool such that, for each of its required names,
    some context value that is an object or an array has a JSON text
    containing that name or ["cloudId"] or ["id"], when there is one;
    otherwise no tool. *)
Theorem selectNextTool_parse_failure (availableTools : list ToolInfo)
    (executedTools : list string) (availableContext : list (string * json))
    (currentDepth maxDepth : Z) (response : string) :
  currentDepth < maxDepth ->
  unexecuted availableTools executedTools <> [] ->
  parseJSONResponse response = None ->
  let us := unexecuted availableTools executedTools in
  exists tool reason,
    selectNextTool availableTools executedTools availableContext
                   currentDepth maxDepth (Returns response)
    = Returns (Select tool reason) /\
    ((exists t, t ∈ us /\ requiredOf t = []) ->
     exists t, t ∈ us /\ requiredOf t = [] /\ tool = Some (name t)) /\
    ((forall t, t ∈ us -> requiredOf t <> []) ->
     (exists t, t ∈ us /\ likelyAvailable availableContext t) ->
     exists t, t ∈ us /\ likelyAvailable availableContext t /\
               tool = Some (name t)) /\
    ((forall t, t ∈ us ->
        requiredOf t <> [] /\ ~ likelyAvailable availableContext t) ->
     tool = None).
Proof.
  intros Hdepth Hsome Hparse us.
  destruct (fallbackToolSelection_steps us availableContext)
    as (tool & reason & Hfb & Hsteps).
  exists tool, reason. split; [|exact Hsteps].
  unfold selectNextTool.
  apply Z.leb_gt in Hdepth as ->.
  fold us.
  destruct (length us =? 0)%nat eqn:Hlen.
  - apply length_zero_nil in Hlen. by destruct Hsome.
  - unfold interpretReply. by rewrite Hparse, Hfb.
Qed.

End Fallback.

End GeminiClientProofs.

Module GeminiClientExamples.
Import Js LlmClient GeminiClient GeminiClientProofs Host.
Import UserProfiles (outcome, Returns, Throws).

Definition tool_requiring (n : string) (req : list string) : ToolInfo :=
  {| name := n; description := None;
     inputSchema := {| s_type := "object"; properties := None;
                       required := Some req |} |}.

Definition getIssue : ToolInfo := tool_requiring "getIssue" ["projectKey"].
Definition listSites : ToolInfo := tool_requiring "listSites" [].

(** The context after a tool [whoAmI] answered [{"id":"1"}]. *)
Definition context_with_id : list (string * json) :=
  [("whoAmI", JObj [("id", JStr "1")])].

Lemma selectNextTool_parse_failure_witness :
  exists reason,
    selectNextTool [listSites; getIssue] ["listSites"] context_with_id 0 10
                   (Returns "Sorry, I cannot answer that.")
    = Returns (Select (Some "getIssue") reason).
Proof.
  destruct (selectNextTool_parse_failure
              [listSites; getIssue] ["listSites"] context_with_id 0 10
              "Sorry, I cannot answer that.")
    as (tool & reason & Hrun & _ & Hsecond & _).
  - lia.
  - vm_compute. discriminate.
  - vm_compute. reflexivity.
  - exists reason. rewrite Hrun. f_equal. f_equal.
    destruct Hsecond as (t & Ht & _ & ->).
    + intros t Ht. vm_compute in Ht.
      apply list_elem_of_singleton in Ht as ->. discriminate.
    + exists getIssue. split; [vm_compute; by left|].
      intros param Hparam. exists "whoAmI", (JObj [("id", JStr "1")]).
      split; [by left|]. split; [reflexivity|].
      right. right. vm_compute. reflexivity.
    + vm_compute in Ht. by apply list_elem_of_singleton in Ht as ->.
Defined.

(** C7 as stated fails: no context value contains ["projectKey"], yet the
    fallback picks the tool that requires it. *)
Lemma fallback_picks_tool_without_its_name :
  selectNextTool [listSites; getIssue] ["listSites"] context_with_id 0 10
                 (Returns "Sorry, I cannot answer that.")
  = Returns (Select (Some "getIssue")
                    "Fallback: params likely available in context") /\
  ~ fallback_as_claimed (unexecuted [listSites; getIssue] ["listSites"])
                        context_with_id (Some "getIssue").
Proof.
  split; [vm_compute; reflexivity|].
  intros (_ & _ & Hnone).
  enough (Some "getIssue" = @None string) by discriminate.
  apply Hnone. intros t Ht. vm_compute in Ht.
  apply list_elem_of_singleton in Ht as ->.
  split; [discriminate|].
  intros Hnames. destruct (Hnames "projectKey") as (key & data & Hin & Hsub).
  - by left.
  - apply list_elem_of_singleton in Hin. injection Hin as -> ->.
    vm_compute in Hsub. discriminate.
Qed.

End GeminiClientExamples.

(** ** Resource graph: flattening *)

Module ResourceGraphProofs.
Import Js ResourceGraph.

(** Induction on JSON values through arrays and objects. *)
Lemma json_ind' (P : json -> Prop) :
  P JNull ->
  (forall b, P (JBool b)) ->
  (forall n, P (JNum n)) ->
  (forall s, P (JStr s)) ->
  (forall items, Forall P items -> P (JArr items)) ->
  (forall entries, Forall (fun kv => P (snd kv)) entries -> P (JObj entries)) ->
  forall v, P v.
Proof.
  intros Hnull Hbool Hnum Hstr Harr Hobj.
  fix IH 1. intros [| b | n | s | items | entries].
  - exact Hnull.
  - apply Hbool.
  - apply Hnum.
  - apply Hstr.
  - apply Harr. induction items as [|x items IHitems]; constructor.
    + apply IH.
    + exact IHitems.
  - apply Hobj. induction entries as [|[k x] entries IHentries]; constructor.
    + apply IH.
    + exact IHentries.
Qed.

(** *** Objects as entry lists *)

Lemma get_set_eq {V : Type} (k : string) (v : V) (l : list (string * V)) :
  get_field k (set_field k v l) = Some v.
Proof.
  induction l as [|[k' v'] l IH]; simpl.
  - by rewrite String.eqb_refl.
  - destruct (String.eqb_spec k' k) as [->|Hne]; simpl.
    + by rewrite String.eqb_refl.
    + by apply String.eqb_neq in Hne as ->.
Qed.

Lemma get_set_ne {V : Type} (k k' : string) (v : V) (l : list (string * V)) :
  k <> k' -> get_field k' (set_field k v l) = get_field k' l.
Proof.
  intros Hne. induction l as [|[k0 v0] l IH]; simpl.
  - by apply String.eqb_neq in Hne as ->.
  - destruct (String.eqb_spec k0 k) as [->|Hne0]; simpl.
    + by apply String.eqb_neq in Hne as ->.
    + by rewrite IH.
Qed.

(** The value a sequence of writes leaves under [k]. *)
Definition lastWrite {V : Type} (k : string) (ws : list (string * V))
  : option V :=
  fold_left (fun acc kv => if String.eqb (fst kv) k then Some (snd kv) else acc)
            ws None.

Lemma fold_lastWrite {V : Type} (k : string) (ws : list (string * V))
    (acc : option V) :
  fold_left (fun acc kv => if String.eqb (fst kv) k then Some (snd kv) else acc)
            ws acc
  = match lastWrite k ws with Some v => Some v | None => acc end.
Proof.
  unfold lastWrite. revert acc.
  induction ws as [|[k' v'] ws IH]; intros acc; [done|]. simpl.
  rewrite IH, (IH (if String.eqb k' k then Some v' else None)).
  destruct (fold_left _ ws None); [done|]. by destruct (String.eqb k' k).
Qed.

Lemma lastWrite_app {V : Type} (k : string) (a b : list (string * V)) :
  lastWrite k (a ++ b)
  = match lastWrite k b with Some v => Some v | None => lastWrite k a end.
Proof. unfold lastWrite at 1. by rewrite fold_left_app, fold_lastWrite. Qed.

Lemma lastWrite_cons {V : Type} (k k' : string) (v : V) (ws : list (string * V)) :
  lastWrite k ((k', v) :: ws)
  = match lastWrite k ws with
    | Some w => Some w
    | None => if String.eqb k' k then Some v else None
    end.
Proof. unfold lastWrite at 1. simpl. by rewrite fold_lastWrite. Qed.

Lemma get_assign {V : Type} (k : string) (target source : list (string * V)) :
  get_field k (assign target source)
  = match lastWrite k source with
    | Some v => Some v
    | None => get_field k target
    end.
Proof.
  unfold assign. revert target.
  induction source as [|[k' v'] source IH]; intros target; [done|].
  simpl. rewrite IH, lastWrite_cons.
  destruct (lastWrite k source); [done|].
  destruct (String.eqb_spec k' k) as [->|Hne].
  - apply get_set_eq.
  - by apply get_set_ne.
Qed.

Lemma get_insert_index_ne {V : Type} (n : Z) (k k' : string) (v : V)
    (l : list (string * V)) :
  k <> k' -> get_field k' (insert_index n k v l) = get_field k' l.
Proof.
  intros Hne. apply String.eqb_neq in Hne.
  induction l as [|[k0 v0] l IH]; simpl.
  - by rewrite Hne.
  - destruct (array_index k0) as [m|]; [destruct (m <? n)|]; simpl;
      rewrite ?Hne, ?IH; done.
Qed.

Lemma get_insert_index_eq {V : Type} (n : Z) (k : string) (v : V)
    (l : list (string * V)) :
  get_field k l = None -> get_field k (insert_index n k v l) = Some v.
Proof.
  induction l as [|[k0 v0] l IH]; simpl.
  - by rewrite String.eqb_refl.
  - destruct (String.eqb k0 k) eqn:Hk0; [done|]. intros Hl.
    destruct (array_index k0) as [m|]; [destruct (m <? n)|]; simpl;
      rewrite ?Hk0, ?String.eqb_refl; auto.
Qed.

Lemma get_define_eq {V : Type} (k : string) (v : V) (l : list (string * V)) :
  get_field k (define k v l) = Some v.
Proof.
  unfold define. destruct (get_field k l) eqn:Hl; [apply get_set_eq|].
  destruct (array_index k); [by apply get_insert_index_eq|apply get_set_eq].
Qed.

Lemma get_define_ne {V : Type} (k k' : string) (v : V) (l : list (string * V)) :
  k <> k' -> get_field k' (define k v l) = get_field k' l.
Proof.
  intros Hne. unfold define.
  destruct (get_field k l); [by apply get_set_ne|].
  destruct (array_index k); [by apply get_insert_index_ne|by apply get_set_ne].
Qed.

(** Assignments to a plain object: nothing is stored under
    ["__proto__"]; another key holds what was assigned to it last. *)
Lemma get_store {V : Type} (k k' : string) (v : V) (l : list (string * V)) :
  get_field k (store k' v l)
  = if String.eqb k' "__proto__" then get_field k l
    else if String.eqb k' k then Some v else get_field k l.
Proof.
  unfold store. destruct (String.eqb k' "__proto__"); [done|].
  destruct (String.eqb_spec k' k) as [->|Hne];
    [apply get_define_eq|by apply get_define_ne].
Qed.

Lemma get_merge {V : Type} (k : string) (target source : list (string * V)) :
  k <> "__proto__" ->
  get_field k (merge target source)
  = match lastWrite k source with
    | Some v => Some v
    | None => get_field k target
    end.
Proof.
  intros Hk. unfold merge. revert target.
  induction source as [|[k' v'] source IH]; intros target; [done|].
  simpl. rewrite IH, lastWrite_cons.
  destruct (lastWrite k source); [done|]. rewrite get_store.
  destruct (String.eqb_spec k' "__proto__") as [->|_].
  - by apply not_eq_sym, String.eqb_neq in Hk as ->.
  - by destruct (String.eqb k' k).
Qed.

Lemma get_merge_proto {V : Type} (target source : list (string * V)) :
  get_field "__proto__" (merge target source) = get_field "__proto__" target.
Proof.
  unfold merge. revert target.
  induction source as [|[k' v'] source IH]; intros target; [done|].
  simpl. rewrite IH, get_store.
  by destruct (String.eqb k' "__proto__").
Qed.

(** When every write under [k] carries [v], [v] is what is left under [k]. *)
Lemma lastWrite_unanimous {V : Type} (k : string) (v : V)
    (ws : list (string * V)) :
  (k, v) ∈ ws -> (forall w, (k, w) ∈ ws -> w = v) -> lastWrite k ws = Some v.
Proof.
  induction ws as [|[k' v'] ws IH] using rev_ind; intros Hin Hall.
  - by apply elem_of_nil in Hin.
  - rewrite lastWrite_app, lastWrite_cons. simpl.
    destruct (String.eqb_spec k' k) as [->|Hne].
    + f_equal. apply Hall, elem_of_app. right. by left.
    + apply IH.
      * apply elem_of_app in Hin as [Hin|Hin]; [done|].
        apply list_elem_of_singleton in Hin. congruence.
      * intros w Hw. apply Hall, elem_of_app. by left.
Qed.

(** *** The writes of a flattening *)

Section Flatten.
Context `{JsHost}.

(** The [content] array that makes [flattenResult] treat an object as an
    MCP envelope. *)
Definition contentArray (fields : list (string * json)) : option (list json) :=
  match get_field "content" fields with
  | Some (JArr content) => Some content
  | _ => None
  end.

(** The value parsed from the text of a content item. *)
Definition parsedItem (item : json) : option json :=
  match item with
  | JObj itemFields =>
      match get_field "text" itemFields with
      | Some text => String_ text ≫= JSON_parse
      | None => None
      end
  | _ => None
  end.

(** What the walk of [flattenResult] records, in the order of the walk:
    each leaf under its bare key and under its dotted path, and each
    non-empty array under its [_array] marker. *)
Fixpoint writesFuel (fuel : nat) : json -> string -> list (string * json) :=
  fix writes (result : json) (prefix : string) {struct result}
    : list (string * json) :=
    match result with
    | JObj fields =>
        match contentArray fields with
        | Some content =>
            match fuel with
            | O => []
            | S fuel' =>
                flat_map
                  (fun item =>
                     match parsedItem item with
                     | Some parsed => writesFuel fuel' parsed prefix
                     | None => []
                     end)
                  content
            end
        | None =>
            flat_map
              (fun entry =>
                 if is_object (snd entry)
                 then writes (snd entry) (dotted prefix (fst entry))
                 else [(fst entry, snd entry);
                       (dotted prefix (fst entry), snd entry)])
              fields
        end
    | JArr (first :: _) =>
        writes first prefix ++ [(prefix +:+ "_array", result)]
    | _ => []
    end.

Lemma fold_left_ext {A B : Type} (f g : A -> B -> A) (l : list B) (a : A) :
  (forall x y, f x y = g x y) -> fold_left f l a = fold_left g l a.
Proof.
  intros Hfg. revert a. induction l as [|y l IH]; intros a; [done|].
  simpl. by rewrite Hfg, IH.
Qed.

Lemma flattenFuel_array (fuel : nat) (first : json) (rest : list json)
    (prefix : string) :
  flattenFuel fuel (JArr (first :: rest)) prefix
  = snd (put (prefix +:+ "_array") (JArr (first :: rest))
             (putAll (false, []) (flattenFuel fuel first prefix))).
Proof. by destruct fuel. Qed.

Lemma flattenFuel_object (fuel : nat) (fields : list (string * json))
    (prefix : string) :
  contentArray fields = None ->
  flattenFuel fuel (JObj fields) prefix
  = snd (fold_left
      (fun flat entry =>
         if is_object (snd entry)
         then putAll flat (flattenFuel fuel (snd entry)
                                       (dotted prefix (fst entry)))
         else put (dotted prefix (fst entry)) (snd entry)
                  (put (fst entry) (snd entry) flat))
      fields (false, [])).
Proof.
  unfold contentArray. intros Hc.
  destruct fuel; simpl;
    by destruct (get_field "content" fields) as [[]|].
Qed.

Lemma flattenFuel_envelope (fuel : nat) (fields : list (string * json))
    (content : list json) (prefix : string) :
  contentArray fields = Some content ->
  flattenFuel (S fuel) (JObj fields) prefix
  = snd (fold_left
      (fun flat item =>
         match parsedItem item with
         | Some parsed => putAll flat (flattenFuel fuel parsed prefix)
         | None => flat
         end)
      content (false, [])).
Proof.
  unfold contentArray. intros Hc. simpl.
  destruct (get_field "content" fields) as [[]|]; try done.
  injection Hc as ->. f_equal. apply fold_left_ext.
  intros flat [| | | | |itemFields]; simpl; try done.
  by destruct (get_field "text" itemFields).
Qed.

Lemma flattenFuel_envelope_0 (fields : list (string * json))
    (content : list json) (prefix : string) :
  contentArray fields = Some content ->
  flattenFuel 0 (JObj fields) prefix = [].
Proof.
  unfold contentArray. intros Hc. simpl.
  by destruct (get_field "content" fields) as [[]|].
Qed.

Lemma writesFuel_array (fuel : nat) (first : json) (rest : list json)
    (prefix : string) :
  writesFuel fuel (JArr (first :: rest)) prefix
  = writesFuel fuel first prefix
    ++ [(prefix +:+ "_array", JArr (first :: rest))].
Proof. by destruct fuel. Qed.

Lemma writesFuel_object (fuel : nat) (fields : list (string * json))
    (prefix : string) :
  contentArray fields = None ->
  writesFuel fuel (JObj fields) prefix
  = flat_map
      (fun entry =>
         if is_object (snd entry)
         then writesFuel fuel (snd entry) (dotted prefix (fst entry))
         else [(fst entry, snd entry); (dotted prefix (fst entry), snd entry)])
      fields.
Proof. intros Hc. destruct fuel; simpl; by rewrite Hc. Qed.

Lemma writesFuel_envelope (fuel : nat) (fields : list (string * json))
    (content : list json) (prefix : string) :
  contentArray fields = Some content ->
  writesFuel (S fuel) (JObj fields) prefix
  = flat_map
      (fun item =>
         match parsedItem item with
         | Some parsed => writesFuel fuel parsed prefix
         | None => []
         end)
      content.
Proof. intros Hc. simpl. by rewrite Hc. Qed.

Lemma writesFuel_envelope_0 (fields : list (string * json))
    (content : list json) (prefix : string) :
  contentArray fields = Some content ->
  writesFuel 0 (JObj fields) prefix = [].
Proof. intros Hc. simpl. by rewrite Hc. Qed.

End Flatten.

(** *** Reading a flattened result *)

Definition keys {V : Type} (l : list (string * V)) : list string :=
  List.map fst l.

Lemma get_field_None {V : Type} (k : string) (l : list (string * V)) :
  k ∉ keys l -> get_field k l = None.
Proof.
  induction l as [|[k' v'] l IH]; intros Hk; [done|]. simpl.
  destruct (String.eqb_spec k' k) as [->|Hne].
  - exfalso. apply Hk. by left.
  - apply IH. intros Hin. apply Hk. by right.
Qed.

Lemma set_field_keys {V : Type} (k : string) (v : V) (l : list (string * V)) :
  NoDup (keys l) ->
  NoDup (keys (set_field k v l)) /\
  (forall k', k' ∈ keys (set_field k v l) -> k' = k \/ k' ∈ keys l).
Proof.
  induction l as [|[k0 v0] l IH]; intros Hnd; simpl.
  - split; [repeat constructor; by intros ?%elem_of_nil|].
    intros k' Hk'. left. by apply list_elem_of_singleton in Hk'.
  - apply NoDup_cons in Hnd as [Hk0 Hnd].
    destruct (String.eqb_spec k0 k) as [->|Hne]; simpl.
    + split; [by constructor|]. intros k' Hk'. by right.
    + destruct (IH Hnd) as [IHnd IHin]. split.
      * constructor; [|done]. intros Hin.
        destruct (IHin _ Hin) as [->|Hin']; done.
      * intros k' Hk'. apply elem_of_cons in Hk' as [-> | Hk'].
        -- right. by left.
        -- destruct (IHin _ Hk') as [->|Hin']; [by left|]. right. by right.
Qed.

Lemma insert_index_keys {V : Type} (n : Z) (k : string) (v : V)
    (l : list (string * V)) :
  k ∉ keys l -> NoDup (keys l) ->
  NoDup (keys (insert_index n k v l)) /\
  (forall k', k' ∈ keys (insert_index n k v l) -> k' = k \/ k' ∈ keys l).
Proof.
  induction l as [|[k0 v0] l IH]; intros Hk Hnd; simpl.
  - split; [repeat constructor; by intros ?%elem_of_nil|].
    intros k' Hk'. left. by apply list_elem_of_singleton in Hk'.
  - assert (NoDup (keys ((k, v) :: (k0, v0) :: l)) /\
            (forall k', k' ∈ keys ((k, v) :: (k0, v0) :: l) ->
                        k' = k \/ k' ∈ keys ((k0, v0) :: l))) as Hfront.
    { split; [by constructor|].
      intros k' Hk'. apply elem_of_cons in Hk' as [->|Hk']; [by left|by right]. }
    destruct (array_index k0) as [m|]; [destruct (m <? n)|]; try exact Hfront.
    apply NoDup_cons in Hnd as [Hk0 Hnd]. simpl.
    destruct (IH (fun Hin => Hk (list_elem_of_further _ _ _ Hin)) Hnd)
      as [IHnd IHin].
    split.
    + constructor; [|done]. intros Hin.
      destruct (IHin _ Hin) as [->|Hin']; [|done]. apply Hk. by left.
    + intros k' Hk'. apply elem_of_cons in Hk' as [->|Hk'].
      * right. by left.
      * destruct (IHin _ Hk') as [->|Hin']; [by left|]. right. by right.
Qed.

Lemma get_field_keys {V : Type} (k : string) (l : list (string * V)) :
  get_field k l = None -> k ∉ keys l.
Proof.
  induction l as [|[k0 v0] l IH]; simpl.
  - intros _ Hin. by apply elem_of_nil in Hin.
  - destruct (String.eqb_spec k0 k) as [->|Hne]; [done|].
    intros Hl Hin. apply elem_of_cons in Hin as [->|Hin]; [done|].
    by apply IH.
Qed.

Lemma define_keys {V : Type} (k : string) (v : V) (l : list (string * V)) :
  NoDup (keys l) ->
  NoDup (keys (define k v l)) /\
  (forall k', k' ∈ keys (define k v l) -> k' = k \/ k' ∈ keys l).
Proof.
  intros Hnd. unfold define.
  destruct (get_field k l) eqn:Hl; [by apply set_field_keys|].
  destruct (array_index k); [|by apply set_field_keys].
  apply insert_index_keys; [by apply get_field_keys|done].
Qed.

Lemma Forall_define {V : Type} (P : string * V -> Prop) (k : string) (v : V)
    (l : list (string * V)) :
  P (k, v) -> Forall P l -> Forall P (define k v l).
Proof.
  intros Hv Hl. unfold define.
  assert (Forall P (set_field k v l)) as Hset.
  { induction Hl as [|[k' v'] l Hv' Hl IH]; simpl.
    - by constructor.
    - destruct (String.eqb k' k); by constructor. }
  destruct (get_field k l); [done|].
  destruct (array_index k) as [n|]; [|done].
  clear Hset. induction Hl as [|[k' v'] l Hv' Hl IH]; simpl.
  - by constructor.
  - destruct (array_index k') as [m|]; [destruct (m <? n)|];
      repeat constructor; done.
Qed.

Lemma assign_keys {V : Type} (target source : list (string * V)) :
  NoDup (keys target) -> NoDup (keys (assign target source)).
Proof.
  unfold assign. revert target.
  induction source as [|[k v] source IH]; intros target Hnd; [done|].
  simpl. apply IH. by apply set_field_keys.
Qed.

Lemma lastWrite_None {V : Type} (k : string) (ws : list (string * V)) :
  k ∉ keys ws -> lastWrite k ws = None.
Proof.
  induction ws as [|[k' v'] ws IH]; intros Hk; [done|].
  rewrite lastWrite_cons, IH.
  - destruct (String.eqb_spec k' k) as [->|Hne]; [|done].
    exfalso. apply Hk. by left.
  - intros Hin. apply Hk. by right.
Qed.

Lemma lastWrite_get {V : Type} (k : string) (l : list (string * V)) :
  NoDup (keys l) -> lastWrite k l = get_field k l.
Proof.
  induction l as [|[k' v'] l IH]; intros Hnd; [done|].
  apply NoDup_cons in Hnd as [Hk' Hnd].
  rewrite lastWrite_cons. simpl.
  destruct (String.eqb_spec k' k) as [->|Hne].
  - by rewrite lastWrite_None.
  - rewrite IH; [|done]. by destruct (get_field k l).
Qed.

Lemma lastWrite_is_Some {V : Type} (k : string) (v : V)
    (ws : list (string * V)) :
  (k, v) ∈ ws -> is_Some (lastWrite k ws).
Proof.
  induction ws as [|[k' v'] ws IH]; intros Hin.
  - by apply elem_of_nil in Hin.
  - rewrite lastWrite_cons. apply elem_of_cons in Hin as [Heq|Hin].
    + injection Heq as <- <-. rewrite String.eqb_refl.
      by destruct (lastWrite k ws).
    + destruct (IH Hin) as [w ->]. by exists w.
Qed.

(** *** Assignments to [flat] *)

(** Under a key other than ["__proto__"], [flat] holds what the last
    assignment to that key stored. *)
Lemma get_put (k k' : string) (v : json) (flat : Flat) :
  k <> "__proto__" ->
  get_field k (snd (put k' v flat))
  = if String.eqb k' k then Some v else get_field k (snd flat).
Proof.
  intros Hk. destruct flat as [bare entries]. unfold put.
  assert (String.eqb "__proto__" k = false) as Hproto_k
    by by apply String.eqb_neq, not_eq_sym.
  destruct (String.eqb_spec k' "__proto__") as [->|Hproto];
    [destruct bare|]; cbn [andb negb snd].
  - rewrite Hproto_k. by apply get_define_ne, not_eq_sym.
  - rewrite Hproto_k. by destruct v.
  - destruct (String.eqb_spec k' k) as [->|Hne];
      [apply get_define_eq|by apply get_define_ne].
Qed.

Lemma get_putAll (k : string) (flat : Flat) (source : list (string * json)) :
  k <> "__proto__" ->
  get_field k (snd (putAll flat source))
  = match lastWrite k source with
    | Some v => Some v
    | None => get_field k (snd flat)
    end.
Proof.
  intros Hk. unfold putAll. revert flat.
  induction source as [|[k' v'] source IH]; intros flat; [done|].
  simpl. rewrite IH, lastWrite_cons.
  destruct (lastWrite k source); [done|]. rewrite get_put by done.
  by destruct (String.eqb k' k).
Qed.

Lemma put_keys (k : string) (v : json) (flat : Flat) :
  NoDup (keys (snd flat)) -> NoDup (keys (snd (put k v flat))).
Proof.
  destruct flat as [bare entries]. unfold put. intros Hnd.
  destruct (String.eqb k "__proto__" && negb bare).
  - by destruct v.
  - by apply define_keys.
Qed.

Lemma putAll_keys (flat : Flat) (source : list (string * json)) :
  NoDup (keys (snd flat)) -> NoDup (keys (snd (putAll flat source))).
Proof.
  unfold putAll. revert flat.
  induction source as [|[k v] source IH]; intros flat Hnd; [done|].
  simpl. apply IH. by apply put_keys.
Qed.

Section Readback.
Context `{JsHost}.

Lemma fold_left_keys {B : Type} (f : Flat -> B -> Flat) (l : list B)
    (flat : Flat) :
  (forall flat b, NoDup (keys (snd flat)) -> NoDup (keys (snd (f flat b)))) ->
  NoDup (keys (snd flat)) -> NoDup (keys (snd (fold_left f l flat))).
Proof.
  intros Hf. revert flat. induction l as [|b l IH]; intros flat Hflat; [done|].
  simpl. by apply IH, Hf.
Qed.

Lemma flattenFuel_keys (fuel : nat) (result : json) (prefix : string) :
  NoDup (keys (flattenFuel fuel result prefix)).
Proof.
  assert (NoDup (keys (@nil (string * json)))) as Hnil by constructor.
  destruct result as [| | | |[|first rest]|fields];
    try (destruct fuel; exact Hnil).
  - rewrite flattenFuel_array. by apply put_keys, putAll_keys.
  - destruct (contentArray fields) as [content|] eqn:Hc.
    + destruct fuel as [|fuel].
      * by rewrite (flattenFuel_envelope_0 _ _ _ Hc).
      * rewrite (flattenFuel_envelope _ _ _ _ Hc).
        apply fold_left_keys; [|done]. intros flat item Hflat.
        destruct (parsedItem item); [|done]. by apply putAll_keys.
    + rewrite (flattenFuel_object _ _ _ Hc).
      apply fold_left_keys; [|done]. intros flat entry Hflat.
      destruct (is_object (snd entry)).
      * by apply putAll_keys.
      * by apply put_keys, put_keys.
Qed.

(** Merging a flattened value into [flat]. *)
Lemma get_putAll_flatten (fuel : nat) (value : json) (prefix k : string)
    (flat : Flat) :
  k <> "__proto__" ->
  get_field k (flattenFuel fuel value prefix)
  = lastWrite k (writesFuel fuel value prefix) ->
  get_field k (snd (putAll flat (flattenFuel fuel value prefix)))
  = match lastWrite k (writesFuel fuel value prefix) with
    | Some v => Some v
    | None => get_field k (snd flat)
    end.
Proof.
  intros Hk IH. rewrite get_putAll, lastWrite_get by (done || apply flattenFuel_keys).
  by rewrite IH.
Qed.

(** [flatten_lastWrite] for arrays and plain objects, given it for
    envelopes. *)
Lemma flatten_lastWrite_struct (fuel : nat) (k : string) :
  k <> "__proto__" ->
  (forall fields content prefix,
      contentArray fields = Some content ->
      get_field k (flattenFuel fuel (JObj fields) prefix)
      = lastWrite k (writesFuel fuel (JObj fields) prefix)) ->
  forall result prefix,
    get_field k (flattenFuel fuel result prefix)
    = lastWrite k (writesFuel fuel result prefix).
Proof.
  intros Hk Henvelope.
  induction result as [| | | |items IH|fields IH] using json_ind';
    intros prefix; try (by destruct fuel).
  - destruct items as [|first rest]; [by destruct fuel|].
    rewrite flattenFuel_array, writesFuel_array, lastWrite_app, lastWrite_cons.
    change (lastWrite k []) with (@None json). cbv iota. simpl fst.
    rewrite get_put by done.
    destruct (String.eqb (prefix +:+ "_array") k); [done|].
    rewrite (get_putAll_flatten _ _ _ _ _ Hk (Forall_inv IH prefix)).
    by destruct (lastWrite k _).
  - destruct (contentArray fields) as [content|] eqn:Hc;
      [by apply (Henvelope fields content)|].
    rewrite (flattenFuel_object _ _ _ Hc), (writesFuel_object _ _ _ Hc).
    clear Hc.
    enough (forall flat : Flat,
      get_field k
        (snd (fold_left
           (fun flat entry =>
              if is_object (snd entry)
              then putAll flat (flattenFuel fuel (snd entry)
                                  (dotted prefix (fst entry)))
              else put (dotted prefix (fst entry)) (snd entry)
                       (put (fst entry) (snd entry) flat))
           fields flat))
      = match lastWrite k
                (flat_map
                   (fun entry =>
                      if is_object (snd entry)
                      then writesFuel fuel (snd entry)
                                      (dotted prefix (fst entry))
                      else [(fst entry, snd entry);
                            (dotted prefix (fst entry), snd entry)])
                   fields) with
        | Some v => Some v
        | None => get_field k (snd flat)
        end) as Hloop.
    { rewrite Hloop. by destruct (lastWrite k _). }
    induction fields as [|entry fields IHfields]; intros flat; [done|].
    apply Forall_cons in IH as [IHentry IHrest].
    simpl. rewrite (IHfields IHrest), lastWrite_app.
    destruct (lastWrite k (flat_map _ fields)); [done|].
    destruct (is_object (snd entry)).
    + by apply get_putAll_flatten.
    + rewrite !lastWrite_cons.
      change (lastWrite k []) with (@None json). cbv iota. simpl fst.
      rewrite !get_put by done.
      destruct (String.eqb (dotted prefix (fst entry)) k); [done|].
      by destruct (String.eqb (fst entry) k).
Qed.

(** Under each key but ["__proto__"], the flattened result holds the last
    value written. *)
Lemma flatten_lastWrite (fuel : nat) (result : json) (prefix k : string) :
  k <> "__proto__" ->
  get_field k (flattenFuel fuel result prefix)
  = lastWrite k (writesFuel fuel result prefix).
Proof.
  intros Hk. revert result prefix. induction fuel as [|fuel IHfuel];
    apply flatten_lastWrite_struct; try done; intros fields content prefix Hc.
  - by rewrite (flattenFuel_envelope_0 _ _ _ Hc),
               (writesFuel_envelope_0 _ _ _ Hc).
  - rewrite (flattenFuel_envelope _ _ _ _ Hc),
            (writesFuel_envelope _ _ _ _ Hc).
    enough (forall flat : Flat,
      get_field k
        (snd (fold_left
           (fun flat item =>
              match parsedItem item with
              | Some parsed => putAll flat (flattenFuel fuel parsed prefix)
              | None => flat
              end)
           content flat))
      = match lastWrite k
                (flat_map
                   (fun item =>
                      match parsedItem item with
                      | Some parsed => writesFuel fuel parsed prefix
                      | None => []
                      end)
                   content) with
        | Some v => Some v
        | None => get_field k (snd flat)
        end) as Hloop.
    { rewrite Hloop. by destruct (lastWrite k _). }
    clear Hc.
    induction content as [|item content IHcontent]; intros flat; [done|].
    simpl. rewrite IHcontent, lastWrite_app.
    destruct (lastWrite k (flat_map _ content)); [done|].
    destruct (parsedItem item) as [parsed|]; [|done].
    by apply get_putAll_flatten.
Qed.

End Readback.

(** *** Leaves *)

Section Leaves.
Context `{JsHost}.

(** [leaf fuel result prefix key path value]: the walk of [result] under
    [prefix] reaches a non-object [value] stored under [key], whose dotted
    path is [path]. *)
Inductive leaf : nat -> json -> string -> string -> string -> json -> Prop :=
| leaf_entry fuel fields prefix key value :
    contentArray fields = None ->
    (key, value) ∈ fields ->
    is_object value = false ->
    leaf fuel (JObj fields) prefix key (dotted prefix key) value
| leaf_below fuel fields prefix name child key path value :
    contentArray fields = None ->
    (name, child) ∈ fields ->
    is_object child = true ->
    leaf fuel child (dotted prefix name) key path value ->
    leaf fuel (JObj fields) prefix key path value
| leaf_first fuel first rest prefix key path value :
    leaf fuel first prefix key path value ->
    leaf fuel (JArr (first :: rest)) prefix key path value
| leaf_text fuel fields content item parsed prefix key path value :
    contentArray fields = Some content ->
    item ∈ content ->
    parsedItem item = Some parsed ->
    leaf fuel parsed prefix key path value ->
    leaf (S fuel) (JObj fields) prefix key path value.

Lemma leaf_written (fuel : nat) (result : json) (prefix key path : string)
    (value : json) :
  leaf fuel result prefix key path value ->
  (key, value) ∈ writesFuel fuel result prefix /\
  (path, value) ∈ writesFuel fuel result prefix.
Proof.
  induction 1 as
    [ fuel fields prefix key value Hc Hin Hobj
    | fuel fields prefix name child key path value Hc Hin Hobj _ [IHk IHp]
    | fuel first rest prefix key path value _ [IHk IHp]
    | fuel fields content item parsed prefix key path value Hc Hin Hparsed _
        [IHk IHp] ].
  - rewrite (writesFuel_object _ _ _ Hc).
    split; apply list_elem_of_In, in_flat_map; exists (key, value);
      (split; [by apply list_elem_of_In|]); simpl; rewrite Hobj;
      [by left | right; by left].
  - rewrite (writesFuel_object _ _ _ Hc).
    split; apply list_elem_of_In, in_flat_map; exists (name, child);
      (split; [by apply list_elem_of_In|]); simpl; rewrite Hobj;
      by apply list_elem_of_In.
  - rewrite writesFuel_array. split; apply elem_of_app; by left.
  - rewrite (writesFuel_envelope _ _ _ _ Hc).
    split; apply list_elem_of_In, in_flat_map; exists item;
      (split; [by apply list_elem_of_In|]); rewrite Hparsed;
      by apply list_elem_of_In.
Qed.

(** The dotted path of a leaf whose key is not ["__proto__"] is not
    ["__proto__"] either: it is the key, or holds a dot. *)
Lemma includes_dot (prefix key : string) :
  includes (prefix +:+ "." +:+ key) "." = true.
Proof.
  induction prefix as [|c prefix IH]; [by destruct key|].
  change (String c prefix +:+ "." +:+ key)
    with (String c (prefix +:+ "." +:+ key)).
  cbn [includes]. rewrite IH. apply orb_true_r.
Qed.

Lemma dotted_proto (prefix key : string) :
  key <> "__proto__" -> dotted prefix key <> "__proto__".
Proof.
  intros Hkey. unfold dotted. destruct (String.eqb prefix ""); [done|].
  intros Heq. pose proof (includes_dot prefix key) as Hdot.
  rewrite Heq in Hdot. by vm_compute in Hdot.
Qed.

Lemma leaf_path (fuel : nat) (result : json) (prefix key path : string)
    (value : json) :
  leaf fuel result prefix key path value ->
  key <> "__proto__" -> path <> "__proto__".
Proof. induction 1; try done. apply dotted_proto. Qed.

(** C9 (amended).  Every leaf the walk reaches is written under both its
    bare key and its dotted path.  In the flattened result a key other
    than ["__proto__"] holds the value written to it last.  So for a leaf
    whose key is not ["__proto__"] both keys are present; reading the bare
    key yields the leaf's value when every value written under that key is
    the leaf's value, and likewise for the dotted path; when both hold, the
    two reads agree. *)
Theorem flatten_leaf_readback (fuel : nat) (result : json)
    (prefix key path : string) (value : json) :
  leaf fuel result prefix key path value ->
  let writes := writesFuel fuel result prefix in
  let flat := flattenFuel fuel result prefix in
  ((key, value) ∈ writes /\ (path, value) ∈ writes) /\
  (forall k, k <> "__proto__" -> get_field k flat = lastWrite k writes) /\
  (key <> "__proto__" ->
   (is_Some (get_field key flat) /\ is_Some (get_field path flat)) /\
   ((forall v, (key, v) ∈ writes -> v = value) ->
    get_field key flat = Some value) /\
   ((forall v, (path, v) ∈ writes -> v = value) ->
    get_field path flat = Some value)).
Proof.
  intros Hleaf writes flat. subst writes flat.
  destruct (leaf_written _ _ _ _ _ _ Hleaf) as [Hk Hp].
  split; [done|]. split; [intros k Hne; by apply flatten_lastWrite|].
  intros Hkey. pose proof (leaf_path _ _ _ _ _ _ Hleaf Hkey) as Hpath.
  rewrite !flatten_lastWrite by done.
  repeat split.
  - by eapply lastWrite_is_Some.
  - by eapply lastWrite_is_Some.
  - intros Hall. by apply lastWrite_unanimous.
  - intros Hall. by apply lastWrite_unanimous.
Qed.

End Leaves.

End ResourceGraphProofs.

Module ResourceGraphExamples.
Import Js Host ResourceGraph ResourceGraphProofs.

(** [{"user": {"name": "ada"}, "count": 3}] *)
Definition profile_result : json :=
  JObj [("user", JObj [("name", JStr "ada")]); ("count", JNum 3)].

Lemma flatten_leaf_readback_witness :
  get_field "name" (flattenResult profile_result) = Some (JStr "ada") /\
  get_field "user.name" (flattenResult profile_result) = Some (JStr "ada").
Proof.
  assert (leaf (S (weight profile_result)) profile_result "" "name"
               "user.name" (JStr "ada")) as Hleaf.
  { apply (leaf_below _ _ _ "user" (JObj [("name", JStr "ada")]));
      [reflexivity | by left | reflexivity |].
    apply (leaf_entry _ [("name", JStr "ada")] "user" "name" (JStr "ada"));
      [reflexivity | by left | reflexivity]. }
  destruct (flatten_leaf_readback _ _ _ _ _ _ Hleaf) as (_ & _ & Hread).
  destruct Hread as (_ & Hkey & Hpath); [discriminate|].
  split; [apply Hkey | apply Hpath]; intros v Hv; vm_compute in Hv;
    repeat (apply elem_of_cons in Hv as [Hv|Hv]; [congruence|]);
    by apply elem_of_nil in Hv.
Defined.

(** [{"a": {"id": 1}, "b": {"id": 2}}] *)
Definition two_ids : json :=
  JObj [("a", JObj [("id", JNum 1)]); ("b", JObj [("id", JNum 2)])].

(** C9 as stated fails: the leaf [id] of [a] reads back as 1 by its dotted
    path and as 2 by its bare key. *)
Lemma flatten_bare_key_differs :
  leaf (S (weight two_ids)) two_ids "" "id" "a.id" (JNum 1) /\
  get_field "a.id" (flattenResult two_ids) = Some (JNum 1) /\
  get_field "id" (flattenResult two_ids) = Some (JNum 2).
Proof.
  split; [|by vm_compute].
  apply (leaf_below _ _ _ "a" (JObj [("id", JNum 1)]));
    [reflexivity | by left | reflexivity |].
  apply (leaf_entry _ [("id", JNum 1)] "a" "id" (JNum 1));
    [reflexivity | by left | reflexivity].
Qed.

End ResourceGraphExamples.

(** ** Proxy interceptor: a request that cannot be forwarded *)

Module McpProxyProofs.
Import Js McpProxy.
Import UserProfiles (outcome, Returns, Throws).

(** The guards on the fragment of the embedding, as the schemas of the
    SDK define them: the [params] of a request, when present, and the
    [result] of a response are objects whose [_meta], when present, is an
    object; the [progressToken] of the [_meta] of a request, when present,
    is a string or a number.  Used to run the proxy on examples. *)
Definition meta_ok (token_checked : bool) (fields : list (string * json))
  : bool :=
  match get_field "_meta" fields with
  | None => true
  | Some (JObj meta) =>
      negb token_checked ||
      match get_field "progressToken" meta with
      | None | Some (JStr _) | Some (JNum _) => true
      | Some _ => false
      end
  | Some _ => false
  end.

#[export] Instance schema_sdk : McpSdk :=
  {| isJSONRPCRequest := fun _ _ params =>
       match params with
       | None => true
       | Some (JObj fields) => meta_ok true fields
       | Some _ => false
       end;
     isJSONRPCResponse := fun _ result =>
       match result with
       | JObj fields => meta_ok false fields
       | _ => false
       end |}.

Section WithSdk.
Context {sdk : McpSdk}.

(** The [catch] callback answers the client when its connection is open,
    and never touches the correlation table. *)
Lemma send_catch_effect (w : World) (id : RequestId) (method : string)
    (params : option json) (error : JsError) :
  isJSONRPCRequest id method params = true ->
  transportToClientClosed (proxy w) = false ->
  let w' := transportToServer_send_catch (request id method params) error w in
  toClient (proxy w')
  = toClient (proxy w)
    ++ [send (error_response id (-32001) (message error)
                             (Some (data_error error)))] /\
  pendingRequests (proxy w') = pendingRequests (proxy w).
Proof. intros Hrequest Hopen. simpl. by rewrite Hrequest, Hopen. Qed.

(** A request whose forwarding fails is answered with the synthesized
    error, and its entry stays in the correlation table. *)
Lemma send_failure_keeps_entry (w : World) (id : RequestId) (method : string)
    (params : option json) (toolName : option string) (error : JsError) :
  isJSONRPCRequest id method params = true ->
  toolNameOf method params = Returns toolName ->
  transportToClientClosed (proxy w) = false ->
  let m := request id method params in
  let w' := transportToServer_send_catch m error
              (transportToClient_onmessage m w) in
  toClient (proxy w')
  = toClient (proxy w)
    ++ [send (error_response id (-32001) (message error)
                             (Some (data_error error)))] /\
  pendingRequests (proxy w') !! id
  = Some {| r_method := method; r_toolName := toolName |}.
Proof.
  intros Hrequest Hname Hopen m w'. subst m w'.
  assert (transportToClientClosed
            (proxy (transportToClient_onmessage (request id method params) w))
          = false) as Hopen'.
  { unfold transportToClient_onmessage. by rewrite Hrequest, Hname. }
  destruct (send_catch_effect
              (transportToClient_onmessage (request id method params) w)
              id method params error Hrequest Hopen') as [-> ->].
  unfold transportToClient_onmessage. rewrite Hrequest, Hname. simpl.
  split; [done|]. apply lookup_insert_eq.
Qed.

End WithSdk.

Definition fresh_world : World :=
  {| proxy := mcpProxy;
     resourceIndexer := ResourceIndexer.empty_index;
     profileManager :=
       {| UserProfiles.profiles := []; UserProfiles.activeProfileId := None;
          UserProfiles.file := None |} |}.

Definition request_42 : Message :=
  request (inl 42) "tools/call"
          (Some (JObj [("name", JStr "search"); ("arguments", JObj [])])).

Definition ECONNRESET : JsError :=
  {| message := "ECONNRESET"; cause := None |}.

(** C5, scenario S6.  The client is answered with the synthesized error
    for id 42; entry 42 is still in the correlation table. *)
Theorem S6_entry_retained :
  let w := transportToServer_send_catch request_42 ECONNRESET
             (transportToClient_onmessage request_42 fresh_world) in
  toServer (proxy w) = [send request_42] /\
  toClient (proxy w)
  = [send (error_response (inl 42) (-32001) "ECONNRESET"
                          (Some (data_error ECONNRESET)))] /\
  pendingRequests (proxy w) !! inl 42
  = Some {| r_method := "tools/call"; r_toolName := Some "search" |}.
Proof.
  destruct (send_failure_keeps_entry (sdk := schema_sdk) fresh_world
              (inl 42) "tools/call"
              (Some (JObj [("name", JStr "search"); ("arguments", JObj [])]))
              (Some "search") ECONNRESET eq_refl eq_refl eq_refl)
    as [Hclient Hentry].
  intros w. split; [reflexivity|]. split; [exact Hclient | exact Hentry].
Qed.

End McpProxyProofs.

(** ** Agent orchestrator *)

Module AgentOrchestratorProofs.
Import Js LlmClient AgentOrchestrator.
Import UserProfiles (outcome, Returns, Throws).

(** *** Source labels and depths *)

Lemma split_prefix (t rest : string) :
  includes t "." = false ->
  List.hd EmptyString (split "." (t +:+ "." +:+ rest)) = t.
Proof.
  induction t as [|c t IH]; intros Hdot; [reflexivity|].
  simpl in Hdot. apply orb_false_elim in Hdot as [Hc Hdot].
  change ((String c t +:+ "." +:+ rest))
    with (String c (t +:+ "." +:+ rest)).
  simpl. destruct (Ascii.eqb_spec c ".") as [->|_];
    [by destruct t|].
  specialize (IH Hdot).
  destruct (split "." (t +:+ "." +:+ rest)) as [|h tl]; simpl in *;
    by rewrite IH.
Qed.

Lemma split_whole (t : string) :
  includes t "." = false -> List.hd EmptyString (split "." t) = t.
Proof.
  induction t as [|c t IH]; intros Hdot; [done|].
  simpl in Hdot. apply orb_false_elim in Hdot as [Hc Hdot].
  simpl. destruct (Ascii.eqb_spec c ".") as [->|_];
    [by destruct t|].
  specialize (IH Hdot).
  destruct (split "." t) as [|h tl]; simpl in *; by rewrite IH.
Qed.

(** [max(ds, default 0)] *)
Definition maxOr0 (ds : list Z) : Z :=
  match ds with
  | [] => 0
  | d :: ds' => fold_left Z.max ds' d
  end.

(** The recorded depth of the source tool of a label, 0 when unknown. *)
Definition sourceDepth (toolDepths : gmap string Z) (ps : string * string) : Z :=
  default 0 (toolDepths !! sourceToolOf (snd ps)).

Lemma resolveSources_fold (g : ResourceGraph.ResourceGraph)
    (toolDepths : gmap string Z) (srcs : list (string * string))
    (acc : Z * list (string * string)) :
  fst (fold_left
         (fun acc ps =>
            let '(maxSourceDepth, paramSources) := acc in
            let '(param, source) := ps in
            let sourceTool := sourceToolOf source in
            let paramSources :=
              match ResourceGraph.getToolNodeId sourceTool g with
              | Some sourceNodeId => store param sourceNodeId paramSources
              | None => paramSources
              end in
            let sourceDepth := default 0 (toolDepths !! sourceTool) in
            (Z.max maxSourceDepth sourceDepth, paramSources))
         srcs acc)
  = fold_left Z.max (List.map (sourceDepth toolDepths) srcs) (fst acc).
Proof.
  revert acc. induction srcs as [|[param source] srcs IH]; intros [m ps];
    [done|].
  simpl. by rewrite IH.
Qed.

Lemma resolveSources_depth (g : ResourceGraph.ResourceGraph)
    (toolDepths : gmap string Z) (srcs : list (string * string)) :
  (forall k d, toolDepths !! k = Some d -> 1 <= d) ->
  fst (resolveSources g toolDepths srcs)
  = maxOr0 (List.map (sourceDepth toolDepths) srcs).
Proof.
  intros Hpos. unfold resolveSources. rewrite resolveSources_fold. simpl.
  destruct srcs as [|ps srcs]; [done|]. simpl. f_equal.
  unfold sourceDepth.
  destruct (toolDepths !! _) as [d|] eqn:Hd; simpl; [|done].
  specialize (Hpos _ _ Hd). lia.
Qed.

Lemma fold_max_le (ds : list Z) (d : Z) : d <= fold_left Z.max ds d.
Proof.
  revert d. induction ds as [|x ds IH]; intros d; simpl; [lia|].
  specialize (IH (Z.max d x)). lia.
Qed.

Lemma resolveSources_nonneg (g : ResourceGraph.ResourceGraph)
    (toolDepths : gmap string Z) (srcs : list (string * string)) :
  0 <= fst (resolveSources g toolDepths srcs).
Proof.
  unfold resolveSources. rewrite resolveSources_fold. apply fold_max_le.
Qed.

(** *** What holds of the local variables of a running loop *)

(** Recorded depths are at least 1 and belong to executed tools. *)
Definition locals_ok (l : Locals) : Prop :=
  (forall k d, toolDepths l !! k = Some d -> 1 <= d) /\
  (forall k d, toolDepths l !! k = Some d -> k ∈ executedTools l).

Definition await_ok (a : Await) : Prop :=
  match a with
  | await_selectNextTool l _ => locals_ok l
  | await_extractParameters l _ toolInfo _ =>
      locals_ok l /\ name toolInfo ∈ executedTools l /\
      toolDepths l !! name toolInfo = None
  | await_toolCallFn l _ _ _ _ _ _ => locals_ok l
  | _ => True
  end.

Definition next_ok (n : Next) : Prop :=
  match n with
  | Suspended a => await_ok a
  | _ => True
  end.

Lemma loopHead_ok (now : Z) (l : Locals) (o : AgentOrchestrator) :
  locals_ok l -> next_ok (snd (loopHead now l o)).
Proof.
  intros Hl. unfold loopHead.
  destruct (status (state o)); try done.
  by destruct (abortController o) as [[]|].
Qed.

Lemma throwOut_ok (origin : Origin) (now : Z) (message : string)
    (o : AgentOrchestrator) :
  next_ok (snd (throwOut origin now message o)).
Proof. destruct origin; simpl; [|done]. by destruct (negb _). Qed.

Lemma processExtraction_ok (now : Z) (l : Locals)
    (context : list (string * json)) (toolInfo : ToolInfo) (nodeId : string)
    (extraction : option ExtractedParams) (o : AgentOrchestrator) :
  await_ok (await_extractParameters l context toolInfo nodeId) ->
  locals_ok (snd (fst (processExtraction now l toolInfo nodeId extraction o))).
Proof.
  intros (Hl & Hexec & Hfresh). unfold processExtraction.
  destruct (_ && _); [done|].
  pose proof (resolveSources_nonneg (graph o) (toolDepths l)
                (default [] (extraction ≫= sources))) as Hnonneg.
  destruct (resolveSources _ _ _) as [m ps]. simpl in Hnonneg.
  assert (locals_ok
            {| tools := tools l; executedTools := executedTools l;
               toolDepths := <[name toolInfo := m + 1]> (toolDepths l) |})
    as Hl'.
  { destruct Hl as [Hpos Hin]. split; simpl; intros k d Hk.
    - destruct (decide (name toolInfo = k)) as [<-|Hne].
      + rewrite lookup_insert_eq in Hk. injection Hk as <-. lia.
      + rewrite lookup_insert_ne in Hk by done. by eapply Hpos.
    - destruct (decide (name toolInfo = k)) as [<-|Hne]; [done|].
      rewrite lookup_insert_ne in Hk by done. by eapply Hin. }
  by destruct (maxDepth (state o) <? m + 1).
Qed.

Section Reachable.
Context `{JsHost}.

Lemma resumeLoop_ok (origin : Origin) (now : Z) (a : Await) (r : Answer)
    (o o' : AgentOrchestrator) (n : Next) :
  await_ok a -> resumeLoop origin now a r o = Some (o', n) -> next_ok n.
Proof.
  intros Ha Hrun.
  destruct a as [ | ts | l context | l context toolInfo nid
                | l toolInfo nid paramSources toolDepth stepState stepIndex ],
           r; simpl in Hrun; try done;
    injection Hrun as Hrun; apply (f_equal snd) in Hrun; simpl in Hrun;
    subst n.
  - (* listTools *)
    unfold afterListTools. destruct r; [done|apply throwOut_ok].
  - (* analyzeToolDependencies *)
    unfold afterAnalyze. destruct r; [|apply throwOut_ok].
    apply loopHead_ok.
    split; intros k d Hk; simpl in Hk; by rewrite lookup_empty in Hk.
  - (* selectNextTool *)
    unfold afterSelect.
    destruct r as [[[nextTool|] reason]|message];
      [|done|apply throwOut_ok].
    destruct (String.eqb nextTool ""); [done|].
    destruct (existsb _ (executedTools l)) eqn:Hexec;
      [by apply loopHead_ok|].
    assert (locals_ok
              {| tools := tools l;
                 executedTools := executedTools l ++ [nextTool];
                 toolDepths := toolDepths l |}) as Hl'.
    { destruct Ha as [Hpos Hin]. split; simpl; [done|].
      intros k d Hk. apply elem_of_app. left. by eapply Hin. }
    destruct (List.find _ (tools l)) as [toolInfo|] eqn:Hfind;
      [|by apply loopHead_ok].
    apply find_some in Hfind as [_ Hname].
    apply String.eqb_eq in Hname.
    destruct (ResourceGraph.addPendingTool _ _ _) as [nodeId g]. simpl.
    split; [done|]. split.
    + simpl. apply elem_of_app. right. rewrite Hname. by left.
    + simpl. destruct (toolDepths l !! name toolInfo) as [d|] eqn:Hd; [|done].
      exfalso. destruct Ha as [_ Hin]. apply Hin in Hd.
      apply not_true_iff_false in Hexec. apply Hexec, existsb_exists.
      exists (name toolInfo). split; [by apply list_elem_of_In|].
      rewrite Hname. apply String.eqb_refl.
  - (* extractParameters *)
    unfold afterExtract. destruct r as [extraction|message];
      [|apply throwOut_ok].
    pose proof (processExtraction_ok now l context toolInfo nid extraction
                  o Ha) as Hl'.
    destruct (processExtraction _ _ _ _ _ _) as [[o1 l1] [|? ? ? ?]];
      simpl in Hl'; [by apply loopHead_ok|done].
  - (* toolCallFn *)
    unfold afterToolCall. by apply loopHead_ok.
Qed.

(** The [await]s a loop can be suspended at, whatever the answers it gets
    and whatever happens to the orchestrator between them. *)
Inductive reachable : Await -> Prop :=
| reach_first : reachable await_listTools
| reach_next a a' origin now r o o' :
    reachable a ->
    resumeLoop origin now a r o = Some (o', Suspended a') ->
    reachable a'.

Lemma reachable_ok (a : Await) : reachable a -> await_ok a.
Proof.
  induction 1 as [|a a' origin now r o o' _ IH Hrun]; [done|].
  exact (resumeLoop_ok _ _ _ _ _ _ _ IH Hrun).
Qed.

End Reachable.

(** [start()] installs a new initial state: a [maxDepth] configured before
    it is replaced by the default 10. *)
Lemma start_resets_maxDepth (now : Z) (p : option LLMProvider) (d : option Z)
    (o o' : AgentOrchestrator) (n : Next) :
  start now (configure p d o) = Returns (o', n) ->
  maxDepth (state o') = 10 /\ status (state o') = running.
Proof.
  unfold start. simpl.
  destruct (status _); try done; by intros [= <- _].
Qed.

(** *** Stopping *)

(** What [stop()] itself does. *)
Lemma stop_effect (now : Z) (o : AgentOrchestrator) :
  status (state (stop now o)) = idle /\
  endTime (state (stop now o)) = Some now /\
  executionHistory (state (stop now o)) = executionHistory (state o) /\
  emitted (stop now o)
  = emitted o ++ [ {| ev_data := status_change idle; ev_timestamp := now |} ].
Proof. done. Qed.

(** A loop that reaches the head of its [while] after a [stop()] runs the
    code after the loop: the status becomes [completed] and
    [agent_complete] is emitted. *)
Lemma loopHead_after_stop (now later : Z) (l : Locals) (o : AgentOrchestrator) :
  let o' := fst (loopHead later l (stop now o)) in
  status (state o') = completed /\
  endTime (state o') = Some later /\
  exists e, emitted o' = emitted (stop now o) ++ [e] /\
            ev_type e = "agent_complete".
Proof. simpl. repeat split. by eexists. Qed.

(** *** The two guards of an iteration *)

Definition no_tool_call (cs : list Call) : Prop :=
  forall n ps, call_toolCallFn n ps ∉ cs.

Lemma loopHead_calls (now : Z) (l : Locals) (o : AgentOrchestrator) :
  exists cs, calls (fst (loopHead now l o)) = calls o ++ cs /\ no_tool_call cs.
Proof.
  assert (no_tool_call []) as Hnil by (intros n ps Hin; by apply elem_of_nil in Hin).
  assert (exists cs, calls (fst (finish now l o)) = calls o ++ cs
                     /\ no_tool_call cs) as Hfinish.
  { exists []. split; [|done]. simpl. by rewrite app_nil_r. }
  unfold loopHead. destruct (status (state o)); try done.
  destruct (abortController o) as [[]|]; try done;
    eexists [_]; (split; [reflexivity|]); intros n ps Hin;
    by apply list_elem_of_singleton in Hin.
Qed.

Lemma Qlt_bool_true (x y : Q) : Qlt_bool x y = true <-> (x < y)%Q.
Proof.
  unfold Qlt_bool. rewrite negb_true_iff, <- not_true_iff_false, Qle_bool_iff.
  split; [apply Qnot_le_lt | apply Qlt_not_le].
Qed.

Lemma confidence_guard_true (missing : list string) (conf : Q) :
  (0 <? length missing)%nat && Qlt_bool conf (1 # 2) = true
  <-> missing <> [] /\ (conf < 1 # 2)%Q.
Proof.
  rewrite andb_true_iff, Qlt_bool_true, Nat.ltb_lt.
  destruct missing; simpl; split; intros [? ?]; split; try done; lia.
Qed.

Lemma markToolSkipped_node (nodeId reason : string) (missing : list string)
    (g : ResourceGraph.ResourceGraph) (node : ResourceGraph.ResourceNode) :
  get_field nodeId (ResourceGraph.nodes g) = Some node ->
  exists node',
    get_field nodeId
      (ResourceGraph.nodes (ResourceGraph.markToolSkipped nodeId reason missing g))
    = Some node' /\
    ResourceGraph.status node' = ResourceGraph.skipped /\
    ResourceGraph.name node' = ResourceGraph.name node.
Proof.
  intros Hnode. unfold ResourceGraph.markToolSkipped, ResourceGraph.updateNode.
  rewrite Hnode. simpl. eexists. split; [apply ResourceGraphProofs.get_set_eq|].
  done.
Qed.

Lemma processExtraction_calls (now : Z) (l : Locals) (toolInfo : ToolInfo)
    (nodeId : string) (extraction : option ExtractedParams)
    (o : AgentOrchestrator) :
  calls (fst (fst (processExtraction now l toolInfo nodeId extraction o)))
  = calls o.
Proof.
  unfold processExtraction. destruct (_ && _); [done|].
  destruct (resolveSources _ _ _) as [m ps].
  by destruct (maxDepth (state o) <? m + 1).
Qed.

(** An iteration left by [continue] calls no tool. *)
Lemma afterExtract_skip (origin : Origin) (now : Z) (l l1 : Locals)
    (toolInfo : ToolInfo) (nodeId : string)
    (extraction : option ExtractedParams) (o o1 o2 : AgentOrchestrator)
    (next : Next) :
  processExtraction now l toolInfo nodeId extraction o = (o1, l1, skip) ->
  afterExtract origin now l toolInfo nodeId (Returns extraction) o = (o2, next) ->
  exists cs, calls o2 = calls o ++ cs /\ no_tool_call cs.
Proof.
  intros Hproc Hafter. unfold afterExtract in Hafter. rewrite Hproc in Hafter.
  destruct (loopHead_calls now l1 o1) as (cs & Hcalls & Hno).
  exists cs. split; [|done].
  rewrite Hafter in Hcalls. simpl in Hcalls. rewrite Hcalls.
  by rewrite <- (processExtraction_calls now l toolInfo nodeId extraction o),
             Hproc.
Qed.

Section Guards.
Context `{JsHost}.

(** The depth step in general, [Y] being what [state.maxDepth] holds when
    the step is reached (for C1, see scenario S3 in the examples).  In an
    iteration that reaches the depth step, the depth of the
    tool is 1 plus the greatest recorded depth of its source tools, a
    source tool being named by the token before the first ['.'] of the
    label, an unknown tool counting for 0, and the maximum being 0 without
    sources.  The tool has no recorded depth before, and the depth is
    recorded under its name.  When the depth exceeds [maxDepth], the tool is
    flagged with reason ["Exceeds max depth (X > Y)"], its graph node is
    marked skipped, [tool_skipped] is emitted and the tool is not called. *)
Theorem depth_guard (origin : Origin) (now : Z) (l : Locals)
    (context : list (string * json)) (toolInfo : ToolInfo) (nodeId : string)
    (extraction : option ExtractedParams) (o o1 o2 : AgentOrchestrator)
    (l1 : Locals) (decision : Decision) (next : Next) :
  reachable (await_extractParameters l context toolInfo nodeId) ->
  processExtraction now l toolInfo nodeId extraction o = (o1, l1, decision) ->
  afterExtract origin now l toolInfo nodeId (Returns extraction) o = (o2, next) ->
  let missing := default [] (extraction ≫= missingParams) in
  let conf := default (0 : Q) (extraction ≫= confidence) in
  ~ (missing <> [] /\ (conf < 1 # 2)%Q) ->
  let toolDepth :=
    1 + maxOr0 (List.map (sourceDepth (toolDepths l))
                         (default [] (extraction ≫= sources))) in
  (forall t rest, includes t "." = false ->
     sourceToolOf t = t /\ sourceToolOf (t +:+ "." +:+ rest) = t) /\
  toolDepths l !! name toolInfo = None /\
  toolDepths l1 = <[name toolInfo := toolDepth]> (toolDepths l) /\
  (maxDepth (state o) < toolDepth ->
   flaggedTools (state o1)
   = flaggedTools (state o)
     ++ [ {| f_toolName := name toolInfo; f_missingParams := [];
             f_reason :=
               "Exceeds max depth (" +:+ string_of_Z toolDepth +:+ " > "
               +:+ string_of_Z (maxDepth (state o)) +:+ ")";
             f_nodeId := nodeId |} ] /\
   (forall node,
      get_field nodeId (ResourceGraph.nodes (graph o)) = Some node ->
      exists node',
        get_field nodeId (ResourceGraph.nodes (graph o1)) = Some node' /\
        ResourceGraph.status node' = ResourceGraph.skipped /\
        ResourceGraph.name node' = ResourceGraph.name node) /\
   emitted o1
   = emitted o
     ++ [ {| ev_data := tool_skipped_reason (name toolInfo) "Exceeds max depth";
             ev_timestamp := now |} ] /\
   decision = skip /\
   exists cs, calls o2 = calls o ++ cs /\ no_tool_call cs).
Proof.
  intros Hreach Hproc Hafter missing conf Hguard toolDepth.
  apply reachable_ok in Hreach as ([Hpos Hin] & Hexec & Hfresh).
  apply (not_iff_compat (confidence_guard_true missing conf)) in Hguard.
  apply not_true_iff_false in Hguard.
  assert (decision = skip ->
          exists cs, calls o2 = calls o ++ cs /\ no_tool_call cs) as Hskip.
  { intros ->. by eapply afterExtract_skip. }
  clear Hafter.
  unfold processExtraction in Hproc. fold missing conf in Hproc.
  rewrite Hguard in Hproc.
  pose proof (resolveSources_depth (graph o) (toolDepths l)
                (default [] (extraction ≫= sources)) Hpos) as Hdepth.
  destruct (resolveSources _ _ _) as [m ps]. simpl in Hdepth.
  assert (m + 1 = toolDepth) as Hm by (subst toolDepth; lia).
  rewrite Hm in Hproc.
  split; [|split; [done|]].
  { intros t rest Hdot. unfold sourceToolOf.
    by rewrite split_whole, split_prefix. }
  destruct (maxDepth (state o) <? toolDepth) eqn:Hcmp;
    injection Hproc as <- <- <-; (split; [done|]).
  - intros _. repeat split; try done.
    + intros node Hnode. simpl. by apply markToolSkipped_node.
    + by apply Hskip.
  - intros Hexceeds. apply Z.ltb_ge in Hcmp. lia.
Qed.

(** C6 (amended).  With a non-empty [missingParams]: when
    [confidence < 0.5] the tool is flagged with reason ["Could not resolve
    required parameters from available context"], its graph node is marked
    skipped, [tool_skipped] is emitted and the tool is not called; when
    [confidence] is not below 0.5 (0.6 for one) this guard adds no flag and
    the iteration goes on to the depth step: the tool is called when its
    depth does not exceed [maxDepth], and skipped by the depth guard
    otherwise. *)
Theorem confidence_guard (origin : Origin) (now : Z) (l : Locals)
    (context : list (string * json)) (toolInfo : ToolInfo) (nodeId : string)
    (extraction : option ExtractedParams) (o o1 o2 : AgentOrchestrator)
    (l1 : Locals) (decision : Decision) (next : Next) :
  reachable (await_extractParameters l context toolInfo nodeId) ->
  processExtraction now l toolInfo nodeId extraction o = (o1, l1, decision) ->
  afterExtract origin now l toolInfo nodeId (Returns extraction) o = (o2, next) ->
  let missing := default [] (extraction ≫= missingParams) in
  let conf := default (0 : Q) (extraction ≫= confidence) in
  let extractedParams := default [] (extraction ≫= params) in
  let reason :=
    "Could not resolve required parameters from available context" in
  let toolDepth :=
    1 + maxOr0 (List.map (sourceDepth (toolDepths l))
                         (default [] (extraction ≫= sources))) in
  missing <> [] ->
  ((conf < 1 # 2)%Q ->
   flaggedTools (state o1)
   = flaggedTools (state o)
     ++ [ {| f_toolName := name toolInfo; f_missingParams := missing;
             f_reason := reason; f_nodeId := nodeId |} ] /\
   (forall node,
      get_field nodeId (ResourceGraph.nodes (graph o)) = Some node ->
      exists node',
        get_field nodeId (ResourceGraph.nodes (graph o1)) = Some node' /\
        ResourceGraph.status node' = ResourceGraph.skipped /\
        ResourceGraph.name node' = ResourceGraph.name node) /\
   emitted o1
   = emitted o
     ++ [ {| ev_data := tool_skipped_missing (name toolInfo) missing;
             ev_timestamp := now |} ] /\
   decision = skip /\
   exists cs, calls o2 = calls o ++ cs /\ no_tool_call cs) /\
  (~ (conf < 1 # 2)%Q ->
   (forall f, f ∈ flaggedTools (state o1) ->
      f ∈ flaggedTools (state o) \/ f_reason f <> reason) /\
   (toolDepth <= maxDepth (state o) ->
    (exists paramSources stepIndex,
       decision = invoke extractedParams paramSources toolDepth stepIndex) /\
    calls o2
    = calls o ++ [call_toolCallFn (name toolInfo) extractedParams]) /\
   (maxDepth (state o) < toolDepth ->
    decision = skip /\
    exists cs, calls o2 = calls o ++ cs /\ no_tool_call cs)).
Proof.
  intros Hreach Hproc Hafter missing conf extractedParams reason toolDepth
         Hmissing.
  apply reachable_ok in Hreach as ([Hpos Hin] & Hexec & Hfresh).
  assert (decision = skip ->
          exists cs, calls o2 = calls o ++ cs /\ no_tool_call cs) as Hskip.
  { intros ->. by eapply afterExtract_skip. }
  unfold afterExtract in Hafter. rewrite Hproc in Hafter.
  unfold processExtraction in Hproc.
  fold missing conf extractedParams in Hproc.
  pose proof (confidence_guard_true missing conf) as Hguard.
  split.
  - intros Hlow.
    assert ((0 <? length missing)%nat && Qlt_bool conf (1 # 2) = true) as Hg
      by by apply Hguard.
    rewrite Hg in Hproc. injection Hproc as <- <- <-.
    repeat split; try done.
    + intros node Hnode. simpl. by apply markToolSkipped_node.
    + by apply Hskip.
  - intros Hhigh.
    assert ((0 <? length missing)%nat && Qlt_bool conf (1 # 2) = false) as Hg.
    { apply not_true_iff_false. intros Hg. apply Hguard in Hg as [_ Hg]. done. }
    rewrite Hg in Hproc.
    pose proof (resolveSources_depth (graph o) (toolDepths l)
                  (default [] (extraction ≫= sources)) Hpos) as Hdepth.
    destruct (resolveSources _ _ _) as [m ps]. simpl in Hdepth.
    assert (m + 1 = toolDepth) as Hm by (subst toolDepth; lia).
    rewrite Hm in Hproc.
    destruct (maxDepth (state o) <? toolDepth) eqn:Hcmp;
      injection Hproc as <- <- <-.
    + apply Z.ltb_lt in Hcmp. repeat split.
      * intros f Hf. simpl in Hf. apply elem_of_app in Hf as [Hf|Hf];
          [by left|right].
        apply list_elem_of_singleton in Hf as ->. simpl. discriminate.
      * lia.
      * lia.
      * by apply Hskip.
    + apply Z.ltb_ge in Hcmp. repeat split.
      * intros f Hf. by left.
      * by eexists _, _.
      * by injection Hafter as <- _.
      * lia.
      * lia.
Qed.

End Guards.

End AgentOrchestratorProofs.

Module AgentOrchestratorExamples.
Import Js LlmClient AgentOrchestrator AgentOrchestratorProofs Host.
Import UserProfiles (outcome, Returns, Throws).

(** A loop launched by [start], fed a script of timed answers. *)
Fixpoint run (script : list (Z * Answer)) (s : AgentOrchestrator * Next)
  : option (AgentOrchestrator * Next) :=
  match script with
  | [] => Some s
  | (now, r) :: rest =>
      match s with
      | (o, Suspended a) =>
          match resumeLoop from_start now a r o with
          | Some s' => run rest s'
          | None => None
          end
      | _ => None
      end
  end.

Lemma run_reachable (script : list (Z * Answer)) (o o' : AgentOrchestrator)
    (a a' : Await) :
  reachable a ->
  run script (o, Suspended a) = Some (o', Suspended a') ->
  reachable a'.
Proof.
  revert o a. induction script as [|[now r] script IH]; intros o a Ha Hrun.
  - simpl in Hrun. by injection Hrun as _ <-.
  - simpl in Hrun.
    destruct (resumeLoop from_start now a r o) as [[o1 n1]|] eqn:Hstep;
      [|done].
    destruct n1 as [a1| |msg|event].
    + apply (IH o1 a1); [|done]. by eapply reach_next.
    + by destruct script as [|[? ?] ?].
    + by destruct script as [|[? ?] ?].
    + by destruct script as [|[? ?] ?].
Qed.

Definition orchestrator_of (s : option (AgentOrchestrator * Next))
  : AgentOrchestrator :=
  match s with
  | Some (o, _) => o
  | None => constructor
  end.

Definition no_locals : Locals :=
  {| tools := []; executedTools := []; toolDepths := ∅ |}.

(** The variables of a loop suspended at [extractParameters]. *)
Definition locals_of (s : option (AgentOrchestrator * Next)) : Locals :=
  match s with
  | Some (_, Suspended (await_extractParameters l _ _ _)) => l
  | Some (_, Suspended (await_selectNextTool l _)) => l
  | _ => no_locals
  end.

Definition context_of (s : option (AgentOrchestrator * Next))
  : list (string * json) :=
  match s with
  | Some (_, Suspended (await_extractParameters _ c _ _)) => c
  | Some (_, Suspended (await_selectNextTool _ c)) => c
  | _ => []
  end.

Definition nodeId_of (s : option (AgentOrchestrator * Next)) : string :=
  match s with
  | Some (_, Suspended (await_extractParameters _ _ _ n)) => n
  | _ => EmptyString
  end.

Definition tool_requiring (n : string) (req : list string) : ToolInfo :=
  {| name := n; description := None;
     inputSchema := {| s_type := "object"; properties := None;
                       required := Some req |} |}.

Definition answer (ps : list (string * json)) (srcs : list (string * string))
    (conf : Q) (missing : list string) : option ExtractedParams :=
  Some {| params := Some ps; sources := Some srcs; confidence := Some conf;
          missingParams := Some missing |}.

(** [start()], then [configure({maxDepth: d})] while the loop awaits the
    tool list ([start] itself resets [maxDepth] to 10). *)
Definition started (d : Z) : AgentOrchestrator * Next :=
  match start 0 (configure None None constructor) with
  | Returns (o, n) => (configure None (Some d) o, n)
  | Throws _ => (constructor, Finished)
  end.

(** *** Scenario S3: [A], then [B] from [A.id], then [C] from [B.id] *)

Definition toolA : ToolInfo := tool_requiring "A" [].
Definition toolB : ToolInfo := tool_requiring "B" ["id"].
Definition toolC : ToolInfo := tool_requiring "C" ["id"].

Definition S3_script : list (Z * Answer) :=
  [ (1, tools_listed (Returns [toolA; toolB; toolC]));
    (2, analyzed (Returns []));
    (3, selected (Returns (Some "A", "no parameters")));
    (4, extracted (Returns (answer [] [] 1 [])));
    (5, tool_returned (Returns (JObj [("id", JStr "a-1")])));
    (6, selected (Returns (Some "B", "id known")));
    (7, extracted (Returns (answer [("id", JStr "a-1")] [("id", "A.id")]
                                   (9 # 10) [])));
    (8, tool_returned (Returns (JObj [("id", JStr "b-1")])));
    (9, selected (Returns (Some "C", "id known"))) ].

(** The loop awaiting the parameters of [C]. *)
Definition S3_before_C : option (AgentOrchestrator * Next) :=
  run S3_script (started 2).

(** Its orchestrator, local variables, context and graph node. *)
Definition S3_orchestrator : AgentOrchestrator :=
  Eval vm_compute in orchestrator_of S3_before_C.
Definition S3_locals : Locals := Eval vm_compute in locals_of S3_before_C.
Definition S3_context : list (string * json) :=
  Eval vm_compute in context_of S3_before_C.
Definition S3_nodeId : string := Eval vm_compute in nodeId_of S3_before_C.

Lemma S3_before_C_reachable :
  reachable (await_extractParameters S3_locals S3_context toolC S3_nodeId).
Proof.
  apply (run_reachable S3_script (fst (started 2)) S3_orchestrator
           await_listTools).
  - constructor.
  - vm_compute. reflexivity.
Qed.

Example S3_depths :
  toolDepths S3_locals !! "A" = Some 1 /\
  toolDepths S3_locals !! "B" = Some 2 /\
  List.map depth (executionHistory (state S3_orchestrator)) = [1; 2] /\
  maxDepth (state S3_orchestrator) = 2.
Proof. vm_compute. repeat split; reflexivity. Qed.

Lemma triple_eta {A B C : Type} (p : A * B * C) :
  p = (fst (fst p), snd (fst p), snd p).
Proof. by destruct p as [[? ?] ?]. Qed.

Lemma pair_eta {A B : Type} (p : A * B) : p = (fst p, snd p).
Proof. by destruct p. Qed.

(** [C] is given its [id] from [B.id], with high confidence. *)
Definition S3_answer_C : option ExtractedParams :=
  answer [("id", JStr "b-1")] [("id", "B.id")] (9 # 10) [].

Lemma depth_guard_witness :
  let body :=
    processExtraction 10 S3_locals toolC S3_nodeId S3_answer_C
                      S3_orchestrator in
  toolDepths S3_locals !! "C" = None /\
  toolDepths (snd (fst body)) !! "C" = Some 3 /\
  flaggedTools (state (fst (fst body)))
  = [ {| f_toolName := "C"; f_missingParams := [];
         f_reason := "Exceeds max depth (3 > 2)"; f_nodeId := "tool_C_9" |} ] /\
  snd body = skip.
Proof.
  intros body.
  destruct (depth_guard from_start 10 S3_locals S3_context toolC S3_nodeId
              S3_answer_C S3_orchestrator
              (fst (fst body))
              (fst (afterExtract from_start 10 S3_locals toolC S3_nodeId
                      (Returns S3_answer_C) S3_orchestrator))
              (snd (fst body)) (snd body)
              (snd (afterExtract from_start 10 S3_locals toolC S3_nodeId
                      (Returns S3_answer_C) S3_orchestrator))
              S3_before_C_reachable (triple_eta _) (pair_eta _))
    as (_ & Hfresh & Hdepth & Hexceeds).
  - intros [Hmissing _]. by apply Hmissing.
  - destruct Hexceeds as (Hflag & _ & _ & Hskip & _); [by vm_compute|].
    split; [exact Hfresh|]. split; [|split; [|exact Hskip]].
    + rewrite Hdepth, lookup_insert_eq. by vm_compute.
    + rewrite Hflag. by vm_compute.
Defined.

(** *** Scenario S3 as specified: [configure({maxDepth: 2})], then [start()] *)

Definition configured_2 : AgentOrchestrator :=
  configure None (Some 2) constructor.

Definition configured_2_started : AgentOrchestrator * Next :=
  match start 0 configured_2 with
  | Returns s => s
  | Throws _ => (constructor, Finished)
  end.

(** The answers of scenario S3, to the end of the run. *)
Definition S3_to_the_end : list (Z * Answer) :=
  S3_script
  ++ [ (10, extracted (Returns S3_answer_C));
       (11, tool_returned (Returns (JObj [("id", JStr "c-1")])));
       (12, selected (Returns (None, "all tools executed"))) ].

Definition S3_as_specified : AgentOrchestrator :=
  Eval vm_compute in
    orchestrator_of (run S3_to_the_end configured_2_started).

(** C1, scenario S3.  [configure] sets [maxDepth] to 2, and [start()]
    replaces the state by the initial one, whose [maxDepth] is 10: [C],
    whose depth is 3, is not flagged; it is called, as [A] and [B] are. *)
Theorem S3_limit_lost_on_start :
  S3_as_specified
  = orchestrator_of (run S3_to_the_end configured_2_started) /\
  maxDepth (state configured_2) = 2 /\
  start 0 configured_2 = Returns configured_2_started /\
  maxDepth (state (fst configured_2_started)) = 10 /\
  status (state S3_as_specified) = completed /\
  maxDepth (state S3_as_specified) = 10 /\
  flaggedTools (state S3_as_specified) = [] /\
  List.map (fun s => (toolName s, depth s))
           (executionHistory (state S3_as_specified))
  = [("A", 1); ("B", 2); ("C", 3)] /\
  List.filter (fun c => match c with call_toolCallFn _ _ => true | _ => false end)
              (calls S3_as_specified)
  = [call_toolCallFn "A" []; call_toolCallFn "B" [("id", JStr "a-1")];
     call_toolCallFn "C" [("id", JStr "b-1")]].
Proof. split; [by vm_compute|]. by vm_compute. Qed.

(** *** Scenario S4: a tool whose parameter cannot be resolved *)

Definition toolX : ToolInfo := tool_requiring "X" ["x"].

Definition S4_script : list (Z * Answer) :=
  [ (1, tools_listed (Returns [toolX]));
    (2, analyzed (Returns []));
    (3, selected (Returns (Some "X", "only tool"))) ].

(** The loop awaiting the parameters of [X]. *)
Definition S4_before_X : option (AgentOrchestrator * Next) :=
  run S4_script (started 10).

Definition S4_orchestrator : AgentOrchestrator :=
  Eval vm_compute in orchestrator_of S4_before_X.
Definition S4_locals : Locals := Eval vm_compute in locals_of S4_before_X.
Definition S4_context : list (string * json) :=
  Eval vm_compute in context_of S4_before_X.
Definition S4_nodeId : string := Eval vm_compute in nodeId_of S4_before_X.

Lemma S4_before_X_reachable :
  reachable (await_extractParameters S4_locals S4_context toolX S4_nodeId).
Proof.
  apply (run_reachable S4_script (fst (started 10)) S4_orchestrator
           await_listTools).
  - constructor.
  - vm_compute. reflexivity.
Qed.

Lemma confidence_guard_witness :
  let low := answer [] [] (2 # 10) ["x"] in
  let high := answer [] [] (6 # 10) ["x"] in
  flaggedTools
    (state (fst (fst (processExtraction 4 S4_locals toolX S4_nodeId low
                        S4_orchestrator))))
  = [ {| f_toolName := "X"; f_missingParams := ["x"];
         f_reason :=
           "Could not resolve required parameters from available context";
         f_nodeId := "tool_X_3" |} ] /\
  calls (fst (afterExtract from_start 4 S4_locals toolX S4_nodeId
                (Returns high) S4_orchestrator))
  = calls S4_orchestrator ++ [call_toolCallFn "X" []].
Proof.
  intros low high. split.
  - destruct (confidence_guard from_start 4 S4_locals S4_context toolX
                S4_nodeId low S4_orchestrator _ _ _ _ _
                S4_before_X_reachable (triple_eta _) (pair_eta _))
      as [Hlow _]; [done|].
    destruct Hlow as (Hflag & _); [by vm_compute|].
    rewrite Hflag. by vm_compute.
  - destruct (confidence_guard from_start 4 S4_locals S4_context toolX
                S4_nodeId high S4_orchestrator _ _ _ _ _
                S4_before_X_reachable (triple_eta _) (pair_eta _))
      as [_ Hhigh]; [done|].
    destruct Hhigh as (_ & Hcall & _); [by vm_compute|].
    destruct Hcall as [_ Hcalls]; [by vm_compute|].
    exact Hcalls.
Defined.

(** C6 as stated fails: in scenario S3 the answer for [C] has confidence
    0.6 and a non-empty [missingParams]; the confidence guard does not
    fire, and [C] does not proceed to execution. *)
Lemma confident_answer_not_executed :
  let ext := answer [("id", JStr "b-1")] [("id", "B.id")] (6 # 10) ["x"] in
  let after :=
    afterExtract from_start 10 S3_locals toolC S3_nodeId (Returns ext)
                 S3_orchestrator in
  ~ (6 # 10 < 1 # 2)%Q /\
  snd (processExtraction 10 S3_locals toolC S3_nodeId ext S3_orchestrator)
  = skip /\
  List.map f_reason (flaggedTools (state (fst after)))
  = ["Exceeds max depth (3 > 2)"] /\
  List.filter (fun c => match c with call_toolCallFn _ _ => true | _ => false end)
              (calls (fst after))
  = [call_toolCallFn "A" []; call_toolCallFn "B" [("id", JStr "a-1")]].
Proof. split; [by vm_compute|]. by vm_compute. Qed.

(** *** Scenario S5: [stop()] while [selectNextTool] is in flight *)

Definition S5_script : list (Z * Answer) :=
  [ (1, tools_listed (Returns [toolA]));
    (2, analyzed (Returns [])) ].

(** The loop awaiting the first selection. *)
Definition S5_running : option (AgentOrchestrator * Next) :=
  run S5_script (started 10).

(** [stop()] at time 5. *)
Definition S5_stopped : AgentOrchestrator :=
  Eval vm_compute in stop 5 (orchestrator_of S5_running).

(** The answers that arrive after the stop. *)
Definition S5_late : list (Z * Answer) :=
  [ (6, selected (Returns (Some "A", "no parameters")));
    (7, extracted (Returns (answer [] [] 1 [])));
    (8, tool_returned (Returns (JObj [("id", JStr "a-1")]))) ].

Definition S5_final : AgentOrchestrator :=
  Eval vm_compute in
    orchestrator_of
      (run S5_late
           (S5_stopped,
            Suspended (await_selectNextTool (locals_of S5_running)
                                            (context_of S5_running)))).

(** C4, scenario S5.  The stop leaves the agent idle with [endTime] set;
    the late answers are not discarded: the loop goes on, starts and calls
    a tool, emits three more events and sets the status to [completed]. *)
Theorem S5_events_after_stop :
  S5_stopped = stop 5 (orchestrator_of S5_running) /\
  S5_final
  = orchestrator_of
      (run S5_late
           (S5_stopped,
            Suspended (await_selectNextTool (locals_of S5_running)
                                            (context_of S5_running)))) /\
  status (state S5_stopped) = idle /\
  endTime (state S5_stopped) = Some 5 /\
  abortController S5_stopped = Some true /\
  List.map ev_type (skipn (length (emitted S5_stopped)) (emitted S5_final))
  = ["tool_start"; "tool_complete"; "agent_complete"] /\
  skipn (length (calls S5_stopped)) (calls S5_final)
  = [call_extractParameters toolA []; call_toolCallFn "A" []] /\
  status (state S5_final) = completed /\
  endTime (state S5_final) = Some 8.
Proof.
  split; [by vm_compute|]. split; [by vm_compute|]. by vm_compute.
Qed.

(** With no tool left to select, the late answer alone is enough. *)
Example S5_null_answer_after_stop :
  let final :=
    orchestrator_of
      (run [(6, selected (Returns (None, "nothing to do")))]
           (S5_stopped,
            Suspended (await_selectNextTool (locals_of S5_running)
                                            (context_of S5_running)))) in
  List.map ev_type (skipn (length (emitted S5_stopped)) (emitted final))
  = ["agent_complete"] /\
  status (state final) = completed.
Proof. by vm_compute. Qed.

End AgentOrchestratorExamples.

(** * Laws of the operations *)

Module UserProfilesLaws.
Import Js UserProfiles.

(** *** Looking a profile up by id *)

Definition hasId (target : string) (p : UserProfile) : bool :=
  String.eqb (id p) target.

(** [findIndex] answers the place of the first profile with the id. *)
Lemma findIndex_split (target : string) (ps : list UserProfile) (i : nat) :
  findIndex target ps = Some i ->
  exists before p after,
    ps = before ++ p :: after /\ length before = i /\ id p = target /\
    Forall (fun q => id q <> target) before.
Proof.
  revert i. induction ps as [|q ps IH]; intros i Hi; [done|].
  simpl in Hi. destruct (String.eqb_spec (id q) target) as [Heq|Hne].
  - injection Hi as <-. by exists [], q, ps.
  - destruct (findIndex target ps) as [j|]; [|done].
    injection Hi as <-.
    destruct (IH j eq_refl) as (before & p & after & -> & <- & Hp & Hbefore).
    exists (q :: before), p, after. repeat split; try done.
    by constructor.
Qed.

Lemma find_split (target : string) (before after : list UserProfile)
    (p : UserProfile) :
  Forall (fun q => id q <> target) before -> id p = target ->
  List.find (hasId target) (before ++ p :: after) = Some p.
Proof.
  intros Hbefore Hp. induction Hbefore as [|q before Hq _ IH]; simpl.
  - unfold hasId. by rewrite Hp, String.eqb_refl.
  - unfold hasId at 1. by apply String.eqb_neq in Hq as ->.
Qed.

Lemma find_none (target : string) (ps : list UserProfile) :
  Forall (fun q => id q <> target) ps -> List.find (hasId target) ps = None.
Proof.
  induction 1 as [|q ps Hq _ IH]; [done|]. simpl.
  unfold hasId at 1. by apply String.eqb_neq in Hq as ->.
Qed.

Lemma findIndex_None (target : string) (ps : list UserProfile) :
  findIndex target ps = None -> Forall (fun q => id q <> target) ps.
Proof.
  induction ps as [|q ps IH]; intros Hi; [constructor|].
  simpl in Hi. destruct (String.eqb_spec (id q) target) as [Heq|Hne]; [done|].
  destruct (findIndex target ps); [done|]. constructor; [done|by apply IH].
Qed.

Lemma getProfile_None (target : string) (m : UserProfileManager) :
  getProfile target m = None -> findIndex target (profiles m) = None.
Proof.
  unfold getProfile. intros Hfind.
  destruct (findIndex target (profiles m)) as [i|] eqn:Hi; [|done].
  destruct (findIndex_split _ _ _ Hi) as (before & p & after & Hps & _ & Hp & Hb).
  rewrite Hps in Hfind.
  change (fun p0 => String.eqb (id p0) target) with (hasId target) in Hfind.
  by rewrite find_split in Hfind.
Qed.

Lemma lookup_middle {A : Type} (before after : list A) (x : A) :
  (before ++ x :: after) !! length before = Some x.
Proof. induction before; simpl; [done|apply IHbefore]. Qed.

Lemma delete_middle_at {A : Type} (before after : list A) (x : A) :
  delete (length before) (before ++ x :: after) = before ++ after.
Proof. induction before as [|y before IH]; simpl; [done|]. by rewrite <- IH. Qed.

Lemma insert_middle_at {A : Type} (before after : list A) (x y : A) :
  <[length before := y]> (before ++ x :: after) = before ++ y :: after.
Proof. induction before as [|z before IH]; simpl; [done|]. by rewrite <- IH. Qed.

(** X1.  [setActiveProfile] on an id that no stored profile has
    raises ["Profile not found: <id>"], and [deleteProfile] on it answers
    [false]; neither changes the profiles, the active id or the file. *)
Theorem unknown_profile_id_rejected (e : Env) (target : string)
    (m : UserProfileManager) :
  getProfile target m = None ->
  setActiveProfile e target m
  = (Throws ("Profile not found: " +:+ target), m) /\
  deleteProfile e target m = (false, m).
Proof.
  intros Hnone. pose proof (getProfile_None _ _ Hnone) as Hindex.
  unfold setActiveProfile, deleteProfile.
  by rewrite Hnone, Hindex.
Qed.

(** X2.  After a successful [updateProfile], [getProfile] on the
    same id answers the profile that [updateProfile] returned; that profile
    keeps the id, is stamped with the clock, and the number of profiles is
    unchanged. *)
Theorem updateProfile_read_back (e : Env) (target : string)
    (data : UpdateProfileInput) (m m' : UserProfileManager) (u : UserProfile) :
  updateProfile e target data m = (Returns u, m') ->
  getProfile target m' = Some u /\ id u = target /\ updatedAt u = now e /\
  length (profiles m') = length (profiles m).
Proof.
  destruct m as [ps a f]. unfold updateProfile. simpl. intros Hupd.
  destruct (findIndex target ps) as [i|] eqn:Hi; [|done].
  destruct (findIndex_split _ _ _ Hi) as (before & p & after & -> & <- & Hp & Hb).
  rewrite lookup_middle in Hupd. injection Hupd as <- <-.
  unfold getProfile. rewrite (proj1 (UserProfilesProofs.saveToFile_profiles _ _)).
  simpl. rewrite insert_middle_at. repeat split; try done.
  - change (fun p0 => String.eqb (id p0) target) with (hasId target).
    by apply find_split.
  - by rewrite !length_app.
Qed.


(** X3.  A successful [deleteProfile] removes the first
    profile that has the id and nothing else; afterwards the active id is
    not the deleted one, and an active id that names another profile is
    kept. *)
Theorem deleteProfile_removes_first (e : Env) (target : string)
    (m m' : UserProfileManager) :
  deleteProfile e target m = (true, m') ->
  (exists before p after,
      profiles m = before ++ p :: after /\ id p = target /\
      Forall (fun q => id q <> target) before /\
      profiles m' = before ++ after) /\
  activeProfileId m' <> Some target /\
  (forall a, a <> target -> activeProfileId m = Some a ->
             activeProfileId m' = Some a).
Proof.
  destruct m as [ps a f]. unfold deleteProfile. simpl. intros Hdel.
  destruct (findIndex target ps) as [i|] eqn:Hi; [|done].
  destruct (findIndex_split _ _ _ Hi) as (before & p & after & -> & <- & Hp & Hb).
  injection Hdel as <-.
  destruct (UserProfilesProofs.saveToFile_profiles e
              {| profiles := delete (length before) (before ++ p :: after);
                 activeProfileId :=
                   match a with
                   | Some a0 => if String.eqb a0 target then None else Some a0
                   | None => None
                   end;
                 file := f |}) as [-> ->].
  simpl. rewrite delete_middle_at. split; [by exists before, p, after|].
  split.
  - destruct a as [a0|]; [|done].
    destruct (String.eqb_spec a0 target); congruence.
  - intros a0 Hne ->. by apply String.eqb_neq in Hne as ->.
Qed.

Lemma find_app_None (target : string) (ps qs : list UserProfile) :
  List.find (hasId target) ps = None ->
  List.find (hasId target) (ps ++ qs) = List.find (hasId target) qs.
Proof.
  induction ps as [|q ps IH]; [done|]. simpl.
  destruct (hasId target q); [done|apply IH].
Qed.

Lemma find_app_Some (target : string) (ps qs : list UserProfile)
    (p : UserProfile) :
  List.find (hasId target) ps = Some p ->
  List.find (hasId target) (ps ++ qs) = Some p.
Proof.
  induction ps as [|q ps IH]; [done|]. simpl.
  destruct (hasId target q); [done|apply IH].
Qed.

(** X4.  When the generated UUID is not the id of a stored
    profile, [getProfile] on the id of the profile that [addProfile]
    returned answers that profile; it is the last of [listProfiles]; every
    other id is looked up as before and the active id is unchanged. *)
Theorem addProfile_read_back (e : Env) (input : CreateProfileInput)
    (m : UserProfileManager) :
  getProfile (randomUUID e 0%nat) m = None ->
  let p := fst (addProfile e input m) in
  let m' := snd (addProfile e input m) in
  getProfile (id p) m' = Some p /\
  listProfiles m' = listProfiles m ++ [p] /\
  (forall other, other <> id p -> getProfile other m' = getProfile other m) /\
  getActiveProfileId m' = getActiveProfileId m.
Proof.
  destruct m as [ps a f]. unfold addProfile, getProfile, listProfiles,
    getActiveProfileId. simpl. intros Hfresh.
  set (p := {| id := randomUUID e 0%nat;
               displayName := c_displayName input;
               colorTag := default blue (c_colorTag input);
               authToken := c_authToken input;
               headers := default [] (c_headers input);
               createdAt := now e; updatedAt := now e |}).
  destruct (UserProfilesProofs.saveToFile_profiles e
              {| profiles := ps ++ [p]; activeProfileId := a; file := f |})
    as [-> ->].
  simpl. repeat split.
  - change (fun p0 => String.eqb (id p0) (randomUUID e 0%nat))
      with (hasId (randomUUID e 0%nat)) in *.
    rewrite find_app_None by done. simpl. unfold hasId. simpl.
    by rewrite String.eqb_refl.
  - intros other Hother.
    change (fun p0 => String.eqb (id p0) other) with (hasId other).
    destruct (List.find (hasId other) ps) as [q|] eqn:Hq.
    + by apply find_app_Some.
    + rewrite find_app_None by done. simpl. unfold hasId. simpl.
      apply not_eq_sym in Hother. by apply String.eqb_neq in Hother as ->.
Qed.

(** *** The headers of the active profile *)

(** X5.  The headers of the active profile, key by key: nothing is
    stored under ["__proto__"]; under another key a custom header of the
    profile wins, also over the token when it is named ["Authorization"];
    otherwise ["Authorization"] is the profile's token when that is a
    non-empty string, and every other key is absent. *)
Theorem getActiveHeaders_lookup (m : UserProfileManager) (p : UserProfile)
    (k : string) :
  getActiveProfile m = Some p ->
  NoDup (ResourceGraphProofs.keys (headers p)) ->
  get_field k (getActiveHeaders m)
  = if String.eqb k "__proto__" then None
    else
      match get_field k (headers p) with
      | Some v => Some v
      | None =>
          if String.eqb k "Authorization" then
            match authToken p with
            | Some token => if String.eqb token "" then None else Some token
            | None => None
            end
          else None
      end.
Proof.
  intros Hactive Hnd. unfold getActiveHeaders. rewrite Hactive.
  destruct (String.eqb_spec k "__proto__") as [->|Hk].
  - rewrite ResourceGraphProofs.get_merge_proto.
    destruct (authToken p) as [token|]; [|done].
    by destruct (String.eqb token "").
  - rewrite ResourceGraphProofs.get_merge, ResourceGraphProofs.lastWrite_get
      by done.
    destruct (get_field k (headers p)); [done|].
    destruct (authToken p) as [token|]; [|by destruct (String.eqb k _)].
    destruct (String.eqb token ""); [by destruct (String.eqb k _)|].
    simpl. by rewrite String.eqb_sym.
Qed.

(** *** The active profile is a stored profile *)

Definition active_known (ps : list UserProfile) (a : option string) : Prop :=
  forall x, a = Some x -> is_Some (List.find (hasId x) ps).

Definition store_ok (m : UserProfileManager) : Prop :=
  active_known (profiles m) (activeProfileId m) /\
  forall d, file m = Some d -> active_known (d_profiles d) (d_activeProfileId d).

(** The managers a server can hold: a first start without a file, the
    public operations, and a restart reading the file last written. *)
Inductive reachable : UserProfileManager -> Prop :=
| reachable_fresh : reachable (loadFromFile None)
| reachable_addProfile e input m :
    reachable m -> reachable (snd (addProfile e input m))
| reachable_updateProfile e target data m :
    reachable m -> reachable (snd (updateProfile e target data m))
| reachable_deleteProfile e target m :
    reachable m -> reachable (snd (deleteProfile e target m))
| reachable_setActiveProfile e target m :
    reachable m -> reachable (snd (setActiveProfile e target m))
| reachable_clearActiveProfile e m :
    reachable m -> reachable (clearActiveProfile e m)
| reachable_restart m : reachable m -> reachable (loadFromFile (file m)).

Lemma saveToFile_ok (e : Env) (m : UserProfileManager) :
  active_known (profiles m) (activeProfileId m) ->
  (forall d, file m = Some d ->
             active_known (d_profiles d) (d_activeProfileId d)) ->
  store_ok (saveToFile e m).
Proof.
  intros Hm Hfile. unfold saveToFile. destruct (fs_ok e); [|done].
  split; simpl; [done|]. by intros d [= <-].
Qed.

Lemma find_is_Some_app (x : string) (ps qs : list UserProfile) :
  is_Some (List.find (hasId x) ps) -> is_Some (List.find (hasId x) (ps ++ qs)).
Proof. intros [p Hp]. exists p. by apply find_app_Some. Qed.

Lemma find_is_Some_ids (x : string) (ps qs : list UserProfile) :
  List.map id ps = List.map id qs ->
  is_Some (List.find (hasId x) ps) -> is_Some (List.find (hasId x) qs).
Proof.
  revert qs. induction ps as [|p ps IH]; intros [|q qs] Hids; try done.
  simpl in Hids. injection Hids as Hid Hids. simpl. unfold hasId at 1 3.
  rewrite Hid. destruct (String.eqb (id q) x); [by eexists|]. by apply IH.
Qed.

Lemma find_is_Some_remove (x target : string) (before after : list UserProfile)
    (p : UserProfile) :
  id p = target -> x <> target ->
  is_Some (List.find (hasId x) (before ++ p :: after)) ->
  is_Some (List.find (hasId x) (before ++ after)).
Proof.
  intros Hp Hx. induction before as [|q before IH]; simpl.
  - unfold hasId at 1. rewrite Hp.
    apply not_eq_sym in Hx. by apply String.eqb_neq in Hx as ->.
  - destruct (hasId x q); [by eexists|done].
Qed.

Lemma reachable_store_ok (m : UserProfileManager) : reachable m -> store_ok m.
Proof.
  induction 1 as [ | e input m _ [IHm IHf] | e target data m _ [IHm IHf]
                 | e target m _ [IHm IHf] | e target m _ [IHm IHf]
                 | e m _ [IHm IHf] | m _ [IHm IHf] ].
  - split; simpl; [by intros x [=]|done].
  - (* addProfile *)
    apply saveToFile_ok; simpl; [|done].
    intros x Hx. by apply find_is_Some_app, IHm.
  - (* updateProfile *)
    unfold updateProfile.
    destruct (findIndex target (profiles m)) as [i|] eqn:Hi; [|done].
    destruct (findIndex_split _ _ _ Hi)
      as (before & p & after & Hps & <- & Hp & Hb).
    rewrite Hps, lookup_middle. simpl.
    apply saveToFile_ok; simpl; [|done].
    rewrite insert_middle_at. intros x Hx.
    apply (find_is_Some_ids x (profiles m)); [|by apply IHm].
    rewrite Hps, !map_app. done.
  - (* deleteProfile *)
    unfold deleteProfile.
    destruct (findIndex target (profiles m)) as [i|] eqn:Hi; [|done].
    destruct (findIndex_split _ _ _ Hi)
      as (before & p & after & Hps & <- & Hp & Hb).
    simpl. apply saveToFile_ok; simpl; [|done].
    rewrite Hps, delete_middle_at. intros x Hx.
    destruct (activeProfileId m) as [a|] eqn:Ha; [|done].
    destruct (String.eqb_spec a target) as [->|Hne]; [done|].
    injection Hx as <-.
    apply (find_is_Some_remove a target before after p Hp Hne).
    rewrite <- Hps. by apply IHm.
  - (* setActiveProfile *)
    unfold setActiveProfile, getProfile.
    destruct (List.find _ (profiles m)) as [p|] eqn:Hp; [|done].
    simpl. apply saveToFile_ok; simpl; [|done].
    intros x [= <-]. by exists p.
  - (* clearActiveProfile *)
    apply saveToFile_ok; simpl; [by intros x [=]|done].
  - (* restart *)
    destruct (file m) as [d|] eqn:Hd; simpl.
    + split; simpl.
      * intros x Hx. apply (IHf d eq_refl).
        destruct (d_activeProfileId d) as [a|]; [|done].
        by destruct (String.eqb a "").
      * intros d' [= <-]. by apply IHf.
    + split; simpl; [by intros x [=]|done].
Qed.

(** X6.  Whatever sequence of the manager's operations and
    restarts from its file led to it, a manager whose active id is set has
    a stored profile with that id. *)
Theorem active_profile_is_stored (m : UserProfileManager) (a : string) :
  reachable m -> getActiveProfileId m = Some a -> is_Some (getProfile a m).
Proof.
  intros Hm Ha. destruct (reachable_store_ok m Hm) as [Hknown _]. by apply Hknown.
Qed.

End UserProfilesLaws.

Module UserProfilesLawsExamples.
Import Js UserProfiles UserProfilesLaws.

Definition carol : UserProfile :=
  {| id := "u-1"; displayName := "Carol"; colorTag := purple;
     authToken := Some "Bearer c";
     headers := [("X-Org", "acme"); ("Authorization", "Basic override")];
     createdAt := 10; updatedAt := 10 |}.

Definition dave : UserProfile :=
  {| id := "u-2"; displayName := "Dave"; colorTag := orange;
     authToken := Some "Bearer d"; headers := [("X-Trace", "1")];
     createdAt := 20; updatedAt := 25 |}.

Definition store : UserProfileManager :=
  {| profiles := [carol; dave]; activeProfileId := Some "u-2"; file := None |}.

Definition clock : Env :=
  {| now := 77; randomUUID := fun _ => "u-3"; fs_ok := true |}.

Definition rename : UpdateProfileInput :=
  {| u_displayName := Some "David"; u_colorTag := None; u_authToken := None;
     u_headers := None; u_id := None; u_createdAt := None;
     u_updatedAt := None |}.

Definition erin : CreateProfileInput :=
  {| c_displayName := "Erin"; c_colorTag := None; c_authToken := None;
     c_headers := None |}.

Lemma unknown_profile_id_rejected_witness :
  setActiveProfile clock "u-9" store
  = (Throws "Profile not found: u-9", store) /\
  deleteProfile clock "u-9" store = (false, store).
Proof. apply (unknown_profile_id_rejected clock "u-9" store). reflexivity. Defined.

Definition david : UserProfile :=
  {| id := "u-2"; displayName := "David"; colorTag := orange;
     authToken := Some "Bearer d"; headers := [("X-Trace", "1")];
     createdAt := 20; updatedAt := 77 |}.

Definition store_renamed : UserProfileManager :=
  {| profiles := [carol; david]; activeProfileId := Some "u-2";
     file := Some {| d_profiles := [carol; david];
                     d_activeProfileId := Some "u-2" |} |}.

Lemma updateProfile_read_back_witness :
  updateProfile clock "u-2" rename store = (Returns david, store_renamed) /\
  getProfile "u-2" store_renamed = Some david.
Proof.
  split; [reflexivity|].
  apply (updateProfile_read_back clock "u-2" rename store store_renamed david).
  reflexivity.
Defined.

Definition store_without_dave : UserProfileManager :=
  {| profiles := [carol]; activeProfileId := None;
     file := Some {| d_profiles := [carol]; d_activeProfileId := None |} |}.

Lemma deleteProfile_removes_first_witness :
  deleteProfile clock "u-2" store = (true, store_without_dave) /\
  activeProfileId store_without_dave <> Some "u-2".
Proof.
  split; [reflexivity|].
  apply (deleteProfile_removes_first clock "u-2" store store_without_dave).
  reflexivity.
Defined.

Lemma addProfile_read_back_witness :
  getProfile "u-3" (snd (addProfile clock erin store))
  = Some (fst (addProfile clock erin store)) /\
  colorTag (fst (addProfile clock erin store)) = blue.
Proof.
  split; [|reflexivity].
  apply (addProfile_read_back clock erin store). reflexivity.
Defined.

Definition carol_active : UserProfileManager :=
  {| profiles := [carol; dave]; activeProfileId := Some "u-1"; file := None |}.

(** Carol's own [Authorization] header replaces her token. *)
Lemma getActiveHeaders_lookup_witness :
  get_field "Authorization" (getActiveHeaders carol_active)
  = Some "Basic override".
Proof.
  refine (eq_trans
            (getActiveHeaders_lookup carol_active carol "Authorization"
               eq_refl _) eq_refl).
  repeat constructor; simpl; intros Hin;
    repeat (apply elem_of_cons in Hin as [Hin|Hin]; [discriminate|]);
    by apply elem_of_nil in Hin.
Defined.

Lemma active_profile_is_stored_witness :
  is_Some
    (getProfile "u-3"
       (snd (setActiveProfile clock "u-3"
               (snd (addProfile clock erin (loadFromFile None)))))).
Proof.
  apply (active_profile_is_stored
           (snd (setActiveProfile clock "u-3"
                   (snd (addProfile clock erin (loadFromFile None)))))
           "u-3").
  - apply reachable_setActiveProfile, reachable_addProfile, reachable_fresh.
  - reflexivity.
Defined.

End UserProfilesLawsExamples.

(** ** Strings *)

Module StringFacts.
Import Js.

Lemma length_append (a b : string) :
  String.length (a +:+ b) = (String.length a + String.length b)%nat.
Proof. induction a as [|c a IH]; simpl; [done|by rewrite IH]. Qed.

Lemma append_cons (c : ascii) (a b : string) :
  String c a +:+ b = String c (a +:+ b).
Proof. reflexivity. Qed.

Lemma append_nil_r (a : string) : a +:+ "" = a.
Proof. induction a as [|c a IH]; [done|by rewrite append_cons, IH]. Qed.

Lemma append_assoc (a b c : string) : (a +:+ b) +:+ c = a +:+ (b +:+ c).
Proof. induction a as [|x a IH]; [done|by rewrite !append_cons, IH]. Qed.

Lemma substring_0_all (s : string) : substring 0 (String.length s) s = s.
Proof. induction s as [|c s IH]; simpl; [done|by rewrite IH]. Qed.

Lemma length_substring_0 (n : nat) (s : string) :
  String.length (substring 0 n s) = Nat.min n (String.length s).
Proof.
  revert n. induction s as [|c s IH]; intros [|n]; simpl; try done.
  by rewrite IH.
Qed.

Lemma substring_0_app (a b : string) :
  substring 0 (String.length a) (a +:+ b) = a.
Proof.
  induction a as [|c a IH]; [by destruct b|].
  rewrite append_cons. simpl. by rewrite IH.
Qed.

Lemma substring_skip (a b : string) (n : nat) :
  substring (String.length a) n (a +:+ b) = substring 0 n b.
Proof. induction a as [|c a IH]; [done|]. rewrite append_cons. exact IH. Qed.

(** Splitting a string at a position. *)
Lemma substring_split (s : string) (n : nat) :
  (n <= String.length s)%nat ->
  s = substring 0 n s +:+ substring n (String.length s - n) s.
Proof.
  revert n. induction s as [|c s IH]; intros [|n] Hn; simpl in *; try done.
  - by rewrite substring_0_all.
  - rewrite append_cons. f_equal. apply IH. lia.
Qed.

Lemma endsWith_app (pre suffix : string) :
  endsWith (pre +:+ suffix) suffix = true.
Proof.
  unfold endsWith. rewrite length_append.
  apply andb_true_intro. split; [apply Nat.leb_le; lia|].
  replace (String.length pre + String.length suffix - String.length suffix)%nat
    with (String.length pre) by lia.
  rewrite substring_skip, substring_0_all. apply String.eqb_refl.
Qed.

Lemma endsWith_inv (s suffix : string) :
  endsWith s suffix = true -> exists pre, s = pre +:+ suffix.
Proof.
  unfold endsWith. intros [Hlen Heq]%andb_prop.
  apply Nat.leb_le in Hlen. apply String.eqb_eq in Heq.
  exists (substring 0 (String.length s - String.length suffix) s).
  rewrite (substring_split s (String.length s - String.length suffix)) at 1
    by lia.
  f_equal.
  replace (String.length s - (String.length s - String.length suffix))%nat
    with (String.length suffix) by lia.
  exact Heq.
Qed.

Lemma endsWith_refl (s : string) : endsWith s s = true.
Proof. exact (endsWith_app "" s). Qed.

Lemma startsWith_app (p rest : string) : startsWith (p +:+ rest) p = true.
Proof.
  unfold startsWith. apply prefix_correct. apply substring_0_app.
Qed.

Lemma drop_string_app (p rest : string) :
  drop_string (String.length p) (p +:+ rest) = rest.
Proof. induction p as [|c p IH]; [done|]. rewrite append_cons. exact IH. Qed.

(** [p] holds of every character of [s]. *)
Fixpoint all_chars (p : ascii -> bool) (s : string) : bool :=
  match s with
  | EmptyString => true
  | String c s' => p c && all_chars p s'
  end.

Lemma all_chars_app (p : ascii -> bool) (a b : string) :
  all_chars p (a +:+ b) = all_chars p a && all_chars p b.
Proof.
  induction a as [|c a IH]; [done|].
  rewrite append_cons. simpl. by rewrite IH, andb_assoc.
Qed.

Lemma rev_string_app (a b : string) :
  rev_string (a +:+ b) = rev_string b +:+ rev_string a.
Proof.
  induction a as [|c a IH]; [by rewrite append_nil_r|].
  rewrite append_cons. simpl. by rewrite IH, append_assoc.
Qed.

Lemma rev_string_involutive (s : string) : rev_string (rev_string s) = s.
Proof.
  induction s as [|c s IH]; [done|]. simpl.
  by rewrite rev_string_app, IH.
Qed.

Lemma all_chars_rev (p : ascii -> bool) (s : string) :
  all_chars p (rev_string s) = all_chars p s.
Proof.
  induction s as [|c s IH]; [done|]. simpl.
  rewrite all_chars_app, IH. simpl. by rewrite andb_true_r, andb_comm.
Qed.

(** Leading white space goes, up to the first other character. *)
Lemma trimStart_spaces (ws rest : string) :
  all_chars is_space ws = true -> trimStart (ws +:+ rest) = trimStart rest.
Proof.
  induction ws as [|c ws IH]; [done|].
  rewrite append_cons. cbn [all_chars trimStart].
  intros [Hc Hws]%andb_prop. rewrite Hc. by apply IH.
Qed.

(** [trim] of a text between two runs of white space, when the text
    neither starts nor ends with white space. *)
Lemma trim_core (before after : string) (first last : ascii) (middle : string) :
  all_chars is_space before = true -> all_chars is_space after = true ->
  is_space first = false -> is_space last = false ->
  trim (before +:+ String first (middle +:+ String last after))
  = String first (middle +:+ String last "").
Proof.
  intros Hbefore Hafter Hfirst Hlast. unfold trim, trimEnd.
  rewrite trimStart_spaces by done. simpl. rewrite Hfirst.
  replace (String first (middle +:+ String last after))
    with ((String first middle +:+ String last "") +:+ after)
    by by rewrite append_assoc.
  rewrite rev_string_app, trimStart_spaces by by rewrite all_chars_rev.
  rewrite rev_string_app. simpl. rewrite Hlast.
  rewrite <- (rev_string_involutive (String first (middle +:+ String last ""))).
  f_equal. simpl. by rewrite rev_string_app.
Qed.

End StringFacts.

(** ** Resource indexer: extraction and attribution *)

Module ResourceIndexerLaws.
Import Js Regex ResourceIndexer StringFacts.

(** *** What [sanitizeContext] keeps *)

(** A string of at most 203 characters, a number or a boolean. *)
Definition scalar_bounded (v : json) : Prop :=
  match v with
  | JStr s => (String.length s <= 203)%nat
  | JNum _ | JBool _ => True
  | _ => False
  end.

Definition context_bounded (ctx : list (string * json)) : Prop :=
  Forall (fun kv => scalar_bounded (snd kv)) ctx.

Lemma sanitizeContext_bounded (obj : list (string * json)) :
  context_bounded (sanitizeContext obj).
Proof.
  induction obj as [|[key value] obj IH]; [constructor|]. simpl.
  destruct (String.eqb key "__proto__");
    destruct value as [| b | n | s | items | entries]; try done;
    try (by constructor);
    destruct (200 <? String.length s)%nat eqn:Hlen; try done;
    constructor; try done; simpl.
  - unfold take_string. rewrite length_append, length_substring_0.
    change (String.length "...") with 3%nat. lia.
  - apply Nat.ltb_ge in Hlen. lia.
Qed.

(** X7.  [sanitizeContext] keeps only strings of at most 203 characters,
    numbers and booleans, and nothing under the key ["__proto__"]; the keys
    it keeps are keys of the object, in the object's order; under a key
    other than ["__proto__"] a number, a boolean and a string of at most
    200 characters are kept as they are. *)
Theorem sanitizeContext_keeps_scalars (obj : list (string * json)) :
  context_bounded (sanitizeContext obj) /\
  sublist (List.map fst (sanitizeContext obj)) (List.map fst obj) /\
  Forall (fun kv => fst kv <> "__proto__") (sanitizeContext obj) /\
  (forall key value,
      (key, value) ∈ obj ->
      key <> "__proto__" ->
      match value with
      | JStr s => (String.length s <= 200)%nat
      | JNum _ | JBool _ => True
      | _ => False
      end ->
      (key, value) ∈ sanitizeContext obj).
Proof.
  split; [apply sanitizeContext_bounded|]. split; [|split].
  - induction obj as [|[key value] obj IH]; [constructor|]. simpl.
    destruct (String.eqb key "__proto__");
      destruct value as [| b | n | s | items | entries]; simpl;
      try (by apply sublist_cons); try (by apply sublist_skip);
      destruct (200 <? String.length s)%nat;
      (by apply sublist_skip) || (by apply sublist_cons).
  - induction obj as [|[key value] obj IH]; [constructor|]. simpl.
    destruct (String.eqb_spec key "__proto__") as [->|Hkey];
      destruct value as [| b | n | s | items | entries]; try done;
      try (by constructor);
      destruct (200 <? String.length s)%nat; try done; by constructor.
  - intros key value Hin Hkey Hvalue.
    induction obj as [|[k v] obj IH]; [by apply elem_of_nil in Hin|].
    apply elem_of_cons in Hin as [[= <- <-]|Hin].
    + simpl. apply String.eqb_neq in Hkey as ->.
      destruct value as [| b | n | s | items | entries]; try done;
        try (by left).
      apply Nat.ltb_ge in Hvalue as ->. by left.
    + specialize (IH Hin). simpl.
      destruct (String.eqb k "__proto__");
        destruct v as [| b | n | s | items | entries]; try done;
        try (by right);
        destruct (200 <? String.length s)%nat; try done; by right.
Qed.

(** *** What [extractIds] emits *)

Lemma detectIdType_known (s : string) : detectIdType s <> Some unknown.
Proof.
  unfold detectIdType.
  repeat match goal with |- context [if ?b then _ else _] => destruct b end;
    done.
Qed.

(** An entry of [results]: its type is the one [detectIdType] gives its
    value, or it is a safe integer above 100 written in decimal; its field
    name is read off its path; its context holds short scalars only. *)
Definition entry_ok (x : ExtractedId) : Prop :=
  (detectIdType (x_id x) = Some (x_type x) \/
   exists n, 100 < n <= MAX_SAFE_INTEGER /\
             x_id x = string_of_Z n /\ x_type x = numeric) /\
  x_type x <> unknown /\
  x_fieldName x = fieldNameOf (x_fieldPath x) /\
  context_bounded (x_parentContext x).

Lemma contextOf_bounded (parentObj : option (list (string * json))) :
  context_bounded (contextOf parentObj).
Proof.
  destruct parentObj; [apply sanitizeContext_bounded|constructor].
Qed.

Lemma extractString_ok (s path : string) (results : list ExtractedId)
    (parentObj : option (list (string * json))) :
  Forall entry_ok results ->
  Forall entry_ok (extractString s path results parentObj).
Proof.
  intros Hres. unfold extractString.
  assert (forall t, detectIdType s = Some t ->
            entry_ok {| x_id := s; x_type := t;
                        x_fieldName := fieldNameOf path; x_fieldPath := path;
                        x_parentContext := contextOf parentObj |}) as Hentry.
  { intros t Ht. repeat split; simpl; [by left| |apply contextOf_bounded].
    intros ->. by apply (detectIdType_known s). }
  destruct (isIdFieldName (fieldNameOf path)).
  - destruct (detectIdType s) as [t|] eqn:Ht.
    + apply Forall_app. split; [done|]. constructor; [by apply Hentry|done].
    + by destruct (_ || _).
  - destruct (_ || _); [|done].
    destruct (detectIdType s) as [t|] eqn:Ht; [|done].
    apply Forall_app. split; [done|]. constructor; [by apply Hentry|done].
Qed.

Lemma extractNumber_ok (n : Z) (path : string) (results : list ExtractedId)
    (parentObj : option (list (string * json))) :
  safe_integer n = true ->
  Forall entry_ok results ->
  Forall entry_ok (extractNumber n path results parentObj).
Proof.
  intros Hsafe Hres. unfold extractNumber.
  destruct (isIdFieldName (fieldNameOf path)); [|done]. simpl.
  destruct (100 <? n) eqn:Hn; [|done].
  apply Forall_app. split; [done|]. constructor; [|done].
  repeat split; simpl; [|done|apply contextOf_bounded].
  right. exists n. apply Z.ltb_lt in Hn.
  apply andb_prop in Hsafe as [_ Hmax%Z.leb_le]. by repeat split.
Qed.

Lemma safe_numbers_entries (entries : list (string * json)) :
  safe_numbers (JObj entries) = true ->
  Forall (fun kv => safe_numbers (snd kv) = true) entries.
Proof.
  induction entries as [|[k x] entries IH]; [constructor|].
  intros [Hx Hrest]%andb_prop. constructor; [done|by apply IH].
Qed.

Lemma safe_numbers_items (items : list json) :
  safe_numbers (JArr items) = true ->
  Forall (fun x => safe_numbers x = true) items.
Proof.
  induction items as [|x items IH]; [constructor|].
  intros [Hx Hrest]%andb_prop. constructor; [done|by apply IH].
Qed.

Lemma extractIds_ok (obj : json) :
  forall path results parentObj,
    safe_numbers obj = true ->
    Forall entry_ok results ->
    Forall entry_ok (extractIds obj path results parentObj).
Proof.
  induction obj as [| b | n | s | items IH | entries IH]
    using ResourceGraphProofs.json_ind';
    intros path results parentObj Hsafe Hres; simpl; try done.
  - by apply extractNumber_ok.
  - by apply extractString_ok.
  - apply safe_numbers_items in Hsafe.
    generalize 0%nat. revert results Hres.
    induction IH as [|item items Hitem _ IHitems]; intros results Hres index;
      [done|].
    apply Forall_cons in Hsafe as [Hsafe_item Hsafe_items].
    apply IHitems; [done|]. by apply Hitem.
  - apply safe_numbers_entries in Hsafe.
    revert results Hres. generalize entries at 1.
    induction IH as [|[key value] es Hvalue _ IHes]; intros objRecord results Hres;
      [done|].
    apply Forall_cons in Hsafe as [Hsafe_value Hsafe_es].
    apply IHes; [done|]. by apply Hvalue.
Qed.

(** X8.  For a response whose numbers are safe integers, every entry
    [extractIds] emits, at any depth of the response, is well formed: its
    type is the one [detectIdType] gives its id, or it is [numeric] with
    the decimal writing of a number above 100 as id; its type is never
    [unknown]; its field name is read off its path; its context holds only
    numbers, booleans and strings of at most 203 characters. *)
Theorem extractIds_entries_well_formed (obj : json) (path : string)
    (parentObj : option (list (string * json))) :
  safe_numbers obj = true ->
  Forall entry_ok (extractIds obj path [] parentObj).
Proof. intros Hsafe. by apply extractIds_ok. Qed.

(** *** Attribution *)

Section Attribution.
Variables (e : UserProfiles.Env) (userProfileId : option string)
          (toolName userName userColor : string).

Local Abbreviation indexLoop :=
  (indexExtracted e userProfileId toolName userName userColor).

(** The resources the loop creates carry the caller's user, tool and
    clock. *)
Definition attributed (r : IndexedResource) : Prop :=
  discoveredFromUser r = userOrAnonymous userProfileId /\
  discoveredByTool r = toolName /\
  timestamp r = UserProfiles.now e.

Lemma indexExtracted_appends (extracted : list ExtractedId)
    (ix : ResourceIndexer) (new : list IndexedResource) :
  exists added,
    snd (indexLoop extracted ix new) = new ++ added /\
    resources (fst (indexLoop extracted ix new)) = resources ix ++ added /\
    file (fst (indexLoop extracted ix new)) = file ix /\
    Forall attributed added.
Proof.
  revert ix new.
  induction extracted as [|x extracted IH]; intros ix new; simpl.
  - exists []. by rewrite !app_nil_r.
  - case_decide as Hseen; [apply IH|].
    edestruct IH as (added & -> & -> & -> & Hadded). simpl.
    eexists (_ :: added). rewrite <- !app_assoc. simpl.
    repeat split. by constructor.
Qed.

(** The new resources depend on the dedup set only. *)
Lemma indexExtracted_seenIds (extracted : list ExtractedId)
    (ix1 ix2 : ResourceIndexer) (new : list IndexedResource) :
  seenIds ix1 = seenIds ix2 ->
  snd (indexLoop extracted ix1 new) = snd (indexLoop extracted ix2 new).
Proof.
  revert ix1 ix2 new.
  induction extracted as [|x extracted IH];
    intros [r1 s1 f1] [r2 s2 f2] new Hseen; [done|].
  simpl in Hseen. subst s2. simpl. case_decide; by apply IH.
Qed.

End Attribution.

Lemma filter_user_attributed (e : UserProfiles.Env)
    (userProfileId : option string) (toolName userId : string)
    (added : list IndexedResource) :
  Forall (attributed e userProfileId toolName) added ->
  List.filter (fun r => String.eqb (discoveredFromUser r) userId) added
  = if String.eqb (userOrAnonymous userProfileId) userId then added else [].
Proof.
  induction 1 as [|r added (Huser & _ & _) _ IH]; simpl.
  - by destruct (String.eqb _ _).
  - rewrite Huser, IH. by destruct (String.eqb _ _).
Qed.

Section Calls.
Context `{JsHost}.

Lemma indexResponse_appends (e : UserProfiles.Env)
    (profileManager : UserProfiles.UserProfileManager)
    (userProfileId : option string) (toolName : string) (response : json)
    (ix : ResourceIndexer) :
  let news := fst (indexResponse e profileManager userProfileId toolName
                                 response ix) in
  let ix' := snd (indexResponse e profileManager userProfileId toolName
                                response ix) in
  resources ix' = resources ix ++ news /\
  Forall (attributed e userProfileId toolName) news.
Proof.
  unfold indexResponse.
  match goal with
  | |- context [indexExtracted e userProfileId toolName ?n ?c ?x ix []] =>
      destruct (indexExtracted_appends e userProfileId toolName n c x ix [])
        as (added & Hnew & Hres & _ & Hattr);
      destruct (indexExtracted e userProfileId toolName n c x ix [])
        as [ix1 new1]
  end.
  simpl in *. subst new1. split; [|done].
  destruct (0 <? length added)%nat; [|done].
  by rewrite (proj1 (ResourceIndexerProofs.saveToFile_fields e ix1)).
Qed.

(** X9.  The resources [indexResponse] returns are the ones it appends to
    the index; each is attributed to the caller's profile id (or
    ["anonymous"]), tool name and clock; [getResourcesByUser] shows them
    under that user, after the ones it showed before, and shows every
    other user what it showed before. *)
Theorem indexResponse_attribution (e : UserProfiles.Env)
    (profileManager : UserProfiles.UserProfileManager)
    (userProfileId : option string) (toolName : string) (response : json)
    (ix : ResourceIndexer) :
  let news := fst (indexResponse e profileManager userProfileId toolName
                                 response ix) in
  let ix' := snd (indexResponse e profileManager userProfileId toolName
                                response ix) in
  getIndexedResources ix' = getIndexedResources ix ++ news /\
  Forall (attributed e userProfileId toolName) news /\
  getResourcesByUser (userOrAnonymous userProfileId) ix'
  = getResourcesByUser (userOrAnonymous userProfileId) ix ++ news /\
  (forall other, other <> userOrAnonymous userProfileId ->
                 getResourcesByUser other ix' = getResourcesByUser other ix).
Proof.
  intros news ix'.
  destruct (indexResponse_appends e profileManager userProfileId toolName
              response ix) as [Hres Hattr].
  fold news ix' in Hres, Hattr.
  unfold getIndexedResources, getResourcesByUser. rewrite Hres.
  repeat split; [done| |].
  - rewrite List.filter_app,
      (filter_user_attributed e userProfileId toolName _ news Hattr).
    by rewrite String.eqb_refl.
  - intros other Hother.
    rewrite List.filter_app,
      (filter_user_attributed e userProfileId toolName _ news Hattr).
    apply not_eq_sym in Hother. apply String.eqb_neq in Hother as ->.
    by rewrite app_nil_r.
Qed.

(** X10.  [clearIndex] empties the index and its dedup memory: the next
    [indexResponse] returns, and leaves in the index, what it returns on a
    new index. *)
Theorem clearIndex_forgets (e e' : UserProfiles.Env)
    (profileManager : UserProfiles.UserProfileManager)
    (userProfileId : option string) (toolName : string) (response : json)
    (ix : ResourceIndexer) :
  getIndexedResources (clearIndex e' ix) = [] /\
  fst (indexResponse e profileManager userProfileId toolName response
                     (clearIndex e' ix))
  = fst (indexResponse e profileManager userProfileId toolName response
                       empty_index) /\
  getIndexedResources
    (snd (indexResponse e profileManager userProfileId toolName response
                        (clearIndex e' ix)))
  = fst (indexResponse e profileManager userProfileId toolName response
                       empty_index).
Proof.
  assert (resources (clearIndex e' ix) = [] /\ seenIds (clearIndex e' ix) = ∅)
    as [Hres Hseen].
  { unfold clearIndex.
    by rewrite (proj1 (ResourceIndexerProofs.saveToFile_fields _ _)),
      (proj2 (ResourceIndexerProofs.saveToFile_fields _ _)). }
  split; [done|].
  assert (fst (indexResponse e profileManager userProfileId toolName response
                 (clearIndex e' ix))
          = fst (indexResponse e profileManager userProfileId toolName response
                   empty_index)) as Hsame.
  { unfold indexResponse.
    match goal with
    | |- context [indexExtracted e userProfileId toolName ?n ?c ?x _ []] =>
        pose proof (indexExtracted_seenIds e userProfileId toolName n c x
                      (clearIndex e' ix) empty_index [] Hseen) as Hnew;
        destruct (indexExtracted e userProfileId toolName n c x
                    (clearIndex e' ix) []) as [ix1 new1];
        destruct (indexExtracted e userProfileId toolName n c x
                    empty_index []) as [ix2 new2]
    end.
    simpl in *. done. }
  split; [done|].
  rewrite <- Hsame.
  destruct (indexResponse_appends e profileManager userProfileId toolName
              response (clearIndex e' ix)) as (Hall & _).
  unfold getIndexedResources. by rewrite Hall, Hres.
Qed.

End Calls.

(** *** Numeric identifiers *)

Lemma test_Star_Cls (p : ascii -> bool) (s : string) :
  test (Star (Cls p)) s = all_chars p s.
Proof.
  induction s as [|c s IH]; [done|]. simpl.
  destruct (p c); simpl; [exact IH|apply ResourceIndexerProofs.test_Void].
Qed.

Lemma test_numeric (s : string) :
  test PATTERNS.numeric s
  = (3 <=? String.length s)%nat && all_chars is_digit s.
Proof.
  unfold PATTERNS.numeric. cbn [times].
  rewrite ResourceIndexerProofs.test_Cat_Cls. destruct s as [|a s]; [done|].
  rewrite ResourceIndexerProofs.test_Cat_Cls.
  destruct s as [|b s]; [simpl; by rewrite andb_false_r|].
  rewrite ResourceIndexerProofs.test_Cat_Cls.
  destruct s as [|c s]; [simpl; by rewrite !andb_false_r|].
  by rewrite test_Star_Cls.
Qed.

Lemma digit_not (c : ascii) :
  is_digit c = true ->
  is_upper c = false /\ is_char "a" c = false /\ is_char "-" c = false.
Proof.
  intros Hd. repeat split.
  - unfold is_digit, is_upper, in_range in *.
    apply andb_prop in Hd as [_ Hhi]. apply Nat.leb_le in Hhi.
    apply andb_false_intro1, Nat.leb_gt.
    change (code "9") with 57%nat in Hhi. change (code "A") with 65%nat. lia.
  - unfold is_char. destruct (Ascii.eqb_spec "a" c) as [<-|]; done.
  - unfold is_char. destruct (Ascii.eqb_spec "-" c) as [<-|]; done.
Qed.

Lemma digits_not_uuid (s : string) :
  all_chars is_digit s = true -> test PATTERNS.uuid s = false.
Proof.
  unfold PATTERNS.uuid, chr. cbn [times]. intros Hs.
  do 8 (rewrite ResourceIndexerProofs.test_Cat_Cls;
        destruct s as [|? s]; [done|];
        cbn [all_chars] in Hs; apply andb_prop in Hs as [_ Hs];
        apply andb_false_intro2).
  rewrite ResourceIndexerProofs.test_Cat_Cls.
  destruct s as [|c s]; [done|].
  cbn [all_chars] in Hs. apply andb_prop in Hs as [Hc _].
  by destruct (digit_not c Hc) as (_ & _ & ->).
Qed.

Lemma digits_not_atlassian (c : ascii) (s : string) :
  is_digit c = true ->
  test PATTERNS.atlassianAri (String c s) = false /\
  test PATTERNS.atlassianKey (String c s) = false.
Proof.
  intros Hc. destruct (digit_not c Hc) as (Hupper & Ha & _).
  unfold PATTERNS.atlassianAri, PATTERNS.atlassianKey, plus, chr.
  cbn [lit test deriv nullable andb]. unfold chr.
  cbn [deriv]. rewrite Hupper, Ha. cbn [cat alt].
  split; apply ResourceIndexerProofs.test_Void.
Qed.

(** X11.  [detectIdType] answers [numeric] exactly for the strings of 3 to
    500 characters that are all decimal digits. *)
Theorem detectIdType_numeric (value : string) :
  detectIdType value = Some numeric <->
  (3 <= String.length value <= 500)%nat /\ all_chars is_digit value = true.
Proof.
  unfold detectIdType. split.
  - destruct (String.length value =? 0)%nat; [done|].
    destruct (500 <? String.length value)%nat eqn:Hlen; [done|].
    apply Nat.ltb_ge in Hlen.
    destruct (test PATTERNS.uuid value); [done|].
    destruct (test PATTERNS.atlassianAri value); [done|].
    destruct (test PATTERNS.atlassianKey value); [done|].
    destruct (test PATTERNS.numeric value) eqn:Hnum.
    + intros _. rewrite test_numeric in Hnum.
      apply andb_prop in Hnum as [H3 Hd]. apply Nat.leb_le in H3. done.
    + destruct (test PATTERNS.path value); [done|].
      by destruct (test PATTERNS.slug value).
  - intros [[H3 H500] Hd].
    destruct value as [|c value]; [simpl in H3; lia|].
    change (String.length (String c value) =? 0)%nat with false. cbv iota.
    apply Nat.ltb_ge in H500 as ->.
    rewrite (digits_not_uuid _ Hd).
    pose proof Hd as Hc. cbn [all_chars] in Hc.
    apply andb_prop in Hc as [Hc _].
    destruct (digits_not_atlassian c value Hc) as [-> ->].
    rewrite test_numeric, Hd. by apply Nat.leb_le in H3 as ->.
Qed.

End ResourceIndexerLaws.

Module ResourceIndexerLawsExamples.
Import Js ResourceIndexer ResourceIndexerLaws.

(** [{"pageId": 98765, "title": "Roadmap", "version": 3}] *)
Definition page : json :=
  JObj [("pageId", JNum 98765); ("title", JStr "Roadmap"); ("version", JNum 3)].

Lemma extractIds_entries_well_formed_witness :
  safe_numbers page = true /\
  List.map x_id (extractIds page "" [] None) = ["98765"] /\
  Forall entry_ok (extractIds page "" [] None).
Proof.
  split; [reflexivity|]. split; [reflexivity|].
  apply (extractIds_entries_well_formed page "" None). reflexivity.
Defined.

End ResourceIndexerLawsExamples.

(** ** LLM clients *)

Module LlmClientLaws.
Import Js LlmClient StringFacts.
Import UserProfiles (outcome, Returns, Throws).

Ltac norm_append :=
  repeat (rewrite append_assoc || rewrite append_cons
          || change (EmptyString +:+ ?x) with x).

Lemma prefix_json_fence (body : string) :
  String.prefix "json" (body +:+ "```") = String.prefix "json" body.
Proof.
  do 4 (destruct body as [|? body]; [by vm_compute|];
        rewrite append_cons; cbn [String.prefix];
        match goal with
        | |- context [ascii_dec ?x ?y] => destruct (ascii_dec x y); [|done]
        end).
  destruct body; [done|by rewrite append_cons].
Qed.

Section WithHost.
Context `{JsHost}.

(** X12.  A reply wrapped in a [```json] fence, or in a plain [```] fence,
    with white space around the fence or not, parses as the text between
    the fences. *)
Theorem parseJSONResponse_fenced (before body after : string) :
  all_chars is_space before = true ->
  all_chars is_space after = true ->
  parseJSONResponse (before +:+ "```json" +:+ body +:+ "```" +:+ after)
  = JSON_parse (trim body) /\
  (startsWith body "json" = false ->
   parseJSONResponse (before +:+ "```" +:+ body +:+ "```" +:+ after)
   = JSON_parse (trim body)).
Proof.
  intros Hbefore Hafter.
  assert (forall opening,
            trim (before +:+ String "`" opening +:+ body +:+ "```" +:+ after)
            = String "`" opening +:+ body +:+ "```") as Htrim.
  { intros opening.
    replace (before +:+ String "`" opening +:+ body +:+ "```" +:+ after)
      with (before +:+
            String "`" ((opening +:+ body +:+ "``") +:+ String "`" after))
      by (by norm_append).
    rewrite trim_core by done. by norm_append. }
  unfold parseJSONResponse. split.
  - rewrite (Htrim "``json").
    rewrite (startsWith_app "```json" (body +:+ "```")).
    change (drop_string 7) with (drop_string (String.length "```json")).
    rewrite (drop_string_app "```json" (body +:+ "```")).
    rewrite endsWith_app. unfold take_string.
    rewrite length_append.
    replace (String.length body + String.length "```" - 3)%nat
      with (String.length body) by (simpl; lia).
    by rewrite substring_0_app.
  - intros Hplain. rewrite (Htrim "``").
    replace (startsWith ("```" +:+ body +:+ "```") "```json") with false.
    + rewrite (startsWith_app "```" (body +:+ "```")).
      change (drop_string 3) with (drop_string (String.length "```")).
      rewrite (drop_string_app "```" (body +:+ "```")).
      rewrite endsWith_app. unfold take_string.
      rewrite length_append.
      replace (String.length body + String.length "```" - 3)%nat
        with (String.length body) by (simpl; lia).
      by rewrite substring_0_app.
    + unfold startsWith in *. norm_append. cbn [String.prefix].
      repeat (destruct (ascii_dec _ _); [|done]).
      change (String "`" (String "`" (String "`" EmptyString)))
        with "```".
      by rewrite <- (append_nil_r "```"), <- append_assoc, append_nil_r,
        prefix_json_fence, Hplain.
Qed.

(** *** Selections the clients build *)

Lemma unexecuted_spec (availableTools : list ToolInfo)
    (executedTools : list string) (t : ToolInfo) :
  t ∈ List.filter (fun t => negb (existsb (String.eqb (name t)) executedTools))
        availableTools ->
  t ∈ availableTools /\ name t ∉ executedTools.
Proof.
  intros Hin. apply list_elem_of_In, filter_In in Hin as [Hin Hnot].
  split; [by apply list_elem_of_In|].
  intros Hexec. apply negb_true_iff, not_true_iff_false in Hnot.
  apply Hnot, existsb_exists. exists (name t).
  split; [by apply list_elem_of_In|apply String.eqb_refl].
Qed.

(** X13.  When the Gemini client chooses the tool itself, by its fallback
    ([Select], as opposed to [Forward], the LLM's object passed on, and to
    [FirstOf], the object built from the first element of an array the LLM
    answered, which carry whatever tool the LLM named), the tool chosen is
    one of the available tools and has not been executed, and the depth is
    below the limit. *)
Theorem gemini_built_selection_unexecuted (availableTools : list ToolInfo)
    (executedTools : list string) (availableContext : list (string * json))
    (currentDepth maxDepth : Z) (callGemini : outcome string)
    (tool reason : string) :
  GeminiClient.selectNextTool availableTools executedTools availableContext
    currentDepth maxDepth callGemini
  = Returns (GeminiClient.Select (Some tool) reason) ->
  (exists t, t ∈ availableTools /\ name t = tool) /\
  (tool ∉ executedTools) /\ currentDepth < maxDepth.
Proof.
  unfold GeminiClient.selectNextTool.
  destruct (maxDepth <=? currentDepth) eqn:Hdepth; [done|].
  apply Z.leb_gt in Hdepth.
  destruct (length _ =? 0)%nat; [done|].
  destruct callGemini as [response|message]; [|done].
  assert (GeminiClient.fallbackToolSelection
            (GeminiClient.unexecuted availableTools executedTools)
            availableContext
          = GeminiClient.Select (Some tool) reason ->
          (exists t, t ∈ availableTools /\ name t = tool) /\
          (tool ∉ executedTools) /\ currentDepth < maxDepth) as Hfallback.
  { unfold GeminiClient.fallbackToolSelection.
    destruct (List.find _ _) as [t|] eqn:Hfind.
    - intros [= <- _]. apply find_some in Hfind as [Hin _].
      apply list_elem_of_In, unexecuted_spec in Hin as [Hin Hnot].
      split; [by exists t|done].
    - destruct (GeminiClient.firstWithParamsInContext _ _) as [t|] eqn:Hfirst;
        [|done].
      intros [= <- _].
      apply GeminiClientProofs.firstWithParamsInContext_Some in Hfirst
        as [Hin _].
      apply unexecuted_spec in Hin as [Hin Hnot].
      split; [by exists t|done]. }
  intros [= Hreply]. revert Hreply. unfold GeminiClient.interpretReply.
  repeat match goal with
         | |- context [match ?x with _ => _ end] =>
             match x with
             | GeminiClient.fallbackToolSelection _ _ => fail 1
             | _ => destruct x eqn:?
             end
         end; try done; apply Hfallback.
Qed.

(** X14.  When the reply does not parse, the Claude client selects the first
    available tool that has not been executed and requires no parameter,
    and no tool when there is none; it never raises. *)
Theorem claude_selectNextTool_parse_failure (availableTools : list ToolInfo)
    (executedTools : list string) (currentDepth maxDepth : Z)
    (response : string) :
  currentDepth < maxDepth ->
  parseJSONResponse response = None ->
  exists tool reason,
    ClaudeClient.selectNextTool availableTools executedTools
      currentDepth maxDepth (Returns response)
    = Returns (ClaudeClient.Built (tool, reason)) /\
    (forall n, tool = Some n ->
       exists before t after,
         availableTools = before ++ t :: after /\ name t = n /\
         (n ∉ executedTools) /\ requiredOf t = [] /\
         Forall (fun u => name u ∈ executedTools \/ requiredOf u <> [])
                before) /\
    (tool = None ->
     Forall (fun u => name u ∈ executedTools \/ requiredOf u <> [])
            availableTools).
Proof.
  intros Hdepth Hparse. unfold ClaudeClient.selectNextTool.
  apply Z.leb_gt in Hdepth as ->. clear currentDepth maxDepth.
  assert (forall u : ToolInfo,
            negb (existsb (String.eqb (name u)) executedTools) = false ->
            name u ∈ executedTools) as Hexec.
  { intros u Hu. apply negb_false_iff, existsb_exists in Hu as (x & Hx & Heq).
    apply String.eqb_eq in Heq as ->. by apply list_elem_of_In. }
  assert (forall u : ToolInfo,
            negb (existsb (String.eqb (name u)) executedTools) = true ->
            name u ∉ executedTools) as Hnot.
  { intros u Hu Hin. apply negb_true_iff, not_true_iff_false in Hu.
    apply Hu, existsb_exists. exists (name u).
    split; [by apply list_elem_of_In|apply String.eqb_refl]. }
  assert (forall u : ToolInfo,
            (length (requiredOf u) =? 0)%nat = false -> requiredOf u <> [])
    as Hreq.
  { intros u Hu Hnil. by rewrite Hnil in Hu. }
  induction availableTools as [|u us IH].
  - simpl. exists None, "All tools have been executed".
    split; [done|]. split; [done|]. intros _. constructor.
  - simpl. destruct (negb (existsb _ executedTools)) eqn:Hu.
    + (* [u] has not been executed *)
      cbn [length Nat.eqb]. rewrite Hparse. cbn [List.find].
      destruct (length (requiredOf u) =? 0)%nat eqn:Hru.
      * eexists _, _. split; [reflexivity|]. split; [|done].
        intros n [= <-]. exists [], u, us. repeat split; try done.
        -- by apply Hnot.
        -- by destruct (requiredOf u).
      * destruct IH as (tool & reason & Hrun & Hsome & Hnone).
        destruct (List.filter _ us) as [|v vs] eqn:Hvs.
        -- simpl in *. injection Hrun as <- _.
           eexists _, _. split; [reflexivity|]. split; [done|].
           intros _. constructor; [right; by apply Hreq|by apply Hnone].
        -- cbn [length Nat.eqb] in Hrun. rewrite Hparse in Hrun.
           exists tool, reason. split; [exact Hrun|]. split.
           ++ intros n Hn.
              destruct (Hsome n Hn) as (before & t & after & -> & Ht).
              exists (u :: before), t, after. destruct Ht as (? & ? & ? & ?).
              repeat split; try done. constructor; [|done].
              right. by apply Hreq.
           ++ intros Hn. constructor; [right; by apply Hreq|by apply Hnone].
    + (* [u] has been executed *)
      destruct IH as (tool & reason & Hrun & Hsome & Hnone).
      exists tool, reason. split; [exact Hrun|]. split.
      * intros n Hn.
        destruct (Hsome n Hn) as (before & t & after & -> & Ht).
        exists (u :: before), t, after. destruct Ht as (? & ? & ? & ?).
        repeat split; try done. constructor; [|done]. left. by apply Hexec.
      * intros Hn. constructor; [left; by apply Hexec|by apply Hnone].
Qed.

End WithHost.

End LlmClientLaws.

Module LlmClientLawsExamples.
Import Js LlmClient StringFacts LlmClientLaws Host.
Import UserProfiles (outcome, Returns, Throws).

Definition toolWith (n : string) (req : list string) : ToolInfo :=
  {| name := n; description := None;
     inputSchema := {| s_type := "object"; properties := None;
                       required := Some req |} |}.

Definition whoAmI : ToolInfo := toolWith "whoAmI" [].
Definition search : ToolInfo := toolWith "search" ["query"].
Definition listProjects : ToolInfo := toolWith "listProjects" [].

Lemma parseJSONResponse_fenced_witness :
  parseJSONResponse " ```json [1, 2] ``` " = Some (JArr [JNum 1; JNum 2]) /\
  parseJSONResponse "``` [1, 2] ```" = Some (JArr [JNum 1; JNum 2]).
Proof.
  split.
  - exact (eq_trans
             (proj1 (parseJSONResponse_fenced " " " [1, 2] " " "
                       eq_refl eq_refl))
             eq_refl).
  - exact (eq_trans
             (proj2 (parseJSONResponse_fenced "" " [1, 2] " ""
                       eq_refl eq_refl) eq_refl)
             eq_refl).
Defined.

Lemma gemini_built_selection_unexecuted_witness :
  (exists t, t ∈ [whoAmI; search; listProjects] /\ name t = "listProjects") /\
  ("listProjects" ∉ ["whoAmI"]) /\ 0 < 10.
Proof.
  apply (gemini_built_selection_unexecuted
           [whoAmI; search; listProjects] ["whoAmI"] [] 0 10
           (Returns "I would pick listProjects.")
           "listProjects" "Fallback: no parameters required").
  reflexivity.
Defined.

Lemma claude_selectNextTool_parse_failure_witness :
  0 < 10 /\
  parseJSONResponse "I would pick listProjects." = None /\
  exists tool reason,
    ClaudeClient.selectNextTool [whoAmI; search; listProjects] ["whoAmI"]
      0 10 (Returns "I would pick listProjects.")
    = Returns (ClaudeClient.Built (tool, reason)).
Proof.
  split; [lia|]. split; [reflexivity|].
  destruct (claude_selectNextTool_parse_failure
              [whoAmI; search; listProjects] ["whoAmI"] 0 10
              "I would pick listProjects.")
    as (tool & reason & Hrun & _); [lia|reflexivity|].
  by exists tool, reason.
Defined.

End LlmClientLawsExamples.

(** ** Resource graph *)

Module ResourceGraphLaws.
Import Js ResourceGraph StringFacts.

(** *** The context handed to the LLM *)

(** No string of more than 100 words and no array of more than 10 items,
    at any depth. *)
Inductive llm_bounded : json -> Prop :=
| bounded_null : llm_bounded JNull
| bounded_bool b : llm_bounded (JBool b)
| bounded_num n : llm_bounded (JNum n)
| bounded_str s : (wordCount s <= 100)%nat -> llm_bounded (JStr s)
| bounded_arr items :
    (length items <= 10)%nat -> Forall llm_bounded items ->
    llm_bounded (JArr items)
| bounded_obj entries :
    Forall (fun kv => llm_bounded (snd kv)) entries ->
    llm_bounded (JObj entries).

Lemma Forall_set_field {V : Type} (P : V -> Prop) (k : string) (v : V)
    (l : list (string * V)) :
  P v -> Forall (fun kv => P (snd kv)) l ->
  Forall (fun kv => P (snd kv)) (set_field k v l).
Proof.
  intros Hv. induction 1 as [|[k' v'] l Hv' Hl IH]; simpl.
  - by constructor.
  - destruct (String.eqb k' k); by constructor.
Qed.

Lemma Forall_assign {V : Type} (P : V -> Prop) (target source : list (string * V)) :
  Forall (fun kv => P (snd kv)) target ->
  Forall (fun kv => P (snd kv)) source ->
  Forall (fun kv => P (snd kv)) (assign target source).
Proof.
  intros Htarget Hsource. unfold assign. revert target Htarget.
  induction Hsource as [|[k v] source Hv _ IH]; intros target Htarget; [done|].
  simpl. apply IH. by apply Forall_set_field.
Qed.

Lemma Forall_store {V : Type} (P : V -> Prop) (k : string) (v : V)
    (l : list (string * V)) :
  P v -> Forall (fun kv => P (snd kv)) l ->
  Forall (fun kv => P (snd kv)) (store k v l).
Proof.
  intros Hv Hl. unfold store. destruct (String.eqb k "__proto__"); [done|].
  by apply ResourceGraphProofs.Forall_define.
Qed.

Lemma sanitizeForLLM_bounded (value : json) : llm_bounded (sanitizeForLLM value).
Proof.
  induction value as [| b | n | s | items IH | entries IH]
    using ResourceGraphProofs.json_ind'; simpl; try by constructor.
  - destruct (100 <? wordCount s)%nat eqn:Hwords.
    + constructor. vm_compute. lia.
    + constructor. by apply Nat.ltb_ge.
  - assert (forall n,
              (length ((fix each (items : list json) (n : nat) : list json :=
                          match n, items with
                          | S n', item :: rest => sanitizeForLLM item :: each rest n'
                          | _, _ => []
                          end) items n) <= n)%nat /\
              Forall llm_bounded
                ((fix each (items : list json) (n : nat) : list json :=
                    match n, items with
                    | S n', item :: rest => sanitizeForLLM item :: each rest n'
                    | _, _ => []
                    end) items n)) as Heach.
    { induction IH as [|item items Hitem _ IHitems]; intros [|n];
        simpl; try (split; [lia|constructor]).
      destruct (IHitems n) as [Hlen Hall]. split; [lia|by constructor]. }
    destruct (Heach 10%nat) as [Hlen Hall]. by constructor.
  - constructor.
    assert (Forall (fun kv : string * json => llm_bounded (snd kv)) [])
      as Hnil by constructor.
    revert Hnil. generalize (@nil (string * json)).
    induction IH as [|[key val] es Hval _ IHes]; intros sanitized Hsanitized;
      [done|].
    apply IHes. by apply Forall_store.
Qed.

(** X15.  Whatever the tool results recorded, the context handed to the LLM
    holds no string of more than 100 words and no array of more than 10
    items, at any depth. *)
Theorem getAvailableContext_bounded (g : ResourceGraph) :
  Forall (fun kv => llm_bounded (snd kv)) (getAvailableContext g).
Proof.
  unfold getAvailableContext.
  assert (Forall (fun kv : string * json => llm_bounded (snd kv)) [])
    as Hnil by constructor.
  revert Hnil. generalize (@nil (string * json)).
  induction (toolResults g) as [|[toolName result] results IH];
    intros context Hcontext; [done|].
  cbn [fold_left fst snd].
  apply IH, Forall_store; [apply sanitizeForLLM_bounded|done].
Qed.

(** *** The latest node of a tool *)

Definition isToolNode (toolName : string) (node : ResourceNode) : Prop :=
  type node = tool /\ name node = toolName.

Lemma latestToolNode_spec (toolName : string) (ns : list (string * ResourceNode))
    (acc : option ResourceNode) :
  match latestToolNode toolName ns acc with
  | Some node =>
      (acc = Some node \/
       exists key, (key, node) ∈ ns /\ isToolNode toolName node) /\
      (forall a, acc = Some a -> timestamp a <= timestamp node) /\
      Forall (fun kn => isToolNode toolName (snd kn) ->
                        timestamp (snd kn) <= timestamp node) ns
  | None =>
      acc = None /\
      Forall (fun kn => ~ isToolNode toolName (snd kn)) ns
  end.
Proof.
  revert acc. induction ns as [|[key node] ns IH]; intros acc; simpl.
  - destruct acc as [a|]; [|done]. split; [by left|]. split; [|done].
    by intros a' [= <-].
  - match goal with
    | |- context [latestToolNode toolName ns ?acc'] =>
        specialize (IH acc'); destruct (latestToolNode toolName ns acc')
          as [latest|]
    end.
    + destruct IH as (Hwhere & Hacc & Hall).
      destruct (type node) eqn:Htype.
      * destruct (String.eqb_spec (name node) toolName) as [Hname|Hname].
        -- destruct acc as [a|].
           ++ destruct (timestamp a <? timestamp node) eqn:Hlt.
              ** apply Z.ltb_lt in Hlt. specialize (Hacc node eq_refl).
                 split; [|split].
                 --- right. destruct Hwhere as [[= <-]|(k & Hk & Htool)].
                     +++ exists key. split; [by left|done].
                     +++ exists k. split; [by right|done].
                 --- intros a' [= <-]. lia.
                 --- constructor; [done|done].
              ** apply Z.ltb_ge in Hlt. specialize (Hacc a eq_refl).
                 split; [|split].
                 --- destruct Hwhere as [Heq|(k & Hk & Htool)]; [by left|].
                     right. exists k. split; [by right|done].
                 --- by intros a' [= <-].
                 --- constructor; [simpl; lia|done].
           ++ specialize (Hacc node eq_refl). split; [|split; [done|]].
              ** right. destruct Hwhere as [[= <-]|(k & Hk & Htool)].
                 --- exists key. split; [by left|done].
                 --- exists k. split; [by right|done].
              ** constructor; [done|done].
        -- split; [|split; [done|]].
           ++ destruct Hwhere as [Heq|(k & Hk & Htool)]; [by left|].
              right. exists k. split; [by right|done].
           ++ constructor; [|done]. by intros [_ Hn].
      * split; [|split; [done|]].
        -- destruct Hwhere as [Heq|(k & Hk & Htool)]; [by left|].
           right. exists k. split; [by right|done].
        -- constructor; [|done]. intros [Ht _]. simpl in Ht. congruence.
    + destruct IH as (Hacc & Hall).
      destruct (type node) eqn:Htype.
      * destruct (String.eqb_spec (name node) toolName) as [Hname|Hname].
        -- by destruct acc as [a|]; [destruct (timestamp a <? timestamp node)|].
        -- split; [done|]. constructor; [|done]. by intros [_ Hn].
      * split; [done|]. constructor; [|done].
        intros [Ht _]. simpl in Ht. congruence.
Qed.

(** X16.  [getToolNodeId] answers the id of a tool node with the given name
    whose timestamp no other such node exceeds, and nothing exactly when
    the graph has no tool node with that name. *)
Theorem getToolNodeId_latest (toolName : string) (g : ResourceGraph) :
  match getToolNodeId toolName g with
  | Some nodeId =>
      exists key node,
        (key, node) ∈ nodes g /\ id node = nodeId /\
        isToolNode toolName node /\
        Forall (fun kn => isToolNode toolName (snd kn) ->
                          timestamp (snd kn) <= timestamp node) (nodes g)
  | None => Forall (fun kn => ~ isToolNode toolName (snd kn)) (nodes g)
  end.
Proof.
  unfold getToolNodeId.
  pose proof (latestToolNode_spec toolName (nodes g) None) as Hspec.
  destruct (latestToolNode toolName (nodes g) None) as [node|]; simpl.
  - destruct Hspec as ([[=]|(key & Hin & Htool)] & _ & Hall).
    by exists key, node.
  - by destruct Hspec.
Qed.

(** *** Edges and nodes *)

Definition has (g : ResourceGraph) (nodeId : string) : Prop :=
  is_Some (get_field nodeId (nodes g)).

(** Every edge joins two nodes of the graph. *)
Definition connected (g : ResourceGraph) : Prop :=
  Forall (fun e => has g (source e) /\ has g (target e)) (edges g).

Lemma is_Some_set_field {V : Type} (k k' : string) (v : V)
    (l : list (string * V)) :
  is_Some (get_field k l) -> is_Some (get_field k (set_field k' v l)).
Proof.
  intros Hk. destruct (String.eqb_spec k' k) as [->|Hne].
  - rewrite ResourceGraphProofs.get_set_eq. by eexists.
  - by rewrite ResourceGraphProofs.get_set_ne.
Qed.

Lemma connected_grow (g g' : ResourceGraph) :
  connected g -> (forall k, has g k -> has g' k) -> edges g' = edges g ->
  connected g'.
Proof.
  unfold connected. intros Hc Hgrow ->.
  eapply Forall_impl; [exact Hc|]. intros e [Hs Ht]. split; by apply Hgrow.
Qed.

Lemma connected_add_edge (g : ResourceGraph) (e : ResourceEdge) :
  connected g -> has g (source e) -> has g (target e) ->
  connected (with_edges g (edges g ++ [e])).
Proof.
  unfold connected. intros Hc Hs Ht. simpl. apply Forall_app. split; [done|].
  by constructor.
Qed.

Lemma updateNode_has (nodeId : string) (s : Status) (extra : list (string * json))
    (g : ResourceGraph) (k : string) :
  has g k -> has (updateNode nodeId s extra g) k.
Proof.
  unfold updateNode. destruct (get_field nodeId (nodes g)); [|done].
  apply is_Some_set_field.
Qed.

Lemma updateNode_fields (nodeId : string) (s : Status)
    (extra : list (string * json)) (g : ResourceGraph) :
  edges (updateNode nodeId s extra g) = edges g /\
  toolResults (updateNode nodeId s extra g) = toolResults g.
Proof. unfold updateNode. by destruct (get_field nodeId (nodes g)). Qed.

Lemma updateNode_connected (nodeId : string) (s : Status)
    (extra : list (string * json)) (g : ResourceGraph) :
  connected g -> connected (updateNode nodeId s extra g).
Proof.
  intros Hc. apply (connected_grow g); [done| |].
  - intros k. apply updateNode_has.
  - apply updateNode_fields.
Qed.

Section WithHost.
Context `{JsHost}.

(** What [discover] keeps, [extractFromObject] and [extractResources]
    keep. *)
Lemma extractFromObject_preserves (P : ResourceGraph -> Prop) (now : Z)
    (parentNodeId : string) :
  (forall key value path g, P g -> P (discover now parentNodeId key value path g)) ->
  forall obj path g, P g -> P (extractFromObject now parentNodeId obj path g).
Proof.
  intros Hdiscover obj.
  induction obj as [| b | n | s | items IH | entries IH]
    using ResourceGraphProofs.json_ind'; intros path g Hg; simpl; try done.
  - remember 10%nat as limit eqn:Hlimit. clear Hlimit.
    generalize 0%nat. revert g Hg.
    induction IH as [|item items Hitem _ IHitems]; intros g Hg i; [done|].
    simpl. destruct (i <? limit)%nat; [|done]. apply IHitems. by apply Hitem.
  - revert g Hg.
    induction IH as [|[key value] es Hvalue _ IHes]; intros g Hg; [done|].
    simpl. apply IHes.
    destruct (if isIdFieldName key then isIdLikeValue value else None);
      [by apply Hdiscover|].
    destruct (is_object value); [by apply Hvalue|done].
Qed.

Lemma extractResources_preserves (P : ResourceGraph -> Prop) (now : Z)
    (parentNodeId : string) :
  (forall key value path g, P g -> P (discover now parentNodeId key value path g)) ->
  forall result g, P g -> P (extractResources now parentNodeId result g).
Proof.
  intros Hdiscover result g Hg. unfold extractResources.
  pose proof (extractFromObject_preserves P now parentNodeId Hdiscover) as Hex.
  destruct result as [| | | | |fields]; try by apply Hex.
  destruct (get_field "content" fields) as [[| | | |content|]|];
    try by apply Hex.
  revert g Hg. induction content as [|item content IH]; intros g Hg; [done|].
  simpl. apply IH.
  destruct item as [| | | | |itemFields]; try done.
  destruct (get_field "text" itemFields) as [text|]; [|done].
  destruct (String_ text ≫= JSON_parse); [by apply Hex|done].
Qed.

Lemma discover_connected (now : Z) (parentNodeId key value path : string)
    (g : ResourceGraph) :
  connected g /\ has g parentNodeId ->
  connected (discover now parentNodeId key value path g) /\
  has (discover now parentNodeId key value path g) parentNodeId.
Proof.
  intros [Hc Hparent]. unfold discover.
  set (resourceId := "resource_" +:+ key +:+ "_" +:+ value).
  destruct (get_field resourceId (nodes g)) as [node|] eqn:Hnode.
  - split; [|done]. apply connected_add_edge; try done. by exists node.
  - match goal with
    | |- connected (with_edges ?g1 _) /\ _ =>
        assert (connected g1 /\ has g1 parentNodeId /\ has g1 resourceId)
          as (Hc1 & Hp1 & Hr1)
    end.
    { split; [|split].
      - apply (connected_grow g); [done| |done].
        intros k. apply is_Some_set_field.
      - by apply is_Some_set_field.
      - unfold has. simpl. rewrite ResourceGraphProofs.get_set_eq.
        by eexists. }
    split; [|done]. by apply connected_add_edge.
Qed.

Lemma discover_toolResults (now : Z) (parentNodeId key value path : string)
    (g : ResourceGraph) :
  toolResults (discover now parentNodeId key value path g) = toolResults g.
Proof. unfold discover. by destruct (get_field _ (nodes g)). Qed.

(** The graphs the orchestrator can hold: a new graph and the public
    operations on it. *)
Inductive built : ResourceGraph -> Prop :=
| built_new : built empty
| built_addPendingTool now toolName g :
    built g -> built (snd (addPendingTool now toolName g))
| built_markToolRunning nodeId params g :
    built g -> built (markToolRunning nodeId params g)
| built_recordToolExecution now nodeId result paramSources g :
    built g -> built (recordToolExecution now nodeId result paramSources g)
| built_markToolFailed nodeId error g :
    built g -> built (markToolFailed nodeId error g)
| built_markToolSkipped nodeId reason missingParams g :
    built g -> built (markToolSkipped nodeId reason missingParams g)
| built_clear g : built g -> built (clear g).

Lemma recordToolExecution_connected (now : Z) (nodeId : string) (result : json)
    (paramSources : list (string * string)) (g : ResourceGraph) :
  connected g -> connected (recordToolExecution now nodeId result paramSources g).
Proof.
  intros Hc. unfold recordToolExecution.
  destruct (get_field nodeId (nodes g)) as [node|] eqn:Hnode; [|done].
  apply (extractResources_preserves
           (fun g => connected g /\ has g nodeId) now nodeId);
    [intros; by apply discover_connected|].
  match goal with
  | |- context [fold_left ?f paramSources ?g2] =>
      assert (connected g2 /\ has g2 nodeId) as Hg2
  end.
  { split.
    - apply (connected_grow (updateNode nodeId completed [("result", result)] g));
        [by apply updateNode_connected|done|done].
    - simpl. apply updateNode_has. by exists node. }
  revert Hg2. generalize
    {| nodes := nodes (updateNode nodeId completed [("result", result)] g);
       edges := edges (updateNode nodeId completed [("result", result)] g);
       toolResults :=
         set_field (name node) (flattenResult result)
           (toolResults (updateNode nodeId completed [("result", result)] g)) |}.
  induction paramSources as [|[paramName sourceNodeId] ps IH];
    intros g2 [Hc2 Hn2]; [done|].
  simpl. apply IH.
  destruct (negb (String.eqb sourceNodeId "")); [|done]. simpl.
  case_bool_decide as Hsource; [|done].
  split; [|done]. by apply connected_add_edge.
Qed.

(** X17.  In a graph built by the public operations, every edge joins two
    nodes of the graph. *)
Theorem edges_join_nodes (g : ResourceGraph) : built g -> connected g.
Proof.
  induction 1 as [ | now toolName g _ IH | nodeId params g _ IH
                 | now nodeId result paramSources g _ IH
                 | nodeId error g _ IH | nodeId reason missingParams g _ IH
                 | g _ IH ].
  - constructor.
  - apply (connected_grow g); [done| |done].
    intros k. apply is_Some_set_field.
  - by apply updateNode_connected.
  - by apply recordToolExecution_connected.
  - by apply updateNode_connected.
  - by apply updateNode_connected.
  - constructor.
Qed.

(** *** Flattened results *)

(** A scalar, or an array stored under a key that ends with ["_array"]. *)
Definition flat_entry (kv : string * json) : Prop :=
  is_object (snd kv) = false \/
  exists items prefix, snd kv = JArr items /\ fst kv = prefix +:+ "_array".

Lemma flat_put (k : string) (v : json) (flat : Flat) :
  flat_entry (k, v) -> Forall flat_entry (snd flat) ->
  Forall flat_entry (snd (put k v flat)).
Proof.
  intros Hv Hflat. destruct flat as [bare entries]. unfold put.
  destruct (String.eqb k "__proto__" && negb bare); [by destruct v|].
  by apply ResourceGraphProofs.Forall_define.
Qed.

Lemma flat_putAll (flat : Flat) (source : list (string * json)) :
  Forall flat_entry (snd flat) -> Forall flat_entry source ->
  Forall flat_entry (snd (putAll flat source)).
Proof.
  intros Hflat Hsource. unfold putAll. revert flat Hflat.
  induction Hsource as [|[k v] source Hv _ IH]; intros flat Hflat; [done|].
  simpl. apply IH. by apply flat_put.
Qed.

Lemma flat_fold_left {B : Type} (f : Flat -> B -> Flat) (l : list B)
    (flat : Flat) :
  Forall (fun b => forall flat, Forall flat_entry (snd flat) ->
                                Forall flat_entry (snd (f flat b))) l ->
  Forall flat_entry (snd flat) ->
  Forall flat_entry (snd (fold_left f l flat)).
Proof.
  intros Hf. revert flat.
  induction Hf as [|b l Hb _ IH]; intros flat Hflat; [done|].
  simpl. by apply IH, Hb.
Qed.

Lemma flattenFuel_entries (fuel : nat) :
  forall result prefix, Forall flat_entry (flattenFuel fuel result prefix).
Proof.
  induction fuel as [|fuel IHfuel]; intros result;
    induction result as [| b | n | s | items IH | fields IH]
      using ResourceGraphProofs.json_ind'; intros prefix;
    try (by constructor).
  all: try (destruct IH as [|first rest Hfirst _]; [by constructor|];
            rewrite ResourceGraphProofs.flattenFuel_array;
            apply flat_put;
            [right; by eexists _, _|apply flat_putAll; [constructor|done]]).
  all: destruct (ResourceGraphProofs.contentArray fields) as [content|] eqn:Hc.
  all: try (rewrite (ResourceGraphProofs.flattenFuel_object _ _ _ Hc);
            apply flat_fold_left; [|constructor];
            eapply Forall_impl; [exact IH|];
            intros [key value] Hvalue flat Hflat; simpl in *;
            destruct (is_object value) eqn:Hobj;
            [by apply flat_putAll
            |apply flat_put; [by left|];
             apply flat_put; [by left|done]]).
  - by rewrite (ResourceGraphProofs.flattenFuel_envelope_0 _ _ _ Hc).
  - rewrite (ResourceGraphProofs.flattenFuel_envelope _ _ _ _ Hc).
    apply flat_fold_left; [|constructor].
    apply Forall_forall. intros item _ flat Hflat.
    destruct (ResourceGraphProofs.parsedItem item); [|done].
    by apply flat_putAll.
Qed.

(** X18.  Every entry of a flattened result is a scalar, or an array stored
    under a key that ends with ["_array"]: no nested object is stored as a
    value. *)
Theorem flattenResult_entries (result : json) :
  Forall flat_entry (flattenResult result).
Proof. apply flattenFuel_entries. Qed.

(** *** Sensitive keys *)

Lemma last_char_inj (a b : string) (c d : ascii) :
  a +:+ String c "" = b +:+ String d "" -> c = d.
Proof.
  intros Heq. apply (f_equal rev_string) in Heq.
  rewrite !rev_string_app in Heq. simpl in Heq. by injection Heq.
Qed.

Lemma endsWith_last (s mid : string) (c : ascii) :
  endsWith s (mid +:+ String c "") = true ->
  exists pre, s = pre +:+ String c "".
Proof.
  intros [pre ->]%endsWith_inv. exists (pre +:+ mid).
  by rewrite append_assoc.
Qed.

(** X19.  A key that ends with ["key"], in any letter case, is taken for an
    ID field exactly when it contains neither ["api"] nor ["secret"]. *)
Theorem isIdFieldName_key (key : string) :
  endsWith (toLowerCase key) "key" = true ->
  isIdFieldName key
  = negb (includes (toLowerCase key) "api")
    && negb (includes (toLowerCase key) "secret").
Proof.
  intros Hkey. unfold isIdFieldName. rewrite Hkey. simpl.
  destruct (endsWith_last _ "ke" "y" Hkey) as [pre Hpre].
  destruct (endsWith (toLowerCase key) "id") eqn:Hid.
  { destruct (endsWith_last _ "i" "d" Hid) as [pre' Hpre'].
    rewrite Hpre in Hpre'. by apply last_char_inj in Hpre'. }
  destruct (negb _ && negb _); [done|].
  rewrite Hpre.
  repeat match goal with
         | |- context [String.eqb ?x ?y] =>
             destruct (String.eqb_spec x y) as [Heq|_];
             [exfalso; revert Heq;
              match y with
              | "uuid" => change "uuid" with ("uui" +:+ "d")
              | "slug" => change "slug" with ("slu" +:+ "g")
              | "name" => change "name" with ("nam" +:+ "e")
              | "code" => change "code" with ("cod" +:+ "e")
              | "handle" => change "handle" with ("handl" +:+ "e")
              | "identifier" => change "identifier" with ("identifie" +:+ "r")
              end;
              by intros ?%last_char_inj|]
         end.
  done.
Qed.

(** *** Results and context *)

(** The context by tool name: what the last entry of [toolResults] for the
    tool holds, sanitized; nothing under ["__proto__"]. *)
Lemma get_context (k : string) (g : ResourceGraph) :
  get_field k (getAvailableContext g)
  = if String.eqb k "__proto__" then None
    else option_map (fun r => sanitizeForLLM (JObj r))
                    (ResourceGraphProofs.lastWrite k (toolResults g)).
Proof.
  unfold getAvailableContext.
  enough (forall context,
            get_field k
              (fold_left
                 (fun context tr =>
                    store (fst tr) (sanitizeForLLM (JObj (snd tr))) context)
                 (toolResults g) context)
            = if String.eqb k "__proto__" then get_field k context
              else match ResourceGraphProofs.lastWrite k (toolResults g) with
                   | Some r => Some (sanitizeForLLM (JObj r))
                   | None => get_field k context
                   end) as Hfold.
  { rewrite Hfold. simpl. destruct (String.eqb k "__proto__"); [done|].
    by destruct (ResourceGraphProofs.lastWrite k (toolResults g)). }
  induction (toolResults g) as [|[k' r] l IH]; intros context.
  - simpl. by destruct (String.eqb k "__proto__").
  - cbn [fold_left fst snd]. rewrite IH, ResourceGraphProofs.lastWrite_cons.
    rewrite ResourceGraphProofs.get_store.
    destruct (String.eqb_spec k "__proto__") as [->|Hk].
    + by destruct (String.eqb k' "__proto__").
    + destruct (ResourceGraphProofs.lastWrite k l); [done|].
      destruct (String.eqb_spec k' "__proto__") as [->|Hproto].
      * by apply not_eq_sym, String.eqb_neq in Hk as ->.
      * by destruct (String.eqb k' k).
Qed.

Lemma recordToolExecution_toolResults (now : Z) (nodeId : string)
    (result : json) (paramSources : list (string * string))
    (g : ResourceGraph) (node : ResourceNode) :
  get_field nodeId (nodes g) = Some node ->
  toolResults (recordToolExecution now nodeId result paramSources g)
  = set_field (name node) (flattenResult result) (toolResults g).
Proof.
  intros Hnode. unfold recordToolExecution. rewrite Hnode.
  apply (extractResources_preserves
           (fun g' => toolResults g'
                      = set_field (name node) (flattenResult result)
                                  (toolResults g)) now nodeId).
  { intros key value path g' Hg'. by rewrite discover_toolResults. }
  match goal with
  | |- context [fold_left ?f paramSources ?g2] =>
      assert (toolResults g2
              = set_field (name node) (flattenResult result) (toolResults g))
        as Hg2;
      [simpl; by rewrite (proj2 (updateNode_fields _ _ _ _))|];
      revert Hg2; generalize g2
  end.
  induction paramSources as [|[paramName sourceNodeId] ps IH];
    intros g2 Hg2; [done|].
  simpl. apply IH.
  destruct (negb (String.eqb sourceNodeId "")); [|done]. simpl.
  by case_bool_decide.
Qed.

(** X20.  [toolResults] being a [Map], its keys distinct: after
    [recordToolExecution] on a node of the graph, the context shows, under
    the node's tool name when that is not ["__proto__"], the sanitized
    flattening of the result just recorded, and under every other name
    what it showed before; it has no entry named ["__proto__"]; on a node
    id the graph does not have, nothing changes. *)
Theorem recorded_result_in_context (now : Z) (nodeId : string) (result : json)
    (paramSources : list (string * string)) (g : ResourceGraph) :
  NoDup (ResourceGraphProofs.keys (toolResults g)) ->
  match get_field nodeId (nodes g) with
  | Some node =>
      let g' := recordToolExecution now nodeId result paramSources g in
      NoDup (ResourceGraphProofs.keys (toolResults g')) /\
      (name node <> "__proto__" ->
       get_field (name node) (getAvailableContext g')
       = Some (sanitizeForLLM (JObj (flattenResult result)))) /\
      (forall other, other <> name node ->
         get_field other (getAvailableContext g')
         = get_field other (getAvailableContext g)) /\
      get_field "__proto__" (getAvailableContext g') = None
  | None => recordToolExecution now nodeId result paramSources g = g
  end.
Proof.
  intros Hnd.
  destruct (get_field nodeId (nodes g)) as [node|] eqn:Hnode.
  - intros g'. subst g'.
    pose proof (recordToolExecution_toolResults now nodeId result paramSources
                  g node Hnode) as Hresults.
    assert (NoDup (ResourceGraphProofs.keys
                     (toolResults (recordToolExecution now nodeId result
                                     paramSources g)))) as Hnd'.
    { rewrite Hresults. by apply ResourceGraphProofs.set_field_keys. }
    split; [done|]. split; [|split].
    + intros Hname. rewrite get_context.
      apply String.eqb_neq in Hname as ->.
      rewrite ResourceGraphProofs.lastWrite_get by done.
      by rewrite Hresults, ResourceGraphProofs.get_set_eq.
    + intros other Hother. rewrite !get_context.
      rewrite !ResourceGraphProofs.lastWrite_get by done.
      rewrite Hresults.
      by rewrite ResourceGraphProofs.get_set_ne by (by apply not_eq_sym).
    + by rewrite get_context.
  - unfold recordToolExecution. by rewrite Hnode.
Qed.

End WithHost.

End ResourceGraphLaws.

Module ResourceGraphLawsExamples.
Import Js ResourceGraph ResourceGraphLaws Host.

(** One tool, whose result names an account. *)
Definition after_whoAmI : ResourceGraph :=
  recordToolExecution 9 "tool_whoAmI_5" (JObj [("accountId", JStr "abc")]) []
    (snd (addPendingTool 5 "whoAmI" empty)).

Lemma edges_join_nodes_witness :
  connected after_whoAmI /\ length (edges after_whoAmI) = 1%nat.
Proof.
  split; [|reflexivity].
  apply (edges_join_nodes after_whoAmI).
  apply built_recordToolExecution, built_addPendingTool, built_new.
Defined.

Lemma recorded_result_in_context_witness :
  NoDup (ResourceGraphProofs.keys
           (toolResults (snd (addPendingTool 5 "whoAmI" empty)))) /\
  get_field "whoAmI" (getAvailableContext after_whoAmI)
  = Some (sanitizeForLLM (JObj (flattenResult (JObj [("accountId", JStr "abc")])))).
Proof.
  assert (NoDup (ResourceGraphProofs.keys
                   (toolResults (snd (addPendingTool 5 "whoAmI" empty)))))
    as Hnd by constructor.
  split; [exact Hnd|].
  pose proof (recorded_result_in_context (H := js_host) 9 "tool_whoAmI_5"
                (JObj [("accountId", JStr "abc")]) []
                (snd (addPendingTool 5 "whoAmI" empty)) Hnd) as Hrecorded.
  simpl in Hrecorded. destruct Hrecorded as (_ & Hshown & _).
  by apply Hshown.
Defined.

Lemma isIdFieldName_key_witness :
  isIdFieldName "apiKey" = false /\ isIdFieldName "projectKey" = true.
Proof.
  split.
  - exact (isIdFieldName_key "apiKey" eq_refl).
  - exact (isIdFieldName_key "projectKey" eq_refl).
Defined.

End ResourceGraphLawsExamples.

(** ** Agent orchestrator: runs of the loop *)

Module AgentOrchestratorLaws.
Import Js LlmClient AgentOrchestrator.
Import UserProfiles (outcome, Returns, Throws).

(** *** The tools a run calls *)

(** The names of the tools called in a list of calls. *)
Definition toolCallsOf (cs : list Call) : list string :=
  omap (fun c => match c with
                 | call_toolCallFn n _ => Some n
                 | _ => None
                 end) cs.

Definition locals_inv (l : Locals) (called : list string) : Prop :=
  NoDup (executedTools l) /\ NoDup called /\
  forall n, n ∈ called ->
            n ∈ executedTools l /\ exists t, t ∈ tools l /\ name t = n.

Definition run_inv (a : Await) (called : list string) : Prop :=
  match a with
  | await_listTools | await_analyzeToolDependencies _ => called = []
  | await_selectNextTool l _ => locals_inv l called
  | await_extractParameters l _ toolInfo _ =>
      locals_inv l called /\ name toolInfo ∈ executedTools l /\
      toolInfo ∈ tools l /\ name toolInfo ∉ called
  | await_toolCallFn l _ _ _ _ _ _ => locals_inv l called
  end.

Lemma throwOut_not_suspended (origin : Origin) (now : Z) (message : string)
    (o o' : AgentOrchestrator) (a' : Await) :
  throwOut origin now message o = (o', Suspended a') -> False.
Proof.
  unfold throwOut. destruct origin; [|done].
  by destruct (emitThrows _ _).
Qed.

Lemma loopHead_suspended (now : Z) (l : Locals) (o o' : AgentOrchestrator)
    (a' : Await) :
  loopHead now l o = (o', Suspended a') ->
  exists context currentDepth maxDepth,
    a' = await_selectNextTool l context /\
    calls o'
    = calls o ++ [call_selectNextTool (tools l) (executedTools l) context
                    currentDepth maxDepth].
Proof.
  unfold loopHead, finish.
  destruct (status (state o)); try done.
  destruct (abortController o) as [[]|]; try done;
    intros [= <- <-]; by eexists _, _, _.
Qed.

Lemma processExtraction_locals (now : Z) (l : Locals) (toolInfo : ToolInfo)
    (nodeId : string) (extraction : option ExtractedParams)
    (o : AgentOrchestrator) :
  let l1 := snd (fst (processExtraction now l toolInfo nodeId extraction o)) in
  tools l1 = tools l /\ executedTools l1 = executedTools l.
Proof.
  unfold processExtraction. destruct (_ && _); [done|].
  destruct (resolveSources _ _ _) as [m ps].
  by destruct (maxDepth (state o) <? m + 1).
Qed.

Lemma locals_inv_eq (l l1 : Locals) (called : list string) :
  tools l1 = tools l -> executedTools l1 = executedTools l ->
  locals_inv l called -> locals_inv l1 called.
Proof. unfold locals_inv. by intros -> ->. Qed.

Section Runs.
Context `{JsHost}.

(** The [await]s of one run of the loop, with the names of the tools the
    run has called so far, in order; between two [await]s the orchestrator
    may have been changed by anything. *)
Inductive runs : Await -> list string -> Prop :=
| runs_first : runs await_listTools []
| runs_next a a' origin now r o o' called cs :
    runs a called ->
    resumeLoop origin now a r o = Some (o', Suspended a') ->
    calls o' = calls o ++ cs ->
    runs a' (called ++ toolCallsOf cs).

Lemma updateStep_calls (stepState stepIndex : nat)
    (f : ExecutionStep -> ExecutionStep) (o : AgentOrchestrator) :
  calls (updateStep stepState stepIndex f o) = calls o.
Proof. unfold updateStep. by destruct (_ =? _)%nat. Qed.

Lemma run_step (origin : Origin) (now : Z) (a a' : Await) (r : Answer)
    (o o' : AgentOrchestrator) (called : list string) (cs : list Call) :
  run_inv a called ->
  resumeLoop origin now a r o = Some (o', Suspended a') ->
  calls o' = calls o ++ cs ->
  run_inv a' (called ++ toolCallsOf cs).
Proof.
  intros Hinv Hrun Hcalls.
  assert (forall l o1,
            loopHead now l o1 = (o', Suspended a') ->
            locals_inv l called -> calls o1 = calls o ->
            run_inv a' (called ++ toolCallsOf cs)) as Hhead.
  { intros l o1 Hloop Hl Ho1.
    destruct (loopHead_suspended _ _ _ _ _ Hloop)
      as (context & cd & md & -> & Hc).
    rewrite Ho1, Hcalls in Hc. apply app_inv_head in Hc as ->.
    simpl. by rewrite app_nil_r. }
  destruct a as [ | ts | l context | l context toolInfo nid
                | l toolInfo nid paramSources toolDepth stepState stepIndex ],
           r as [r|r|r|r|r]; simpl in Hrun; try done;
    injection Hrun as Hrun.
  - (* listTools *)
    unfold afterListTools in Hrun. destruct r as [tools|message];
      [|by apply throwOut_not_suspended in Hrun].
    injection Hrun as <- <-. simpl in Hcalls.
    apply app_inv_head in Hcalls as <-. simpl in *. by rewrite Hinv.
  - (* analyzeToolDependencies *)
    unfold afterAnalyze in Hrun. destruct r as [analysis|message];
      [|by apply throwOut_not_suspended in Hrun].
    simpl in Hinv. subst called.
    eapply Hhead; [exact Hrun| |reflexivity].
    split; [constructor|]. split; [constructor|].
    intros n Hn. by apply elem_of_nil in Hn.
  - (* selectNextTool *)
    unfold afterSelect in Hrun.
    destruct r as [[[nextTool|] reason]|message];
      [|done|by apply throwOut_not_suspended in Hrun].
    destruct (String.eqb nextTool ""); [done|].
    destruct (existsb _ (executedTools l)) eqn:Hexec;
      [by eapply Hhead|].
    assert (nextTool ∉ executedTools l) as Hnew.
    { intros Hin. apply not_true_iff_false in Hexec. apply Hexec.
      apply existsb_exists. exists nextTool.
      split; [by apply list_elem_of_In|apply String.eqb_refl]. }
    destruct Hinv as (Hnd & Hcalled & Hsub).
    assert (locals_inv
              {| tools := tools l;
                 executedTools := executedTools l ++ [nextTool];
                 toolDepths := toolDepths l |} called) as Hl'.
    { split; [|split; [done|]]; simpl.
      - apply NoDup_app. split; [done|]. split.
        + intros x Hx ->%list_elem_of_singleton. done.
        + apply NoDup_singleton.
      - intros n Hn. destruct (Hsub n Hn) as [Hin Ht].
        split; [|done]. apply elem_of_app. by left. }
    destruct (List.find _ (tools l)) as [toolInfo|] eqn:Hfind;
      [|by eapply Hhead].
    apply find_some in Hfind as [Hin Hname].
    apply String.eqb_eq in Hname. apply list_elem_of_In in Hin.
    destruct (ResourceGraph.addPendingTool _ _ _) as [nodeId g].
    injection Hrun as <- <-. simpl in Hcalls.
    apply app_inv_head in Hcalls as <-. simpl. rewrite app_nil_r.
    split; [done|]. split; [|split; [done|]].
    + simpl. apply elem_of_app. right. rewrite Hname. by left.
    + rewrite Hname. intros Hc. by destruct (Hsub _ Hc).
  - (* extractParameters *)
    unfold afterExtract in Hrun. destruct r as [extraction|message];
      [|by apply throwOut_not_suspended in Hrun].
    destruct Hinv as (Hl & Hexec & Htool & Hfresh).
    pose proof (processExtraction_locals now l toolInfo nid extraction o)
      as [Htools Hexecuted].
    pose proof (AgentOrchestratorProofs.processExtraction_calls
                  now l toolInfo nid extraction o) as Hsame.
    destruct (processExtraction _ _ _ _ _ _) as [[o1 l1] [|ps srcs d idx]];
      simpl in Htools, Hexecuted, Hsame.
    + eapply Hhead; [exact Hrun|by apply (locals_inv_eq l)|exact Hsame].
    + injection Hrun as <- <-. simpl in Hcalls. rewrite Hsame in Hcalls.
      apply app_inv_head in Hcalls as <-. simpl.
      apply (locals_inv_eq l); [done|done|].
      destruct Hl as (Hnd & Hcalled & Hsub).
      split; [done|]. split.
      * apply NoDup_app. split; [done|]. split.
        -- intros x Hx ->%list_elem_of_singleton. done.
        -- apply NoDup_singleton.
      * intros n [Hn| ->%list_elem_of_singleton]%elem_of_app;
          [by apply Hsub|].
        split; [done|]. by exists toolInfo.
  - (* toolCallFn *)
    unfold afterToolCall in Hrun.
    eapply Hhead; [exact Hrun|exact Hinv|].
    destruct r; simpl; apply updateStep_calls.
Qed.

Lemma runs_inv (a : Await) (called : list string) :
  runs a called -> run_inv a called.
Proof.
  induction 1 as [|a a' origin now r o o' called cs _ IH Hrun Hcalls]; [done|].
  by eapply run_step.
Qed.

(** A run's local variables, once it has them. *)
Definition localsOf (a : Await) : option Locals :=
  match a with
  | await_listTools | await_analyzeToolDependencies _ => None
  | await_selectNextTool l _ | await_extractParameters l _ _ _
  | await_toolCallFn l _ _ _ _ _ _ => Some l
  end.

(** X21.  In one run of the loop no tool is called twice, and every tool
    called is one of the tools listed at the start of the run, recorded in
    [executedTools]; this holds whatever the answers of the LLM, of
    [listToolsFn] and of the tools, and whatever is done to the
    orchestrator between two [await]s. *)
Theorem no_tool_called_twice (a : Await) (called : list string) :
  runs a called ->
  NoDup called /\
  match localsOf a with
  | Some l =>
      NoDup (executedTools l) /\
      Forall (fun n => n ∈ executedTools l /\
                       exists t, t ∈ tools l /\ name t = n) called
  | None => called = []
  end.
Proof.
  intros Hruns. apply runs_inv in Hruns.
  destruct a as [ | ts | l context | l context toolInfo nid
                | l toolInfo nid paramSources toolDepth stepState stepIndex ];
    simpl in *.
  - subst. split; [constructor|done].
  - subst. split; [constructor|done].
  - destruct Hruns as (Hnd & Hcalled & Hsub).
    split; [done|]. split; [done|]. by apply Forall_forall.
  - destruct Hruns as ((Hnd & Hcalled & Hsub) & _).
    split; [done|]. split; [done|]. by apply Forall_forall.
  - destruct Hruns as (Hnd & Hcalled & Hsub).
    split; [done|]. split; [done|]. by apply Forall_forall.
Qed.

Lemma resumeLoop_extends_calls (origin : Origin) (now : Z) (a a' : Await)
    (r : Answer) (o o' : AgentOrchestrator) :
  resumeLoop origin now a r o = Some (o', Suspended a') ->
  calls o' = calls o ++ drop (length (calls o)) (calls o').
Proof.
  intros Hrun.
  enough (exists cs, calls o' = calls o ++ cs) as [cs Hcs].
  { rewrite Hcs at 2. by rewrite drop_app_length. }
  assert (forall l o1,
            loopHead now l o1 = (o', Suspended a') -> calls o1 = calls o ->
            exists cs, calls o' = calls o ++ cs) as Hhead.
  { intros l o1 Hloop Ho1.
    destruct (loopHead_suspended _ _ _ _ _ Hloop)
      as (context & cd & md & _ & Hc).
    rewrite Ho1 in Hc. by eexists. }
  destruct a as [ | ts | l context | l context toolInfo nid
                | l toolInfo nid paramSources toolDepth stepState stepIndex ],
           r as [r|r|r|r|r]; simpl in Hrun; try done;
    injection Hrun as Hrun.
  - unfold afterListTools in Hrun. destruct r; [|by apply throwOut_not_suspended in Hrun].
    injection Hrun as <- _. by eexists.
  - unfold afterAnalyze in Hrun. destruct r; [|by apply throwOut_not_suspended in Hrun].
    by eapply Hhead.
  - unfold afterSelect in Hrun.
    destruct r as [[[nextTool|] reason]|message];
      [|done|by apply throwOut_not_suspended in Hrun].
    destruct (String.eqb nextTool ""); [done|].
    destruct (existsb _ (executedTools l)); [by eapply Hhead|].
    destruct (List.find _ (tools l)); [|by eapply Hhead].
    destruct (ResourceGraph.addPendingTool _ _ _) as [nodeId g].
    injection Hrun as <- _. by eexists.
  - unfold afterExtract in Hrun.
    destruct r as [extraction|message]; [|by apply throwOut_not_suspended in Hrun].
    pose proof (AgentOrchestratorProofs.processExtraction_calls
                  now l toolInfo nid extraction o) as Hsame.
    destruct (processExtraction _ _ _ _ _ _) as [[o1 l1] [|ps srcs d idx]];
      simpl in Hsame.
    + by eapply Hhead.
    + injection Hrun as <- _. simpl. rewrite Hsame. by eexists.
  - unfold afterToolCall in Hrun. eapply Hhead; [exact Hrun|].
    destruct r; simpl; apply updateStep_calls.
Qed.

(** A run replayed from a script: each step gives who awaits the loop, the
    clock, the answer, and what is done to the orchestrator before the
    answer arrives. *)
Fixpoint replay
    (script : list (Origin * Z * Answer * (AgentOrchestrator -> AgentOrchestrator)))
    (s : AgentOrchestrator * Await * list string)
  : option (AgentOrchestrator * Await * list string) :=
  match script with
  | [] => Some s
  | (origin, now, r, before) :: rest =>
      let '(o, a, called) := s in
      match resumeLoop origin now a r (before o) with
      | Some (o', Suspended a') =>
          replay rest
            (o', a',
             called ++ toolCallsOf (drop (length (calls (before o))) (calls o')))
      | _ => None
      end
  end.

Lemma replay_runs script (o o' : AgentOrchestrator) (a a' : Await)
    (called called' : list string) :
  runs a called ->
  replay script (o, a, called) = Some (o', a', called') ->
  runs a' called'.
Proof.
  revert o a called.
  induction script as [|[[[origin now] r] before] script IH];
    intros o a called Hruns Hreplay.
  - by injection Hreplay as _ <- <-.
  - simpl in Hreplay.
    destruct (resumeLoop origin now a r (before o)) as [[o1 [a1| | |]]|] eqn:Hstep;
      try done.
    apply (IH _ _ _ (runs_next _ _ _ _ _ _ _ _ _ Hruns Hstep
                       (resumeLoop_extends_calls _ _ _ _ _ _ _ Hstep))
              Hreplay).
Qed.

(** *** Pausing *)

Lemma updateStep_status (stepState stepIndex : nat)
    (f : ExecutionStep -> ExecutionStep) (o : AgentOrchestrator) :
  status (state (updateStep stepState stepIndex f o)) = status (state o) /\
  abortController (updateStep stepState stepIndex f o) = abortController o.
Proof. unfold updateStep. by destruct (_ =? _)%nat. Qed.

(** X22.  A [pause()] while a tool call is in flight does not suspend the
    run: when the tool answers, by a result or by an error, the loop ends,
    the status becomes [completed], [agent_complete] is emitted and no
    further call is made; [resume()] then does nothing. *)
Theorem pause_during_tool_call (now later after : Z) (l : Locals)
    (toolInfo : ToolInfo) (nodeId : string)
    (paramSources : list (string * string)) (toolDepth : Z)
    (stepState stepIndex : nat) (answer : outcome json)
    (o : AgentOrchestrator) :
  status (state o) = running ->
  let paused := pause now o in
  let o' := fst (afterToolCall later l toolInfo nodeId paramSources toolDepth
                   stepState stepIndex answer paused) in
  status (state paused) = AgentOrchestrator.paused /\
  snd (afterToolCall later l toolInfo nodeId paramSources toolDepth
         stepState stepIndex answer paused) = Finished /\
  status (state o') = completed /\
  endTime (state o') = Some later /\
  calls o' = calls o /\
  (exists e, last (emitted o') = Some e /\ ev_type e = "agent_complete") /\
  resume after o' = (o', None).
Proof.
  intros Hrunning. unfold pause. rewrite Hrunning. cbv zeta.
  split; [done|].
  unfold afterToolCall.
  match goal with
  | |- context [loopHead later l ?o1] =>
      assert (status (state o1) = AgentOrchestrator.paused /\
              calls o1 = calls o) as [Hpaused Hcalls]
  end.
  { destruct answer; simpl;
      by rewrite (proj1 (updateStep_status _ _ _ _)), updateStep_calls. }
  unfold loopHead. rewrite Hpaused. unfold finish. simpl.
  repeat split; try done.
  - eexists. by rewrite last_snoc.
Qed.

(** *** Rejections *)

(** The rejection of the call a loop awaits, outside the loop's own
    [try]. *)
Definition rejection (a : Await) (message : string) : option Answer :=
  match a with
  | await_listTools => Some (tools_listed (Throws message))
  | await_analyzeToolDependencies _ => Some (analyzed (Throws message))
  | await_selectNextTool _ _ => Some (selected (Throws message))
  | await_extractParameters _ _ _ _ => Some (extracted (Throws message))
  | await_toolCallFn _ _ _ _ _ _ _ => None
  end.

(** X23.  When [listToolsFn] or a call of the LLM client rejects: a loop
    awaited by [start()] ends with status [error], the message in
    [state.error] and an [error] event, after which [start()] itself
    returns when a listener for ["error"] is registered and is left by the
    error that the emitter raises for the unhandled event when none is;
    either way [start()] can be called again.  A loop awaited by
    [resume()] passes the rejection on and leaves the orchestrator as it
    is, so that, the status being still [running], [start()] is refused
    and [resume()] does nothing. *)
Theorem rejection_outside_try (now later : Z) (a : Await) (message : string)
    (r : Answer) (o : AgentOrchestrator) :
  rejection a message = Some r ->
  configured o = true ->
  status (state o) = running ->
  (exists o',
      resumeLoop from_start now a r o
      = Some (o', if errorListener o then Finished
                  else Unhandled {| ev_data := error_event message;
                                    ev_timestamp := now |}) /\
      status (state o') = error /\
      stateError (state o') = Some message /\
      emitted o'
      = emitted o ++ [ {| ev_data := error_event message;
                          ev_timestamp := now |} ] /\
      calls o' = calls o /\
      errorListener o' = errorListener o /\
      exists started, start later o' = Returns started) /\
  resumeLoop from_resume now a r o = Some (o, Thrown message) /\
  start later o = Throws "Agent is already running" /\
  resume later o = (o, None).
Proof.
  intros Hr Hconf Hstatus.
  assert (start later o = Throws "Agent is already running"
          /\ resume later o = (o, None)) as [Hstart Hresume].
  { unfold start, resume. by rewrite Hconf, Hstatus. }
  destruct a; simpl in Hr; try done; injection Hr as <-; simpl;
    (split; [eexists; split; [by destruct (errorListener o)|];
             repeat split; try done;
             unfold start; simpl; rewrite Hconf; by eexists
            |done]).
Qed.

(** *** A reply to [extractParameters] that is not JSON *)

(** X24.  When the reply to [extractParameters] does not parse, both clients
    answer an extraction with no parameter, confidence 0 and every
    required parameter missing.  With it, a tool that has a required
    parameter is flagged and skipped without being called; a tool that has
    none is started with no parameter at depth 1, when [maxDepth] allows
    depth 1. *)
Theorem unparsed_extraction (origin : Origin) (now : Z) (l : Locals)
    (toolInfo : ToolInfo) (nodeId response : string) (o : AgentOrchestrator) :
  parseJSONResponse response = None ->
  exists extraction,
    GeminiClient.extractParameters toolInfo (Returns response)
    = Returns (GeminiClient.Built extraction) /\
    ClaudeClient.extractParameters toolInfo (Returns response)
    = Returns (ClaudeClient.Built extraction) /\
    params extraction = Some [] /\
    confidence extraction = Some (0 : Q) /\
    missingParams extraction = Some (requiredOf toolInfo) /\
    let result := processExtraction now l toolInfo nodeId (Some extraction) o in
    (requiredOf toolInfo <> [] ->
     snd result = skip /\
     flaggedTools (state (fst (fst result)))
     = flaggedTools (state o)
       ++ [ {| f_toolName := name toolInfo;
               f_missingParams := requiredOf toolInfo;
               f_reason :=
                 "Could not resolve required parameters from available context";
               f_nodeId := nodeId |} ] /\
     emitted (fst (fst result))
     = emitted o
       ++ [ {| ev_data := tool_skipped_missing (name toolInfo)
                                               (requiredOf toolInfo);
               ev_timestamp := now |} ] /\
     exists cs,
       calls (fst (afterExtract origin now l toolInfo nodeId
                     (Returns (Some extraction)) o))
       = calls o ++ cs /\
       AgentOrchestratorProofs.no_tool_call cs) /\
    (requiredOf toolInfo = [] -> 1 <= maxDepth (state o) ->
     snd result = invoke [] [] 1 (length (executionHistory (state o))) /\
     calls (fst (afterExtract origin now l toolInfo nodeId
                   (Returns (Some extraction)) o))
     = calls o ++ [call_toolCallFn (name toolInfo) []]).
Proof.
  intros Hparse. exists (GeminiClient.extractionFallback toolInfo).
  unfold GeminiClient.extractParameters, ClaudeClient.extractParameters.
  rewrite Hparse. do 5 (split; [done|]). cbv zeta. split.
  - intros Hreq.
    assert (processExtraction now l toolInfo nodeId
              (Some (GeminiClient.extractionFallback toolInfo)) o
            = (emitEvent now
                 (tool_skipped_missing (name toolInfo) (requiredOf toolInfo))
                 (with_graph
                    (with_state o
                       (push_flagged
                          {| f_toolName := name toolInfo;
                             f_missingParams := requiredOf toolInfo;
                             f_reason :=
                               "Could not resolve required parameters from available context";
                             f_nodeId := nodeId |}
                          (state o)))
                    (ResourceGraph.markToolSkipped nodeId "Missing parameters"
                       (requiredOf toolInfo) (graph o))),
               l, skip)) as Hproc.
    { unfold processExtraction. simpl.
      destruct (requiredOf toolInfo) as [|p ps]; [done|]. reflexivity. }
    rewrite Hproc. simpl. repeat split.
    unfold afterExtract. rewrite Hproc.
    destruct (AgentOrchestratorProofs.loopHead_calls now l
                (emitEvent now
                   (tool_skipped_missing (name toolInfo) (requiredOf toolInfo))
                   (with_graph
                      (with_state o
                         (push_flagged
                            {| f_toolName := name toolInfo;
                               f_missingParams := requiredOf toolInfo;
                               f_reason :=
                                 "Could not resolve required parameters from available context";
                               f_nodeId := nodeId |}
                            (state o)))
                      (ResourceGraph.markToolSkipped nodeId "Missing parameters"
                         (requiredOf toolInfo) (graph o)))))
      as (cs & Hcs & Hno).
    exists cs. split; [exact Hcs|exact Hno].
  - intros Hreq Hdepth.
    unfold afterExtract, processExtraction. simpl. rewrite Hreq. simpl.
    change (0 + 1) with 1.
    replace (maxDepth (state o) <? 1) with false
      by (symmetry; apply Z.ltb_ge; lia).
    done.
Qed.

End Runs.

End AgentOrchestratorLaws.

Module AgentOrchestratorLawsExamples.
Import Js LlmClient AgentOrchestrator AgentOrchestratorLaws Host.
Import UserProfiles (outcome, Returns, Throws).

Definition toolNeeding (n : string) (req : list string) : ToolInfo :=
  {| name := n; description := None;
     inputSchema := {| s_type := "object"; properties := None;
                       required := Some req |} |}.

Definition listSpaces : ToolInfo := toolNeeding "listSpaces" [].
Definition getPage : ToolInfo := toolNeeding "getPage" ["pageId"].

(** A configured orchestrator whose loop [start()] has just launched. *)
Definition launched : AgentOrchestrator :=
  Eval vm_compute in
    match start 0 (configure None None constructor) with
    | Returns (o, _) => o
    | Throws _ => constructor
    end.

Definition no_change (o : AgentOrchestrator) : AgentOrchestrator := o.

(** One tool is called; [configure] is called again while the selection is
    awaited, and the LLM then selects the same tool a second time. *)
Definition one_call : list (Origin * Z * Answer
                            * (AgentOrchestrator -> AgentOrchestrator)) :=
  [ (from_start, 1, tools_listed (Returns [listSpaces; getPage]), no_change);
    (from_start, 2, analyzed (Returns []), no_change);
    (from_start, 3, selected (Returns (Some "listSpaces", "no parameters")),
     configure None (Some 3));
    (from_start, 4,
     extracted (Returns (Some {| params := Some []; sources := Some [];
                                 confidence := Some 1%Q;
                                 missingParams := Some [] |})),
     no_change);
    (from_start, 5, tool_returned (Returns (JObj [("id", JStr "s-1")])),
     no_change);
    (from_start, 6, selected (Returns (Some "listSpaces", "once more")),
     no_change) ].

Definition after_one_call : option (AgentOrchestrator * Await * list string) :=
  Eval vm_compute in replay one_call (launched, await_listTools, []).

Definition await_after_one_call : Await :=
  Eval vm_compute in
    match after_one_call with
    | Some (_, a, _) => a
    | None => await_listTools
    end.

Definition orchestrator_after_one_call : AgentOrchestrator :=
  Eval vm_compute in
    match after_one_call with
    | Some (o, _, _) => o
    | None => constructor
    end.

Lemma one_call_replayed :
  replay one_call (launched, await_listTools, [])
  = Some (orchestrator_after_one_call, await_after_one_call, ["listSpaces"]).
Proof. by vm_compute. Qed.

Lemma no_tool_called_twice_witness :
  runs await_after_one_call ["listSpaces"] /\ NoDup ["listSpaces"].
Proof.
  assert (runs await_after_one_call ["listSpaces"]) as Hruns
    by exact (replay_runs _ _ _ _ _ _ _ runs_first one_call_replayed).
  split; [exact Hruns|].
  exact (proj1 (no_tool_called_twice _ _ Hruns)).
Defined.

Definition some_locals : Locals :=
  {| tools := [listSpaces]; executedTools := ["listSpaces"]; toolDepths := ∅ |}.

Lemma pause_during_tool_call_witness :
  status (state launched) = running /\
  status (state (fst (afterToolCall 9 some_locals listSpaces "n" [] 1 0 0
                        (Returns JNull) (pause 8 launched))))
  = completed.
Proof.
  split; [reflexivity|].
  by destruct (pause_during_tool_call 8 9 10 some_locals listSpaces "n" [] 1
                 0%nat 0%nat (Returns JNull) launched eq_refl)
    as (_ & _ & Hcompleted & _).
Defined.

Lemma rejection_outside_try_witness :
  (exists o',
      resumeLoop from_start 1 await_listTools
                 (tools_listed (Throws "ECONNRESET")) launched
      = Some (o', Unhandled {| ev_data := error_event "ECONNRESET";
                               ev_timestamp := 1 |}) /\
      status (state o') = error) /\
  resumeLoop from_resume 1 await_listTools (tools_listed (Throws "ECONNRESET"))
             launched
  = Some (launched, Thrown "ECONNRESET") /\
  start 2 launched = Throws "Agent is already running".
Proof.
  destruct (rejection_outside_try (H := js_host) 1 2 await_listTools
              "ECONNRESET" (tools_listed (Throws "ECONNRESET")) launched
              eq_refl eq_refl eq_refl)
    as ((o' & Hrun & Herror & _) & Hresume & Hstart & _).
  split; [by exists o'|by split].
Defined.

(** With a listener for ["error"], [start()] returns after the event. *)
Lemma rejection_with_listener :
  option_map snd
    (resumeLoop from_start 1 await_listTools
                (tools_listed (Throws "ECONNRESET")) (on_error launched))
  = Some Finished.
Proof. reflexivity. Qed.

Lemma unparsed_extraction_witness :
  parseJSONResponse "I cannot find pageId." = None /\
  exists extraction,
    GeminiClient.extractParameters getPage (Returns "I cannot find pageId.")
    = Returns (GeminiClient.Built extraction).
Proof.
  split; [reflexivity|].
  destruct (unparsed_extraction (H := js_host) from_start 7 some_locals
              getPage "n" "I cannot find pageId." launched eq_refl)
    as (extraction & Hgemini & _).
  by exists extraction.
Defined.

End AgentOrchestratorLawsExamples.

(** ** Proxy *)

Module McpProxyLaws.
Import Js McpProxy.
Import UserProfiles (outcome, Returns, Throws).

(** The numbers in the parameters of a request, if it has parameters,
    are safe integers: [String] then writes them in decimal. *)
Definition safe_params (params : option json) : bool :=
  match params with
  | Some p => safe_numbers p
  | None => true
  end.

Section WithSdk.
Context {sdk : McpSdk}.

Section WithHost.
Context `{JsHost}.

(** X25.  A request that passes the guard of the SDK and whose numbers are
    safe integers, and the result, passing the guard too, that answers it.
    When [String] converts the
    name of a [tools/call] request, or there is no name to convert: the
    request is recorded under its id with its method and, for
    [tools/call], the name read off its parameters; both messages are
    passed on; the result retires the id; only the result of a [tools/call]
    request can change the index, and it is indexed under the tool name of
    the request and the profile active when the result arrives.  When
    [String] throws on the name, the request is neither recorded nor passed
    on. *)
Theorem request_result_round_trip (e : UserProfiles.Env) (id : RequestId)
    (method : string) (params : option json) (result : json) (w : World) :
  isJSONRPCRequest id method params = true ->
  safe_params params = true ->
  isJSONRPCResponse id result = true ->
  let w1 := transportToClient_onmessage (request id method params) w in
  let w2 := transportToServer_onmessage e (response id result) w1 in
  match toolNameOf method params with
  | Returns toolName =>
      pendingRequests (proxy w1) !! id
      = Some {| r_method := method; r_toolName := toolName |} /\
      pendingRequests (proxy w2) = delete id (pendingRequests (proxy w)) /\
      toServer (proxy w2)
      = toServer (proxy w) ++ [send (request id method params)] /\
      toClient (proxy w2) = toClient (proxy w) ++ [send (response id result)] /\
      (method <> "tools/call" ->
       toolName = None /\ resourceIndexer w2 = resourceIndexer w) /\
      (forall fields name,
          method = "tools/call" -> params = Some (JObj fields) ->
          get_field "name" fields = Some name ->
          String_ name = toolName) /\
      (forall name,
          method = "tools/call" -> toolName = Some name -> name <> "" ->
          resourceIndexer w2
          = snd (ResourceIndexer.indexResponse e (profileManager w)
                   (UserProfiles.getActiveProfileId (profileManager w))
                   name result (resourceIndexer w)))
  | Throws _ => w1 = w
  end.
Proof.
  intros Hrequest _ Hresponse.
  unfold transportToServer_onmessage, transportToClient_onmessage.
  rewrite Hrequest, Hresponse.
  destruct (toolNameOf method params) as [toolName|thrown] eqn:Hname; [|done].
  simpl. rewrite lookup_insert_eq. simpl.
  split; [done|]. split; [by rewrite delete_insert_eq|].
  split; [done|]. split; [done|]. split; [|split].
  - intros Hmethod. unfold toolNameOf in Hname.
    apply String.eqb_neq in Hmethod. rewrite Hmethod in Hname.
    by injection Hname as <-.
  - intros fields name -> -> Hfield. unfold toolNameOf in Hname.
    rewrite String.eqb_refl, Hfield in Hname.
    destruct (String_ name); [by injection Hname as <-|done].
  - intros name -> -> Hnonempty. rewrite String.eqb_refl.
    apply String.eqb_neq in Hnonempty. by rewrite Hnonempty.
Qed.

(** X26.  A message from the server changes the index only when it is the
    result of a pending [tools/call] request recorded with a non-empty tool
    name. *)
Theorem index_changes_only_on_tool_results (e : UserProfiles.Env)
    (m : Message) (w : World) :
  resourceIndexer (transportToServer_onmessage e m w) = resourceIndexer w \/
  exists id result toolName,
    m = response id result /\
    pendingRequests (proxy w) !! id
    = Some {| r_method := "tools/call"; r_toolName := Some toolName |} /\
    toolName <> "" /\
    resourceIndexer (transportToServer_onmessage e m w)
    = snd (ResourceIndexer.indexResponse e (profileManager w)
             (UserProfiles.getActiveProfileId (profileManager w))
             toolName result (resourceIndexer w)).
Proof.
  destruct m as [id method params|id result|id code message data|method params];
    try (by left).
  unfold transportToServer_onmessage.
  destruct (isJSONRPCResponse id result); [|by left].
  destruct (pendingRequests (proxy w) !! id) as [[method [toolName|]]|] eqn:Hid;
    try (by left).
  simpl.
  destruct (String.eqb_spec method "tools/call") as [->|Hne]; [|by left].
  destruct (String.eqb_spec toolName "") as [->|Hname]; [by left|].
  right. by exists id, result, toolName.
Qed.

(** X27.  A request that passes the guard of the SDK and whose numbers are
    safe integers, answered by a JSON-RPC error.  When [String] converts the name of a [tools/call]
    request, or there is no name to convert: the error is passed on to the
    client, the index is left as it is, and the id stays in the table of
    pending requests.  When [String] throws on the name, the request was
    neither recorded nor passed on, and the error is passed on to the
    client all the same, the table and the index being left as they
    are. *)
Theorem error_response_keeps_entry (e : UserProfiles.Env) (id : RequestId)
    (method : string) (params : option json) (code : Z) (message : string)
    (data : option ErrorData) (w : World) :
  isJSONRPCRequest id method params = true ->
  safe_params params = true ->
  let w1 := transportToClient_onmessage (request id method params) w in
  let w2 :=
    transportToServer_onmessage e (error_response id code message data) w1 in
  match toolNameOf method params with
  | Returns toolName =>
      pendingRequests (proxy w2) !! id
      = Some {| r_method := method; r_toolName := toolName |}
  | Throws _ => w1 = w
  end /\
  pendingRequests (proxy w2) = pendingRequests (proxy w1) /\
  resourceIndexer w2 = resourceIndexer w /\
  toClient (proxy w2)
  = toClient (proxy w) ++ [send (error_response id code message data)].
Proof.
  intros Hrequest _.
  unfold transportToServer_onmessage, transportToClient_onmessage.
  rewrite Hrequest.
  destruct (toolNameOf method params) as [toolName|thrown]; simpl; [|done].
  by rewrite lookup_insert_eq.
Qed.

End WithHost.

(** X28.  When the client side closes while the server side is open, the
    table of pending requests is emptied and the server transport is
    closed, once: the close of the server side that follows changes
    nothing, and neither does a send failure reported after it.  The same
    holds with the two sides exchanged. *)
Theorem close_propagates_once (w : World) (m : Message) (error : JsError) :
  transportToClientClosed (proxy w) = false ->
  transportToServerClosed (proxy w) = false ->
  let c := transportToClient_onclose w in
  let s := transportToServer_onclose w in
  (pendingRequests (proxy c) = ∅ /\
   toServer (proxy c) = toServer (proxy w) ++ [close] /\
   toClient (proxy c) = toClient (proxy w) /\
   transportToServer_onclose c = c /\
   transportToServer_send_catch m error c = c) /\
  (pendingRequests (proxy s) = ∅ /\
   toClient (proxy s) = toClient (proxy w) ++ [close] /\
   toServer (proxy s) = toServer (proxy w) /\
   transportToClient_onclose s = s).
Proof.
  intros Hclient Hserver. unfold transportToClient_onclose,
    transportToServer_onclose, transportToServer_send_catch.
  rewrite Hclient, Hserver. simpl. repeat split.
  destruct m; try done. by rewrite andb_false_r.
Qed.

End WithSdk.

End McpProxyLaws.

Module McpProxyLawsExamples.
Import Js McpProxy McpProxyLaws Host.
Import UserProfiles (outcome, Returns, Throws).
Import McpProxyProofs.

Definition id_7 : RequestId := inl 7.

Definition open_world : World :=
  {| proxy := mcpProxy;
     resourceIndexer := ResourceIndexer.empty_index;
     profileManager := UserProfiles.loadFromFile None |}.

Definition at_noon : UserProfiles.Env :=
  {| UserProfiles.now := 43200;
     UserProfiles.randomUUID := fun n => "entry-" +:+ string_of_nat n;
     UserProfiles.fs_ok := true |}.

Definition call_getPage : option json :=
  Some (JObj [("name", JStr "getPage");
              ("arguments", JObj [("pageId", JStr "p-7")])]).

Definition page_result : json :=
  JObj [("content", JArr [JObj [("type", JStr "text");
                                ("text", JStr "{}")]])].

Lemma request_result_round_trip_witness :
  let w1 :=
    transportToClient_onmessage (request id_7 "tools/call" call_getPage)
      open_world in
  let w2 :=
    transportToServer_onmessage at_noon (response id_7 page_result) w1 in
  pendingRequests (proxy w1) !! id_7
  = Some {| r_method := "tools/call"; r_toolName := Some "getPage" |} /\
  pendingRequests (proxy w2) = delete id_7 ∅.
Proof.
  intros w1 w2.
  destruct (request_result_round_trip (sdk := schema_sdk) (H := js_host)
              at_noon id_7 "tools/call" call_getPage page_result
              open_world eq_refl eq_refl eq_refl)
    as (Hrecorded & Hretired & _).
  split; [exact Hrecorded|exact Hretired].
Defined.

Lemma error_response_keeps_entry_witness :
  let w1 :=
    transportToClient_onmessage (request id_7 "tools/call" call_getPage)
      open_world in
  let w2 :=
    transportToServer_onmessage at_noon
      (error_response id_7 (-32602) "Unknown tool" None) w1 in
  pendingRequests (proxy w2) !! id_7
  = Some {| r_method := "tools/call"; r_toolName := Some "getPage" |}.
Proof.
  intros w1 w2.
  exact (proj1 (error_response_keeps_entry (sdk := schema_sdk) (H := js_host)
                  at_noon id_7 "tools/call" call_getPage (-32602)
                  "Unknown tool" None open_world eq_refl eq_refl)).
Defined.

Lemma close_propagates_once_witness :
  transportToServer_onclose (transportToClient_onclose open_world)
  = transportToClient_onclose open_world /\
  toServer (proxy (transportToClient_onclose open_world)) = [close].
Proof.
  destruct (close_propagates_once (sdk := schema_sdk) open_world
              (notification "ping" None)
              {| message := "closed"; cause := None |} eq_refl eq_refl)
    as [(_ & Hclose & _ & Honce & _) _].
  by split.
Defined.

End McpProxyLawsExamples.

(** ** Client hooks *)

Module ClientHooksLaws.
Import HttpTransactions AgentStream.

Lemma existsb_id (target : string) (prev : list CapturedTransaction) :
  existsb (fun t => String.eqb (id t) target) prev = true <->
  target ∈ List.map id prev.
Proof.
  rewrite existsb_exists. split.
  - intros (t & Hin & <-%String.eqb_eq). apply list_elem_of_In.
    by apply in_map.
  - intros Hin. apply list_elem_of_In, in_map_iff in Hin as (t & <- & Hin).
    exists t. split; [done|apply String.eqb_refl].
Qed.

(** X29.  The transaction list of [useHttpTransactions] never exceeds 100
    entries and never holds two transactions with the same id: a
    transaction whose id is in the list is ignored; another one is added at
    the end, the oldest entry being dropped when the list was full. *)
Theorem addTransaction_bounded (data : CapturedTransaction)
    (prev : list CapturedTransaction) :
  (length prev <= 100)%nat ->
  NoDup (List.map id prev) ->
  let next := addTransaction data prev in
  (length next <= 100)%nat /\
  NoDup (List.map id next) /\
  (id data ∈ List.map id prev -> next = prev) /\
  ((id data ∉ List.map id prev) ->
   last next = Some data /\
   next = if (length prev <? 100)%nat then prev ++ [data]
          else List.tl prev ++ [data]).
Proof.
  intros Hlen Hnd. unfold addTransaction. cbv zeta.
  destruct (existsb _ prev) eqn:Hdup.
  - apply existsb_id in Hdup. repeat split; done.
  - assert (id data ∉ List.map id prev) as Hnew.
    { intros Hin. apply existsb_id in Hin. congruence. }
    assert (NoDup (List.map id (prev ++ [data]))) as Hnd'.
    { rewrite map_app. apply NoDup_app. split; [done|]. split.
      - intros x Hx ->%list_elem_of_singleton. done.
      - apply NoDup_singleton. }
    assert (length (prev ++ [data]) = S (length prev)) as Hlen'
      by (rewrite length_app; simpl; lia).
    destruct (100 <? length (prev ++ [data]))%nat eqn:Hfull.
    + apply Nat.ltb_lt in Hfull.
      assert ((length prev <? 100)%nat = false) as ->
        by (apply Nat.ltb_ge; lia).
      destruct prev as [|first rest]; [simpl in Hfull; lia|].
      cbn [List.tl app] in *.
      assert (length (rest ++ [data]) = length (first :: rest)) as Hsame
        by (rewrite length_app; simpl; lia).
      repeat split; try done.
      * lia.
      * by apply NoDup_cons in Hnd' as [_ Hnd'].
      * by rewrite last_snoc.
    + apply Nat.ltb_ge in Hfull.
      assert ((length prev <? 100)%nat = true) as ->
        by (apply Nat.ltb_lt; lia).
      repeat split; try done. by rewrite last_snoc.
Qed.

(** X30.  The event list of [useAgentStream] holds at most 100 events: a new
    event is added after the last 99 of the previous list. *)
Theorem addEvent_bounded {A : Type} (agentEvent : A) (prev : list A) :
  let next := addEvent agentEvent prev in
  length next = (Nat.min (length prev) 99 + 1)%nat /\
  (length next <= 100)%nat /\
  last next = Some agentEvent /\
  next `suffix_of` (prev ++ [agentEvent]) /\
  ((length prev <= 99)%nat -> next = prev ++ [agentEvent]).
Proof.
  unfold addEvent, slice_last. cbv zeta.
  rewrite length_app, length_drop. simpl.
  repeat split; try lia.
  - by rewrite last_snoc.
  - exists (take (length prev - 99) prev).
    by rewrite app_assoc, take_drop.
  - intros Hshort. replace (length prev - 99)%nat with 0%nat by lia. done.
Qed.

End ClientHooksLaws.

Module ClientHooksLawsExamples.
Import HttpTransactions AgentStream ClientHooksLaws.

Definition transaction (name : string) (at_ : Z) : CapturedTransaction :=
  {| id := name; timestamp := at_; sessionId := None;
     url := "http://localhost:6277/mcp"; method := "POST";
     requestHeaders := [("content-type", "application/json")];
     responseHeaders := []; statusCode := 200; statusText := "OK";
     duration := 12 |}.

Definition shown : list CapturedTransaction :=
  [transaction "tx-1" 1000; transaction "tx-2" 1010].

Lemma addTransaction_bounded_witness :
  let next := addTransaction (transaction "tx-3" 1020) shown in
  (length next <= 100)%nat /\
  NoDup (List.map id next) /\
  (id (transaction "tx-3" 1020) ∈ List.map id shown -> next = shown) /\
  ((id (transaction "tx-3" 1020) ∉ List.map id shown) ->
   last next = Some (transaction "tx-3" 1020) /\
   next = if (length shown <? 100)%nat
          then shown ++ [transaction "tx-3" 1020]
          else List.tl shown ++ [transaction "tx-3" 1020]).
Proof.
  apply (addTransaction_bounded (transaction "tx-3" 1020) shown).
  - simpl. lia.
  - simpl. repeat constructor; intros Hin;
      repeat (apply elem_of_cons in Hin as [Hin|Hin]; [discriminate|]);
      by apply elem_of_nil in Hin.
Defined.

End ClientHooksLawsExamples.
